(** * Sales dashboard server: upload, normalisation and analytics routes

    A shallow embedding of [server/routes.ts] (the Express routes of the
    sales-analytics dashboard): the multer upload filter, the Excel upload
    route with its per-row normalisation and geocoding fallback, the
    analytics route, the records and clear routes, the geocoding proxy
    and the maps configuration route.

    JavaScript values are modelled as far as the routes use them: the
    falsy/truthy split behind [||] and [!], [parseInt] and [parseFloat] on
    the string form of a value, strict equality with [0], and [+] on
    numbers.  The analytics are computed on exact quotients of the
    stored integers, and the two growth filters and the 2024 total are
    related to their binary64 versions. *)

From Stdlib Require Import ZArith QArith Qround Lia Bool List Ascii String.
From Stdlib Require SpecFloat.
From stdpp Require Import gmap strings.

Local Open Scope Z_scope.

(** ** JavaScript numbers and values *)

Module JS.

(** A number is NaN, an infinity, or a finite value kept as the decimal
    [m * 10^e] that its literal denotes.  Binary64 rounding is not
    modelled: integers are exact below 2^53 in the source too, and the
    routes only test the other numbers against zero. *)
Inductive number : Type :=
  | NaN
  | Infinity (neg : bool)
  | Finite (m e : Z).

Inductive value : Type :=
  | Undefined
  | Null
  | Bool (b : bool)
  | Num (x : number)
  | Str (s : string).

Definition int (z : Z) : number := Finite z 0.

Definition is_zero (x : number) : bool :=
  match x with
  | Finite m _ => m =? 0
  | _ => false
  end.

(** ToBoolean: [undefined], [null], [false], [0], [NaN] and the empty
    string are falsy. *)
Definition truthy (v : value) : bool :=
  match v with
  | Undefined | Null => false
  | Bool b => b
  | Num NaN => false
  | Num x => negb (is_zero x)
  | Str s => negb (String.eqb s "")
  end.

(** [a || b] *)
Definition or (a b : value) : value := if truthy a then a else b.

(** [v === 0] *)
Definition strict_eq_zero (v : value) : bool :=
  match v with
  | Num x => is_zero x
  | _ => false
  end.

(** [x + y] on numbers. *)
Definition add (x y : number) : number :=
  match x, y with
  | NaN, _ | _, NaN => NaN
  | Infinity a, Infinity b => if Bool.eqb a b then Infinity a else NaN
  | Infinity a, Finite _ _ => Infinity a
  | Finite _ _, Infinity b => Infinity b
  | Finite m1 e1, Finite m2 e2 =>
      let e := Z.min e1 e2 in
      Finite (m1 * 10 ^ (e1 - e) + m2 * 10 ^ (e2 - e)) e
  end.

(** The integer a number holds, if it holds one (Number.isInteger). *)
Definition to_integer (x : number) : option Z :=
  match x with
  | Finite m e =>
      if 0 <=? e then Some (m * 10 ^ e)
      else if m mod 10 ^ (- e) =? 0 then Some (m / 10 ^ (- e))
      else None
  | _ => None
  end.

(** *** Decimal digits *)

Definition is_digit (d : Z) : Prop := 0 <= d < 10.

Definition digit_char (d : Z) : ascii := ascii_of_N (48 + Z.to_N d).

(** Most significant digit first; [fuel] bounds the number of digits. *)
Fixpoint digits_fuel (fuel : nat) (n : Z) (acc : list ascii) : list ascii :=
  match fuel with
  | O => acc
  | S fuel' =>
      if n <? 10 then digit_char n :: acc
      else digits_fuel fuel' (n / 10) (digit_char (n mod 10) :: acc)
  end.

(** Decimal digits of a non-negative integer; a number of [b] bits has at
    most [b] decimal digits. *)
Definition digits (n : Z) : list ascii :=
  digits_fuel (S (Z.to_nat (Z.log2 n))) n [].

Definition zero_char : ascii := "0"%char.

Fixpoint strip_leading_zeros (l : list ascii) : list ascii :=
  match l with
  | c :: l' => if Ascii.eqb c zero_char then strip_leading_zeros l' else l
  | [] => []
  end.

Definition strip_trailing_zeros (l : list ascii) : list ascii :=
  rev (strip_leading_zeros (rev l)).

Definition zeros (n : Z) : list ascii := repeat zero_char (Z.to_nat n).

(** *** Number::toString (radix 10)

    With [s] the digits without trailing zeros, [k] their number and [n]
    the position of the decimal point ([x = s * 10^(n-k)]), the five
    layouts of the language definition. *)
Definition exponent_part (n : Z) : list ascii :=
  "e"%char :: (if 0 <=? n - 1 then "+"%char else "-"%char) :: digits (Z.abs (n - 1)).

Definition unsigned_to_string (m e : Z) : list ascii :=
  let all := digits m in
  let s := strip_trailing_zeros all in
  let k := Z.of_nat (length s) in
  let n := Z.of_nat (length all) + e in
  if (k <=? n) && (n <=? 21) then s ++ zeros (n - k)
  else if (0 <? n) && (n <=? 21) then
    firstn (Z.to_nat n) s ++ "."%char :: skipn (Z.to_nat n) s
  else if (-6 <? n) && (n <=? 0) then
    "0"%char :: "."%char :: zeros (- n) ++ s
  else
    match s with
    | [d] => d :: exponent_part n
    | d :: ds => d :: "."%char :: ds ++ exponent_part n
    | [] => []
    end.

Definition number_to_string (x : number) : string :=
  match x with
  | NaN => "NaN"
  | Infinity false => "Infinity"
  | Infinity true => "-Infinity"
  | Finite m e =>
      if m =? 0 then "0"
      else if m <? 0 then string_of_list_ascii ("-"%char :: unsigned_to_string (- m) e)
      else string_of_list_ascii (unsigned_to_string m e)
  end.

(** ToString *)
Definition to_string (v : value) : string :=
  match v with
  | Undefined => "undefined"
  | Null => "null"
  | Bool true => "true"
  | Bool false => "false"
  | Num x => number_to_string x
  | Str s => s
  end.

(** *** parseInt and parseFloat

    Strings are sequences of 8-bit characters here, so the white space
    skipped in front is the ASCII part of the language's: TAB, LF, VT,
    FF, CR and SP. *)

Definition is_whitespace (c : ascii) : bool :=
  let n := N_of_ascii c in
  ((n =? 32) || ((9 <=? n) && (n <=? 13)))%N.

Fixpoint trim_start (l : list ascii) : list ascii :=
  match l with
  | c :: l' => if is_whitespace c then trim_start l' else l
  | [] => []
  end.

(** [s.trim() === ""] *)
Definition blank (s : string) : bool :=
  forallb is_whitespace (list_ascii_of_string s).

(** The value of [c] as a digit of the given radix, if it is one. *)
Definition digit_value (radix : Z) (c : ascii) : option Z :=
  let n := Z.of_N (N_of_ascii c) in
  let d :=
    if (48 <=? n) && (n <=? 57) then n - 48
    else if (97 <=? n) && (n <=? 122) then n - 87
    else if (65 <=? n) && (n <=? 90) then n - 55
    else radix in
  if d <? radix then Some d else None.

(** The longest prefix of digits, as digit values, and what follows it. *)
Fixpoint span_digits (radix : Z) (l : list ascii) : list Z * list ascii :=
  match l with
  | c :: l' =>
      match digit_value radix c with
      | Some d => let '(ds, rest) := span_digits radix l' in (d :: ds, rest)
      | None => ([], l)
      end
  | [] => ([], [])
  end.

Definition value_of (radix : Z) (ds : list Z) : Z :=
  fold_left (fun acc d => acc * radix + d) ds 0.

Definition read_sign (l : list ascii) : bool * list ascii :=
  match l with
  | c :: l' =>
      if Ascii.eqb c "-"%char then (true, l')
      else if Ascii.eqb c "+"%char then (false, l')
      else (false, l)
  | [] => (false, l)
  end.

(** The radix [parseInt] settles on and the text after a [0x] or [0X]
    prefix. *)
Definition read_radix (l : list ascii) : Z * list ascii :=
  match l with
  | c0 :: c1 :: l' =>
      if Ascii.eqb c0 "0"%char && (Ascii.eqb c1 "x"%char || Ascii.eqb c1 "X"%char)
      then (16, l')
      else (10, l)
  | _ => (10, l)
  end.

Definition signed (neg : bool) (z : Z) : Z := if neg then - z else z.

(** [parseInt(s)] without a radix argument: leading white space, a sign,
    a [0x]/[0X] prefix, then the longest run of digits; [NaN] when there
    is no digit. *)
Definition parse_int_string (s : string) : number :=
  let '(neg, l) := read_sign (trim_start (list_ascii_of_string s)) in
  let '(radix, l) := read_radix l in
  match fst (span_digits radix l) with
  | [] => NaN
  | ds => int (signed neg (value_of radix ds))
  end.

Definition parseInt (v : value) : number := parse_int_string (to_string v).

Fixpoint starts_with (p l : list ascii) : bool :=
  match p, l with
  | [], _ => true
  | a :: p', b :: l' => Ascii.eqb a b && starts_with p' l'
  | _ :: _, [] => false
  end.

(** The exponent part [e][+-]digits, when all of it is there: its value
    and otherwise [0] (the literal then ends before the [e]). *)
Definition read_exponent (l : list ascii) : Z :=
  match l with
  | c :: l' =>
      if Ascii.eqb c "e"%char || Ascii.eqb c "E"%char then
        let '(neg, l'') := read_sign l' in
        match fst (span_digits 10 l'') with
        | [] => 0
        | ds => signed neg (value_of 10 ds)
        end
      else 0
  | [] => 0
  end.

(** [parseFloat(s)]: leading white space, then the longest prefix that
    is a decimal literal (sign, [Infinity] or digits with an optional
    fraction and exponent); [NaN] when there is none. *)
Definition parse_float_string (s : string) : number :=
  let '(neg, l) := read_sign (trim_start (list_ascii_of_string s)) in
  if starts_with (list_ascii_of_string "Infinity") l then Infinity neg
  else
    let '(ip, l1) := span_digits 10 l in
    let '(fp, l2) :=
      match l1 with
      | c :: l1' =>
          if Ascii.eqb c "."%char then
            let '(fp, l2) := span_digits 10 l1' in
            match ip, fp with
            | [], [] => ([], l1)
            | _, _ => (fp, l2)
            end
          else ([], l1)
      | [] => ([], l1)
      end in
    match ip ++ fp with
    | [] => NaN
    | ds =>
        Finite (signed neg (value_of 10 ds))
               (read_exponent l2 - Z.of_nat (length fp))
    end.

Definition parseFloat (v : value) : number := parse_float_string (to_string v).

End JS.
(** ** Records, schema and store *)

(** What [insertSalesDataSchema.parse] returns: the record with its
    fields at their column types. *)
Record InsertSalesData : Type := {
  state : string;
  city : string;
  latitude : JS.number;
  longitude : JS.number;
  sales2022 : Z;
  sales2023 : Z;
  sales2024 : Z;
  sales2025 : Z;
  total : Z
}.

(** A stored record: the inserted fields and the identifier the store
    gave it. *)
Record SalesData : Type := {
  id : Z;
  fields :> InsertSalesData
}.

(** Modelled from the spec: the Record Store ([server/storage.ts] is not
    among the sources).  It holds the current records and supports
    read-all, clear-all and insert-many; insertion assigns the
    identifiers and leaves the other fields as given.  The operations
    are taken not to fail. *)
Class IStorage (S : Type) : Type := {
  getAllSalesData : S -> list SalesData;
  clearSalesData : S -> S;
  createMultipleSalesData : list InsertSalesData -> S -> list SalesData * S;
  getAll_clear : forall st, getAllSalesData (clearSalesData st) = [];
  createMultiple_fields : forall xs st,
    map fields (fst (createMultipleSalesData xs st)) = xs;
  getAll_createMultiple : forall xs st,
    getAllSalesData (snd (createMultipleSalesData xs st)) =
    getAllSalesData st ++ fst (createMultipleSalesData xs st)
}.

(** Modelled from the spec: an in-memory Record Store, a list of records
    and the next free identifier. *)
Record MemStorage : Type := {
  records : list SalesData;
  currentId : Z
}.

Fixpoint assign_ids (next : Z) (xs : list InsertSalesData) : list SalesData :=
  match xs with
  | x :: xs' => {| id := next; fields := x |} :: assign_ids (next + 1) xs'
  | [] => []
  end.

Definition mem_getAll (st : MemStorage) : list SalesData := records st.

Definition mem_clear (st : MemStorage) : MemStorage :=
  {| records := []; currentId := currentId st |}.

Definition mem_createMultiple (xs : list InsertSalesData) (st : MemStorage)
  : list SalesData * MemStorage :=
  let inserted := assign_ids (currentId st) xs in
  (inserted,
   {| records := records st ++ inserted;
      currentId := currentId st + Z.of_nat (length xs) |}).

Definition mem_empty : MemStorage := {| records := []; currentId := 1 |}.

(** ** The upload route: one row *)

Module Upload.
Import JS.

(** A row of [XLSX.utils.sheet_to_json]: header to cell value. *)
Abbreviation Row := (gmap string value).

(** [rowData[key]] *)
Definition get (rowData : Row) (key : string) : value :=
  default Undefined (rowData !! key).

(** What the awaited geocoding request gives the route: an exception
    caught by the inner [catch] (the request or its JSON body fails, or
    the body lacks a field the route reads), or the [status] of the body
    and the [geometry.location] pairs [(lat, lng)] of its [results]. *)
Inductive Fetched : Type :=
  | Throws
  | GeocodeData (status : string) (results : list (value * value)).

(** [process.env] and the geocoding service, asked with the key and the
    address of the request URL: [fetchGeocode] is the request of the
    upload route as that route reads it, [fetchJson] the body the proxy
    route passes on ([None] when the request throws). *)
Record Env : Type := {
  GOOGLE_MAP_API : option string;
  GOOGLE_GEOCODING_API : option string;
  VITE_GOOGLE_MAPS_API_KEY : option string;
  fetchGeocode : string -> string -> Fetched;
  fetchJson : string -> string -> option string
}.

Definition env_value (o : option string) : value :=
  match o with
  | Some s => Str s
  | None => Undefined
  end.

(** The object literal [salesData] before validation. *)
Record Candidate : Type := {
  c_state : value;
  c_city : value;
  c_latitude : value;
  c_longitude : value;
  c_sales2022 : number;
  c_sales2023 : number;
  c_sales2024 : number;
  c_sales2025 : number;
  c_total : number
}.

(** [rowData[key] || d] *)
Definition cell_or (rowData : Row) (key d : string) : value :=
  or (get rowData key) (Str d).

(** [rowData[key1] || rowData[key2] || d] *)
Definition either (rowData : Row) (key1 key2 d : string) : value :=
  or (or (get rowData key1) (get rowData key2)) (Str d).


(** Lines 94-95, 100-101 and 105-106: the row's own columns. *)
Definition excelCoordinates (rowData : Row) : value * value :=
  (Num (parseFloat (either rowData "Latitude" "latitude" "0")),
   Num (parseFloat (either rowData "Longitude" "longitude" "0"))).

(** [process.env.GOOGLE_MAP_API || process.env.GOOGLE_GEOCODING_API] *)
Definition apiKey (env : Env) : value :=
  or (env_value (GOOGLE_MAP_API env)) (env_value (GOOGLE_GEOCODING_API env)).

(** The template literal of line 82. *)
Definition address (city state : value) : string :=
  to_string city +:+ ", " +:+ to_string state +:+ ", India".

(** Lines 76-107. *)
Definition resolveCoordinates (env : Env) (rowData : Row) (state city : value)
  : value * value :=
  let apiKey := apiKey env in
  if truthy apiKey && truthy state && truthy city then
    let address := address city state in
    match fetchGeocode env (to_string apiKey) address with
    | GeocodeData status results =>
        if String.eqb status "OK" then
          match results with
          | location :: _ => location
          | [] => excelCoordinates rowData
          end
        else excelCoordinates rowData
    | Throws => excelCoordinates rowData
    end
  else excelCoordinates rowData.

(** Lines 72-128: the candidate built from a row, or [None] when line
    114 skips the row. *)
Definition buildCandidate (env : Env) (rowData : Row) : option Candidate :=
  let state := either rowData "State" "state" "" in
  let city := either rowData "City" "city" "" in
  let '(latitude, longitude) := resolveCoordinates env rowData state city in
  let sales2022 := parseInt (cell_or rowData "2022" "0") in
  let sales2023 := parseInt (cell_or rowData "2023" "0") in
  let sales2024 := parseInt (cell_or rowData "2024" "0") in
  let sales2025 := parseInt (cell_or rowData "2025" "0") in
  let total := parseInt (either rowData "Total" "total" "0") in
  if negb (truthy state) || negb (truthy city)
     || strict_eq_zero latitude || strict_eq_zero longitude
  then None
  else Some {|
    c_state := state;
    c_city := city;
    c_latitude := latitude;
    c_longitude := longitude;
    c_sales2022 := sales2022;
    c_sales2023 := sales2023;
    c_sales2024 := sales2024;
    c_sales2025 := sales2025;
    c_total :=
      if truthy (Num total) then total
      else add (add (add sales2022 sales2023) sales2024) sales2025
  |}.

(** The value as a text field. *)
Definition as_text (v : value) : option string :=
  match v with
  | Str s => Some s
  | _ => None
  end.

(** The value as a number field; NaN is not a number for a validator. *)
Definition as_number (v : value) : option number :=
  match v with
  | Num NaN => None
  | Num x => Some x
  | _ => None
  end.

(** Modelled from the spec: the final schema validation, a type and
    required-field check ([shared/schema.ts] is not among the sources):
    [state] and [city] are text, the coordinates are numbers, the yearly
    figures and the total are integers.  [None] stands for the
    validation error that the [catch] of the row turns into a skip. *)
Definition insertSalesDataSchema_parse (c : Candidate) : option InsertSalesData :=
  st ← as_text (c_state c);
  ci ← as_text (c_city c);
  la ← as_number (c_latitude c);
  lo ← as_number (c_longitude c);
  s22 ← to_integer (c_sales2022 c);
  s23 ← to_integer (c_sales2023 c);
  s24 ← to_integer (c_sales2024 c);
  s25 ← to_integer (c_sales2025 c);
  t ← to_integer (c_total c);
  Some {| state := st; city := ci; latitude := la; longitude := lo;
          sales2022 := s22; sales2023 := s23; sales2024 := s24;
          sales2025 := s25; total := t |}.

(** The body of the loop for one row (lines 69-136): the record pushed
    on [salesDataArray], or [None] when the row is skipped. *)
Definition normalizeRow (env : Env) (rowData : Row) : option InsertSalesData :=
  buildCandidate env rowData ≫= insertSalesDataSchema_parse.

(** The loop of lines 68-137 over the rows, [acc] being
    [salesDataArray]. *)
Fixpoint collectRows (env : Env) (jsonData : list Row) (acc : list InsertSalesData)
  : list InsertSalesData :=
  match jsonData with
  | row :: rows =>
      match normalizeRow env row with
      | Some validatedData => collectRows env rows (acc ++ [validatedData])
      | None => collectRows env rows acc
      end
  | [] => acc
  end.

(** *** The multer middleware of lines 13-30 *)

(** What [XLSX.read] and [sheet_to_json] make of a buffer: an exception
    (with its message when it is an [Error]), or the rows of each sheet
    in [SheetNames] order. *)
Inductive Parsed : Type :=
  | ReadThrows (message : option string)
  | Workbook (sheets : list (list Row)).

Record File : Type := {
  mimetype : string;
  size : Z;
  buffer : Parsed
}.

Definition allowedTypes : list string :=
  [ "application/vnd.openxmlformats-officedocument.spreadsheetml.sheet";
    "application/vnd.ms-excel";
    "application/vnd.oasis.opendocument.spreadsheet" ].

(** [Some message] is the [Error] given to the callback. *)
Definition fileFilter (file : File) : option string :=
  if existsb (String.eqb (mimetype file)) allowedTypes then None
  else Some "Invalid file type. Please upload an Excel file.".

Definition fileSize : Z := 10 * 1024 * 1024.

(** [upload.single('file')]: the error it hands to [next], or
    [req.file].  The filter runs on the part's header, the size limit
    while the part is read. *)
Definition upload_single (part : option File) : string + option File :=
  match part with
  | None => inr None
  | Some file =>
      match fileFilter file with
      | Some message => inl message
      | None =>
          if fileSize <? size file then inl "File too large"
          else inr (Some file)
      end
  end.

End Upload.

(** ** The routes *)

Module Routes.
Import JS Upload.

(** *** Responses *)

Record Metrics : Type := {
  totalMarkets : nat;
  totalSales2024 : Z;
  avgGrowthRate : Q;
  marketPenetration : Q;
  activeMarkets : nat;
  growthMarkets : nat;
  emergingMarkets : nat
}.

Inductive Body : Type :=
  | Message (message : string)
  | Records (data : list SalesData)
  | Imported (message : string) (count : nat) (data : list SalesData)
  | Analytics (metrics : Metrics)
  | MapsConfig (apiKey : option string)
  | Raw (json : string).

(** What a request ends in: a response of the route, or an error given
    to [next] before the route runs.  What the client then receives is
    decided by the error handling of the application, which is not
    part of [server/routes.ts]. *)
Inductive Outcome : Type :=
  | Response (status : Z) (body : Body)
  | NextError (message : string).

(** *** The handler of [POST /api/upload-excel] (lines 45-161) *)

Section Handlers.
Context {S : Type} `{IStorage S}.

Definition uploadExcel (env : Env) (file : option File) (st : S) : Outcome * S :=
  match file with
  | None => (Response 400 (Message "No file uploaded"), st)
  | Some file =>
      match buffer file with
      | ReadThrows message =>
          (Response 500 (Message (default "Failed to process Excel file" message)), st)
      | Workbook sheets =>
          let jsonData := hd [] sheets in
          let salesDataArray := collectRows env jsonData [] in
          if (length salesDataArray =? 0)%nat then
            (Response 400 (Message "No valid data found in the Excel file. Please check the format and required columns."), st)
          else
            let '(insertedData, st') :=
              createMultipleSalesData salesDataArray (clearSalesData st) in
            (Response 200
               (Imported
                  ("Successfully imported "
                   +:+ number_to_string (int (Z.of_nat (length insertedData)))
                   +:+ " records")
                  (length insertedData) insertedData),
             st')
      end
  end.

(** [app.post("/api/upload-excel", upload.single('file'), handler)] *)
Definition postUploadExcel (env : Env) (part : option File) (st : S) : Outcome * S :=
  match upload_single part with
  | inl message => (NextError message, st)
  | inr file => uploadExcel env file st
  end.

(** *** [GET /api/analytics] (lines 164-219)

    The stored figures are integers and the quotients are exact
    rationals; [B64] below gives the two filters of lines 195-202 on
    binary64 numbers, and they are proved to be the same filters for
    figures below 2^52 in magnitude. *)

Definition ratio (item : SalesData) : Q :=
  (inject_Z (sales2025 item - sales2022 item) / inject_Z (sales2022 item))%Q.

Definition Qgtb (a b : Q) : bool := negb (Qle_bool a b).

Definition growthRate (item : SalesData) : Q :=
  if sales2022 item =? 0 then 0%Q else (ratio item * 100)%Q.

Definition isGrowthMarket (item : SalesData) : bool :=
  if sales2022 item =? 0 then 0 <? sales2025 item
  else Qgtb (ratio item) (1 # 10).

Definition isEmergingMarket (item : SalesData) : bool :=
  if sales2022 item =? 0 then 0 <? sales2025 item
  else Qgtb (ratio item) (5 # 10).

Definition Qsum (l : list Q) : Q := fold_left Qplus l 0%Q.

(** [Math.round(x * 10) / 10] *)
Definition round1 (x : Q) : Q := (inject_Z (Qfloor (x * 10 + (1 # 2))) / 10)%Q.

Definition summarize (data : list SalesData) : Metrics :=
  match data with
  | [] =>
      {| totalMarkets := 0; totalSales2024 := 0; avgGrowthRate := 0%Q;
         marketPenetration := 0%Q; activeMarkets := 0; growthMarkets := 0;
         emergingMarkets := 0 |}
  | _ =>
      let totalMarkets := length data in
      let totalSales2024 := fold_left (fun sum (item : SalesData) => sum + sales2024 item) data 0 in
      (* every rate is a rational, so the NaN/Infinity filter keeps all *)
      let growthRates := map growthRate data in
      let avgGrowthRate :=
        if (0 <? length growthRates)%nat
        then (Qsum growthRates / inject_Z (Z.of_nat (length growthRates)))%Q
        else 0%Q in
      let activeMarkets := length (List.filter (fun item : SalesData => 0 <? total item) data) in
      let growthMarkets := length (List.filter isGrowthMarket data) in
      let emergingMarkets := length (List.filter isEmergingMarket data) in
      let marketPenetration :=
        if (0 <? totalMarkets)%nat
        then (inject_Z (Z.of_nat activeMarkets) / inject_Z (Z.of_nat totalMarkets) * 100)%Q
        else 0%Q in
      {| totalMarkets := totalMarkets;
         totalSales2024 := totalSales2024;
         avgGrowthRate := round1 avgGrowthRate;
         marketPenetration := round1 marketPenetration;
         activeMarkets := activeMarkets;
         growthMarkets := growthMarkets;
         emergingMarkets := emergingMarkets |}
  end.

Definition getAnalytics (st : S) : Outcome * S :=
  (Response 200 (Analytics (summarize (getAllSalesData st))), st).

(** *** The other routes *)

Definition getSalesData (st : S) : Outcome * S :=
  (Response 200 (Records (getAllSalesData st)), st).

Definition postClearSalesData (st : S) : Outcome * S :=
  (Response 200 (Message "Sales data cleared"), clearSalesData st).

(** [POST /api/geocode] (lines 222-240) *)
Definition postGeocode (env : Env) (address : value) (st : S) : Outcome * S :=
  let apiKey := or (apiKey env) (env_value (VITE_GOOGLE_MAPS_API_KEY env)) in
  if negb (truthy apiKey) then
    (Response 500 (Message "Google Maps API key not configured"), st)
  else
    match fetchJson env (to_string apiKey) (to_string address) with
    | Some data => (Response 200 (Raw data), st)
    | None => (Response 500 (Message "Geocoding failed"), st)
    end.

Definition getMapsConfig (env : Env) (st : S) : Outcome * S :=
  (Response 200
     (MapsConfig
        (match apiKey env with
         | Str key => if truthy (Str key) then Some key else None
         | _ => None
         end)),
   st).

(** The requests of the six routes; [registerRoutes] sends each to its
    handler, and [run] is the server over a sequence of them. *)
Inductive Request : Type :=
  | GetSalesData
  | PostUploadExcel (part : option File)
  | GetAnalytics
  | PostGeocode (address : value)
  | GetMapsConfig
  | PostClearSalesData.

Definition registerRoutes (env : Env) (req : Request) (st : S) : Outcome * S :=
  match req with
  | GetSalesData => getSalesData st
  | PostUploadExcel part => postUploadExcel env part st
  | GetAnalytics => getAnalytics st
  | PostGeocode address => postGeocode env address st
  | GetMapsConfig => getMapsConfig env st
  | PostClearSalesData => postClearSalesData st
  end.

Fixpoint run (env : Env) (reqs : list Request) (st : S) : S :=
  match reqs with
  | req :: reqs' => run env reqs' (snd (registerRoutes env req st))
  | [] => st
  end.

End Handlers.

End Routes.

(** ** The growth comparisons on binary64 numbers

    Lines 197 and 201 with the operations of the Standard Library's
    specification of IEEE 754 arithmetic. *)

Module B64.
Import SpecFloat.

Definition prec : Z := 53.
Definition emax : Z := 1024.

Definition of_Z (z : Z) : spec_float := binary_normalize prec emax z 0 false.

(** A mantissa of 53 bits. *)
Definition normal (m : positive) : Prop := Z.pos (Pos.size m) = 53.

(** [p] with [k] zero bits added below. *)
Definition shl (p : positive) (k : Z) : positive :=
  match k with
  | Z.pos d => Pos.iter xO p d
  | _ => p
  end.

(** The mantissa and the exponent of the integer [p] as a normalised
    binary64 number. *)
Definition norm_e (p : positive) : Z := Z.pos (Pos.size p) - 53.

Definition norm_m (p : positive) : positive := shl p (- norm_e p).

(** The binary64 number of an integer below 2^53 in magnitude. *)
Definition fl (z : Z) : spec_float :=
  match z with
  | 0 => S754_zero false
  | Z.pos p => S754_finite false (norm_m p) (norm_e p)
  | Z.neg p => S754_finite true (norm_m p) (norm_e p)
  end.

(** What a location says of the remainder [r] of a division by [m]. *)
Definition location_spec (m r : Z) (l : location) : Prop :=
  match l with
  | loc_Exact => r = 0
  | loc_Inexact Lt => 0 < r /\ 2 * r < m
  | loc_Inexact Eq => 0 < r /\ 2 * r = m
  | loc_Inexact Gt => 0 < r /\ m < 2 * r
  end.

(** The literals [0.1] and [0.5]. *)
Definition tenth : spec_float := S754_finite false 7205759403792794 (-56).
Definition half : spec_float := S754_finite false 4503599627370496 (-53).

(** [(sales2025 - sales2022) / sales2022] *)
Definition ratio (sales2022 sales2025 : Z) : spec_float :=
  SFdiv prec emax (SFsub prec emax (of_Z sales2025) (of_Z sales2022))
        (of_Z sales2022).

Definition counted (threshold : spec_float) (sales2022 sales2025 : Z) : bool :=
  if sales2022 =? 0 then 0 <? sales2025
  else SFltb threshold (ratio sales2022 sales2025).

(** The two filters of lines 195-202. *)
Definition isGrowthMarket (item : SalesData) : bool :=
  counted tenth (sales2022 item) (sales2025 item).

Definition isEmergingMarket (item : SalesData) : bool :=
  counted half (sales2022 item) (sales2025 item).

(** [data.reduce((sum, item) => sum + item.sales2024, 0)] (line 181). *)
Definition totalSales2024 (data : list SalesData) : spec_float :=
  fold_left (fun sum (item : SalesData) => SFadd prec emax sum (of_Z (sales2024 item)))
            data (of_Z 0).

End B64.

Import JS Upload Routes.

(** ** Vocabulary of the statements and sample inputs *)

(** Both coordinates of a record differ from zero. *)
Definition located (r : InsertSalesData) : Prop :=
  is_zero (latitude r) = false /\ is_zero (longitude r) = false.

(** Geocoding gives the route no coordinates: no key is configured, the
    request throws, or the answer is not [OK] or has no result. *)
Definition unresolved (env : Env) (state city : value) : Prop :=
  truthy (apiKey env) = false
  \/ fetchGeocode env (to_string (apiKey env)) (address city state) = Throws
  \/ exists status results,
       fetchGeocode env (to_string (apiKey env)) (address city state)
       = GeocodeData status results
       /\ (status <> "OK" \/ results = []).

(** The zero-guarded growth rate, that of the average (lines 184-187),
    compared with a percentage. *)
Definition growthExceeds (pct : Q) (item : SalesData) : bool :=
  Qgtb (growthRate item) pct.

(** The growth the route counts: a market with no sales in 2022 counts
    when it has sales in 2025, any other when its rate exceeds the
    percentage. *)
Definition growthCounted (pct : Q) (item : SalesData) : bool :=
  if sales2022 item =? 0 then 0 <? sales2025 item
  else Qgtb (growthRate item) pct.


(** No geocoding credential is configured. *)
Definition no_geocoding : Env :=
  {| GOOGLE_MAP_API := None; GOOGLE_GEOCODING_API := None;
     VITE_GOOGLE_MAPS_API_KEY := None;
     fetchGeocode := fun _ _ => Throws; fetchJson := fun _ _ => None |}.

(** A key is configured and the service answers [ZERO_RESULTS]. *)
Definition zero_results : Env :=
  {| GOOGLE_MAP_API := Some "key"; GOOGLE_GEOCODING_API := None;
     VITE_GOOGLE_MAPS_API_KEY := None;
     fetchGeocode := fun _ _ => GeocodeData "ZERO_RESULTS" [];
     fetchJson := fun _ _ => None |}.

Definition bengaluru : Row :=
  list_to_map
    [ ("State", Str "Karnataka"); ("City", Str "Bengaluru");
      ("2022", Num (int 100)); ("2025", Num (int 150));
      ("Latitude", Num (Finite 1297 (-2))); ("Longitude", Num (Finite 7759 (-2))) ].

Definition bengaluru_record : InsertSalesData :=
  {| state := "Karnataka"; city := "Bengaluru";
     latitude := Finite 1297 (-2); longitude := Finite 7759 (-2);
     sales2022 := 100; sales2023 := 0; sales2024 := 0; sales2025 := 150;
     total := 250 |}.


Definition blank_state : Row := <["State" := Str "  "]> bengaluru.
Definition empty_state : Row := <["State" := Str ""]> bengaluru.
Definition unparsable_latitude : Row := <["Latitude" := Str "abc"]> bengaluru.
Definition no_coordinates : Row := delete "Longitude" (delete "Latitude" bengaluru).

Definition xlsx : string :=
  "application/vnd.openxmlformats-officedocument.spreadsheetml.sheet".

(** A workbook of one valid row and two rows that are skipped. *)
Definition sales_file : File :=
  {| mimetype := xlsx; size := 4096;
     buffer := Workbook [[empty_state; bengaluru; no_coordinates]] |}.

(** A workbook none of whose rows is valid. *)
Definition invalid_file : File :=
  {| mimetype := xlsx; size := 4096;
     buffer := Workbook [[empty_state; no_coordinates]] |}.

Definition text_file : File :=
  {| mimetype := "text/plain"; size := 4096; buffer := Workbook [[bengaluru]] |}.

Definition oversize_file : File :=
  {| mimetype := xlsx; size := 10 * 1024 * 1024 + 1;
     buffer := Workbook [[bengaluru]] |}.

(** A store that already holds a record. *)
Definition old_record : SalesData :=
  {| id := 1;
     fields := {| state := "Maharashtra"; city := "Pune";
                  latitude := Finite 1852 (-2); longitude := Finite 7386 (-2);
                  sales2022 := 10; sales2023 := 20; sales2024 := 30;
                  sales2025 := 40; total := 100 |} |}.

Definition old_store : MemStorage := {| records := [old_record]; currentId := 2 |}.

(** Sales of 2022 and 2025 below 2^52 in magnitude: binary64 numbers
    hold them and their difference exactly. *)
Definition exact_figures (item : SalesData) : Prop :=
  Z.abs (sales2022 item) < 2 ^ 52 /\ Z.abs (sales2025 item) < 2 ^ 52.

(** A market that starts from nothing in 2022. *)
Definition zero_base : SalesData :=
  {| id := 1;
     fields := {| state := "Goa"; city := "Panaji";
                  latitude := Finite 155 (-1); longitude := Finite 738 (-1);
                  sales2022 := 0; sales2023 := 0; sales2024 := 0;
                  sales2025 := 5; total := 5 |} |}.

(** ** Vocabulary of the further properties *)

(** The whole part of [m * 10^e], rounded toward zero. *)
Definition truncate (m e : Z) : Z :=
  if 0 <=? e then m * 10 ^ e else Z.quot m (10 ^ (- e)).

(** [10^-6 <= |m * 10^e| < 10^21], the numbers that Number::toString
    prints without an exponent; both sides are scaled to integers. *)
Definition plain (m e : Z) : Prop :=
  10 ^ Z.max (- e) 0 <= Z.abs m * 10 ^ (6 + Z.max e 0)
  /\ Z.abs m * 10 ^ Z.max e 0 < 10 ^ (21 + Z.max (- e) 0).

(** The two numbers have the same value ([m * 10^e] has many writings). *)
Definition same_number (x y : number) : Prop :=
  match x, y with
  | NaN, NaN => True
  | Infinity a, Infinity b => a = b
  | Finite m e, Finite m' e' =>
      m * 10 ^ (e - Z.min e e') = m' * 10 ^ (e' - Z.min e e')
  | _, _ => False
  end.

(** The text ends here or goes on with a character that is no decimal
    digit. *)
Definition halts (rest : list ascii) : Prop :=
  match rest with
  | [] => True
  | c :: _ => digit_value 10 c = None
  end.

(** The text does not go on with the [x] of a [0x] prefix. *)
Definition no_x (rest : list ascii) : Prop :=
  match rest with
  | [] => True
  | c :: _ => Ascii.eqb c "x" = false /\ Ascii.eqb c "X" = false
  end.

Definition sign_text (neg : bool) : list ascii :=
  if neg then ["-"%char] else [].

(** The point and the digits after it, when there are any. *)
Definition fraction_text (fp : list Z) : list ascii :=
  match fp with
  | [] => []
  | _ => "."%char :: map digit_char fp
  end.

(** Nothing, or the exponent part of a printed number. *)
Definition exponent_text (tail : list ascii) : Prop :=
  tail = [] \/ exists n, tail = exponent_part n.

(** The same on a string: it is empty or starts with no decimal digit. *)
Definition no_digit_first (rest : string) : Prop :=
  match rest with
  | EmptyString => True
  | String c _ => digit_value 10 c = None
  end.

(** The four yearly columns and the fields they fill. *)
Definition yearColumns : list (string * (InsertSalesData -> Z)) :=
  [("2022", sales2022); ("2023", sales2023); ("2024", sales2024); ("2025", sales2025)].

(** The headers the upload route reads. *)
Definition columns : list string :=
  ["State"; "state"; "City"; "city"; "Latitude"; "latitude";
   "Longitude"; "longitude"; "2022"; "2023"; "2024"; "2025"; "Total"; "total"].

(** The headers read in two spellings, the capitalised one first. *)
Definition headerPairs : list (string * string) :=
  [("State", "state"); ("City", "city"); ("Latitude", "latitude");
   ("Longitude", "longitude"); ("Total", "total")].

Definition coordinateColumns : list string :=
  ["Latitude"; "latitude"; "Longitude"; "longitude"].

(** An environment variable that is not set, or set to the empty text. *)
Definition unset (o : option string) : Prop := o = None \/ o = Some "".

(** The key of the geocoding proxy: the first of the three variables
    that is set. *)
Definition proxyKey (env : Env) (key : string) : Prop :=
  key <> ""
  /\ (GOOGLE_MAP_API env = Some key
      \/ (unset (GOOGLE_MAP_API env) /\ GOOGLE_GEOCODING_API env = Some key)
      \/ (unset (GOOGLE_MAP_API env) /\ unset (GOOGLE_GEOCODING_API env)
          /\ VITE_GOOGLE_MAPS_API_KEY env = Some key)).

(** The magnitudes of the 2024 sales added up: below 2^53, no sum of
    some of them is rounded. *)
Definition magnitude2024 (data : list SalesData) : Z :=
  fold_right (fun (item : SalesData) acc => Z.abs (sales2024 item) + acc) 0 data.

(** A market with a positive total, the markets [activeMarkets] counts. *)
Definition isActive (item : SalesData) : bool := 0 <? total item.

(** The requests that reach a write of the store: a clear, and an
    upload that the middleware lets through, whose workbook is read and
    whose first sheet has an accepted row. *)
Definition writes (env : Env) (req : Request) : Prop :=
  req = PostClearSalesData
  \/ exists file sheets,
       req = PostUploadExcel (Some file)
       /\ In (mimetype file) allowedTypes /\ size file <= fileSize
       /\ buffer file = Workbook sheets
       /\ omap (normalizeRow env) (hd [] sheets) <> [].

(** The record comes from a row of the first sheet of a file that one
    of the requests uploaded and the middleware let through. *)
Definition uploaded_by (env : Env) (reqs : list Request) (item : SalesData) : Prop :=
  exists file sheets row,
    In (PostUploadExcel (Some file)) reqs
    /\ In (mimetype file) allowedTypes /\ size file <= fileSize
    /\ buffer file = Workbook sheets
    /\ In row (hd [] sheets)
    /\ normalizeRow env row = Some (fields item).

(** Sales of 100.5 in 2022. *)
Definition fractional : Row := <["2022" := Num (Finite 1005 (-1))]> bengaluru.

(** Sales of 2022 typed with a thousands separator. *)
Definition grouped : Row := <["2022" := Str "1,200"]> bengaluru.

(** Sales of 2.5 * 10^21 in 2022. *)
Definition huge : Row := <["2022" := Num (Finite 25 20)]> bengaluru.




Definition with_region : Row := <["Region" := Str "South"]> bengaluru.
Definition both_spellings : Row := <["state" := Str "Kerala"]> bengaluru.
Definition elsewhere : Row := <["Latitude" := Num (Finite 10 0)]> bengaluru.

(** Only the browser key is configured, and the service echoes the
    request. *)
Definition browser_key_only : Env :=
  {| GOOGLE_MAP_API := None; GOOGLE_GEOCODING_API := Some "";
     VITE_GOOGLE_MAPS_API_KEY := Some "vite-key";
     fetchGeocode := fun _ _ => Throws;
     fetchJson := fun key address => Some (key +:+ "?" +:+ address) |}.

(** A key is configured and the service places every address at the
    same point. *)
Definition geocoding (lat lng : value) : Env :=
  {| GOOGLE_MAP_API := Some "key"; GOOGLE_GEOCODING_API := None;
     VITE_GOOGLE_MAPS_API_KEY := None;
     fetchGeocode := fun _ _ => GeocodeData "OK" [(lat, lng)];
     fetchJson := fun _ _ => None |}.

(** * Properties *)

(** ** Printing and reading integers *)

Section Digits.

Ltac each_digit d :=
  let Hd := fresh in
  assert (Hd : d = 0 \/ d = 1 \/ d = 2 \/ d = 3 \/ d = 4 \/ d = 5 \/ d = 6
               \/ d = 7 \/ d = 8 \/ d = 9) by (unfold is_digit in *; lia);
  repeat (destruct Hd as [-> | Hd]); try subst d.

Lemma digit_value_digit_char d :
  is_digit d -> digit_value 10 (digit_char d) = Some d.
Proof. intros Hd. each_digit d; reflexivity. Qed.

Lemma digit_char_plain d :
  is_digit d ->
  is_whitespace (digit_char d) = false
  /\ Ascii.eqb (digit_char d) "-" = false
  /\ Ascii.eqb (digit_char d) "+" = false
  /\ Ascii.eqb (digit_char d) "x" = false
  /\ Ascii.eqb (digit_char d) "X" = false.
Proof. intros Hd. each_digit d; repeat split; reflexivity. Qed.

Lemma value_of_snoc radix ds d :
  value_of radix (ds ++ [d]) = value_of radix ds * radix + d.
Proof. unfold value_of. now rewrite fold_left_app. Qed.

Lemma digits_fuel_spec fuel : forall n acc,
  1 <= n < 2 ^ Z.of_nat fuel ->
  exists ds,
    digits_fuel fuel n acc = map digit_char ds ++ acc
    /\ Forall is_digit ds
    /\ value_of 10 ds = n
    /\ (0 < length ds)%nat
    /\ 10 ^ (Z.of_nat (length ds) - 1) <= n.
Proof.
  induction fuel as [|fuel IH]; intros n acc Hn.
  - simpl in Hn. lia.
  - simpl digits_fuel. destruct (Z.ltb_spec n 10) as [Hlt | Hge].
    + exists [n]. repeat split; simpl; try lia.
      repeat constructor; lia.
    + assert (Hq : 1 <= n / 10 < 2 ^ Z.of_nat fuel).
      { split.
        - apply Z.div_le_lower_bound; lia.
        - apply Z.div_lt_upper_bound; [lia|].
          rewrite Nat2Z.inj_succ, Z.pow_succ_r in Hn by lia. lia. }
      destruct (IH (n / 10) (digit_char (n mod 10) :: acc) Hq)
        as (ds & Heq & Hds & Hval & Hlen & Hlow).
      exists (ds ++ [n mod 10]). repeat split.
      * rewrite Heq, map_app, <- app_assoc. reflexivity.
      * apply Forall_app. split; [exact Hds|].
        constructor; [|constructor]. unfold is_digit.
        apply Z.mod_pos_bound. lia.
      * rewrite value_of_snoc, Hval.
        pose proof (Z.div_mod n 10). lia.
      * rewrite length_app. simpl. lia.
      * rewrite length_app. simpl length.
        replace (Z.of_nat (length ds + 1) - 1)
          with (Z.succ (Z.of_nat (length ds) - 1)) by lia.
        rewrite Z.pow_succ_r by lia.
        pose proof (Z.div_mod n 10).
        pose proof (Z.mod_pos_bound n 10). lia.
Qed.

Lemma digits_spec n :
  1 <= n ->
  exists ds,
    digits n = map digit_char ds
    /\ Forall is_digit ds
    /\ value_of 10 ds = n
    /\ (0 < length ds)%nat
    /\ 10 ^ (Z.of_nat (length ds) - 1) <= n.
Proof.
  intros Hn. unfold digits.
  destruct (digits_fuel_spec (S (Z.to_nat (Z.log2 n))) n []) as (ds & Heq & H).
  - pose proof (Z.log2_spec n). pose proof (Z.log2_nonneg n).
    rewrite Nat2Z.inj_succ, Z2Nat.id by lia. lia.
  - exists ds. rewrite Heq, app_nil_r. auto.
Qed.

Lemma span_digits_all ds :
  Forall is_digit ds -> span_digits 10 (map digit_char ds) = (ds, []).
Proof.
  induction 1 as [|d ds Hd _ IH]; simpl; [reflexivity|].
  now rewrite digit_value_digit_char, IH.
Qed.

Lemma strip_leading_zeros_split l :
  exists j, l = repeat zero_char j ++ strip_leading_zeros l.
Proof.
  induction l as [|c l [j IH]]; simpl.
  - now exists O.
  - destruct (Ascii.eqb_spec c zero_char) as [-> | _].
    + exists (S j). simpl. now rewrite <- IH.
    + now exists O.
Qed.

Lemma rev_repeat_zero j : rev (repeat zero_char j) = repeat zero_char j.
Proof.
  induction j as [|j IH]; simpl; [reflexivity|].
  rewrite IH. symmetry. apply repeat_cons.
Qed.

Lemma strip_trailing_zeros_split l :
  exists j, l = strip_trailing_zeros l ++ repeat zero_char j.
Proof.
  destruct (strip_leading_zeros_split (rev l)) as [j Hj].
  exists j. unfold strip_trailing_zeros.
  rewrite <- (rev_involutive l) at 1.
  rewrite Hj at 1. now rewrite rev_app_distr, rev_repeat_zero.
Qed.

(** Below 10^21 an integer prints as its plain digits. *)
Lemma unsigned_to_string_int n :
  1 <= n < 10 ^ 21 -> unsigned_to_string n 0 = digits n.
Proof.
  intros Hn. unfold unsigned_to_string.
  destruct (digits_spec n) as (ds & Heq & _ & _ & _ & Hlow); [lia|].
  destruct (strip_trailing_zeros_split (digits n)) as [j Hj].
  set (s := strip_trailing_zeros (digits n)) in *.
  assert (Hlen : length (digits n) = (length s + j)%nat).
  { rewrite Hj at 1. now rewrite length_app, repeat_length. }
  assert (Hds : Z.of_nat (length (digits n)) <= 21).
  { rewrite Heq, length_map.
    destruct (Z.le_gt_cases (Z.of_nat (length ds)) 21) as [|Hgt]; [assumption|].
    assert (10 ^ 21 <= 10 ^ (Z.of_nat (length ds) - 1))
      by (apply Z.pow_le_mono_r; lia).
    lia. }
  replace ((Z.of_nat (length s) <=? Z.of_nat (length (digits n)) + 0)
           && (Z.of_nat (length (digits n)) + 0 <=? 21)) with true
    by (symmetry; apply andb_true_intro; split; apply Z.leb_le; lia).
  unfold zeros.
  replace (Z.to_nat (Z.of_nat (length (digits n)) + 0 - Z.of_nat (length s)))
    with j by lia.
  now rewrite <- Hj.
Qed.




End Digits.

(** ** Decimal texts: printing a number and reading it back *)

Section Decimal.

Ltac each_digit d :=
  let Hd := fresh in
  assert (Hd : d = 0 \/ d = 1 \/ d = 2 \/ d = 3 \/ d = 4 \/ d = 5 \/ d = 6
               \/ d = 7 \/ d = 8 \/ d = 9) by (unfold is_digit in *; lia);
  repeat (destruct Hd as [-> | Hd]); try subst d.

Lemma value_of_from radix ds : forall acc,
  fold_left (fun acc d => acc * radix + d) ds acc
  = acc * radix ^ Z.of_nat (length ds) + value_of radix ds.
Proof.
  unfold value_of.
  induction ds as [|d ds IH]; intros acc.
  - simpl. rewrite Z.pow_0_r. lia.
  - cbn [fold_left]. rewrite IH, (IH (0 * radix + d)).
    cbn [length]. rewrite Nat2Z.inj_succ, Z.pow_succ_r by lia. lia.
Qed.

Lemma value_of_app ds1 ds2 :
  value_of 10 (ds1 ++ ds2)
  = value_of 10 ds1 * 10 ^ Z.of_nat (length ds2) + value_of 10 ds2.
Proof. unfold value_of at 1. rewrite fold_left_app. apply value_of_from. Qed.

Lemma value_of_cons d ds :
  value_of 10 (d :: ds) = d * 10 ^ Z.of_nat (length ds) + value_of 10 ds.
Proof.
  change (d :: ds) with ([d] ++ ds). rewrite value_of_app.
  unfold value_of at 1. simpl. reflexivity.
Qed.

Lemma value_of_bound ds :
  Forall is_digit ds -> 0 <= value_of 10 ds < 10 ^ Z.of_nat (length ds).
Proof.
  induction 1 as [|d ds Hd _ IH].
  - unfold value_of. simpl. lia.
  - rewrite value_of_cons. cbn [length].
    rewrite Nat2Z.inj_succ, Z.pow_succ_r by lia.
    unfold is_digit in Hd. nia.
Qed.

Lemma value_of_zeros j : value_of 10 (repeat 0 j) = 0.
Proof.
  induction j as [|j IH]; [reflexivity|].
  cbn [repeat]. rewrite value_of_cons, IH. lia.
Qed.

Lemma zero_digits j : Forall is_digit (repeat 0 j).
Proof. induction j; simpl; constructor; [unfold is_digit; lia | assumption]. Qed.

Lemma value_of_pad ds j :
  value_of 10 (ds ++ repeat 0 j) = value_of 10 ds * 10 ^ Z.of_nat j.
Proof. rewrite value_of_app, value_of_zeros, repeat_length. lia. Qed.

Lemma value_of_lead j ds : value_of 10 (repeat 0 j ++ ds) = value_of 10 ds.
Proof. rewrite value_of_app, value_of_zeros. lia. Qed.

Lemma zeros_digits n : zeros n = map digit_char (repeat 0 (Z.to_nat n)).
Proof. unfold zeros. induction (Z.to_nat n) as [|j IH]; simpl; [|rewrite IH]; reflexivity. Qed.

Lemma digit_char_zero d : is_digit d -> digit_char d = zero_char -> d = 0.
Proof. intros Hd. each_digit d; intros E; try reflexivity; discriminate E. Qed.

Lemma map_digit_char_zeros ds j :
  Forall is_digit ds -> map digit_char ds = repeat zero_char j -> ds = repeat 0 j.
Proof.
  intros Hds. revert j. induction Hds as [|d ds Hd _ IH]; intros [|j] E;
    simpl in E; try discriminate E; [reflexivity|].
  injection E as E0 E. simpl. f_equal; [now apply digit_char_zero | now apply IH].
Qed.

(** The digits without their trailing zeros. *)
Lemma strip_trailing_zeros_digits ds :
  Forall is_digit ds ->
  exists ds' j,
    ds = ds' ++ repeat 0 j
    /\ strip_trailing_zeros (map digit_char ds) = map digit_char ds'.
Proof.
  intros Hds.
  destruct (strip_trailing_zeros_split (map digit_char ds)) as [j Hj].
  set (s := strip_trailing_zeros (map digit_char ds)) in *.
  assert (Hlen : length ds = (length s + j)%nat).
  { rewrite <- (length_map digit_char ds), Hj, length_app, repeat_length. reflexivity. }
  exists (firstn (length s) ds), j.
  rewrite <- (firstn_skipn (length s) ds) in Hj at 1.
  rewrite map_app in Hj.
  apply app_inj_1 in Hj as [Hs Hz].
  2:{ rewrite length_map, length_firstn. lia. }
  split; [|now symmetry].
  rewrite <- (firstn_skipn (length s) ds) at 1. f_equal.
  apply map_digit_char_zeros; [|exact Hz].
  rewrite <- (firstn_skipn (length s) ds) in Hds.
  now apply Forall_app in Hds.
Qed.

Lemma digits_nonneg n :
  0 <= n ->
  exists ds,
    digits n = map digit_char ds /\ Forall is_digit ds
    /\ value_of 10 ds = n /\ ds <> [].
Proof.
  intros Hn. destruct (Z.eq_dec n 0) as [-> | Hnz].
  - exists [0]. repeat split; try reflexivity; try discriminate.
    repeat constructor; lia.
  - destruct (digits_spec n) as (ds & Heq & Hds & Hval & Hlen & _); [lia|].
    exists ds. repeat split; try assumption.
    intros ->. simpl in Hlen. lia.
Qed.

(** The five layouts of a positive number, on its digits [ds] without
    the [j] trailing zeros. *)
Lemma unsigned_layout m e :
  1 <= m ->
  exists ds j,
    Forall is_digit ds /\ ds <> []
    /\ m = value_of 10 ds * 10 ^ Z.of_nat j
    /\ 10 ^ (Z.of_nat (length ds) + Z.of_nat j - 1) <= m
    /\ let k := Z.of_nat (length ds) in
       let n := k + Z.of_nat j + e in
       unsigned_to_string m e =
       if (k <=? n) && (n <=? 21) then
         map digit_char (ds ++ repeat 0 (Z.to_nat (n - k)))
       else if (0 <? n) && (n <=? 21) then
         map digit_char (firstn (Z.to_nat n) ds)
         ++ "."%char :: map digit_char (skipn (Z.to_nat n) ds)
       else if (-6 <? n) && (n <=? 0) then
         map digit_char [0]
         ++ "."%char :: map digit_char (repeat 0 (Z.to_nat (- n)) ++ ds)
       else
         match ds with
         | [d] => digit_char d :: exponent_part n
         | d :: ds' =>
             digit_char d :: "."%char :: map digit_char ds' ++ exponent_part n
         | [] => []
         end.
Proof.
  intros Hm.
  destruct (digits_spec m Hm) as (all & Heq & Hall & Hval & Hlen & Hlow).
  destruct (strip_trailing_zeros_digits all Hall) as (ds & j & Hsplit & Hstrip).
  assert (Hds : Forall is_digit ds) by (rewrite Hsplit in Hall; now apply Forall_app in Hall).
  assert (Hv : m = value_of 10 ds * 10 ^ Z.of_nat j)
    by (now rewrite <- Hval, Hsplit, value_of_pad).
  assert (HL : Z.of_nat (length all) = Z.of_nat (length ds) + Z.of_nat j)
    by (rewrite Hsplit, length_app, repeat_length; lia).
  exists ds, j. split; [exact Hds|]. split.
  { intros ->. unfold value_of in Hv. simpl in Hv. lia. }
  split; [exact Hv|]. split; [now rewrite <- HL|].
  intros k n. unfold unsigned_to_string.
  rewrite Heq, Hstrip, !length_map, HL. fold k. fold n.
  rewrite map_app, <- zeros_digits, firstn_map, skipn_map.
  rewrite (map_app digit_char (repeat 0 _)), <- zeros_digits.
  destruct ((k <=? n) && (n <=? 21)); [reflexivity|].
  destruct ((0 <? n) && (n <=? 21)); [reflexivity|].
  destruct ((-6 <? n) && (n <=? 0)); [reflexivity|].
  destruct ds as [|d [|d' ds']]; reflexivity.
Qed.

(** *** Reading a decimal prefix *)

Lemma span_digits_prefix ds rest :
  Forall is_digit ds -> halts rest ->
  span_digits 10 (map digit_char ds ++ rest) = (ds, rest).
Proof.
  intros Hds Hrest. induction Hds as [|d ds Hd _ IH]; simpl.
  - destruct rest as [|c rest]; [reflexivity|].
    simpl in Hrest. simpl. now rewrite Hrest.
  - now rewrite digit_value_digit_char, IH.
Qed.

Lemma trim_start_whitespace ws l :
  forallb is_whitespace ws = true -> trim_start (ws ++ l) = trim_start l.
Proof.
  induction ws as [|c ws IH]; simpl; [reflexivity|].
  intros Hws. apply andb_prop in Hws as [-> Hws]. auto.
Qed.

Lemma digit_first d l :
  is_digit d ->
  trim_start (digit_char d :: l) = digit_char d :: l
  /\ read_sign (digit_char d :: l) = (false, digit_char d :: l)
  /\ starts_with (list_ascii_of_string "Infinity") (digit_char d :: l) = false.
Proof. intros Hd. each_digit d; repeat split; reflexivity. Qed.

Lemma read_radix_decimal ds rest :
  Forall is_digit ds -> ds <> [] -> hd 0 ds <> 0 \/ no_x rest ->
  read_radix (map digit_char ds ++ rest) = (10, map digit_char ds ++ rest).
Proof.
  intros Hds Hne Hx.
  destruct ds as [|d0 ds]; [contradiction|].
  pose proof (Forall_inv Hds) as Hd0.
  destruct ds as [|d1 ds].
  - destruct rest as [|c rest]; [reflexivity|].
    destruct Hx as [Hnz | [Hx HX]].
    + simpl in Hnz. simpl.
      replace (Ascii.eqb (digit_char d0) "0") with false; [reflexivity|].
      symmetry. apply not_true_is_false. intros E.
      apply Ascii.eqb_eq in E. now apply digit_char_zero in E.
    + simpl. rewrite Hx, HX. now rewrite andb_false_r.
  - pose proof (Forall_inv (Forall_inv_tail Hds)) as Hd1.
    destruct (digit_char_plain d1 Hd1) as (_ & _ & _ & Hx1 & HX1).
    simpl. rewrite Hx1, HX1. now rewrite andb_false_r.
Qed.

Lemma read_sign_text neg ds rest :
  Forall is_digit ds -> ds <> [] ->
  read_sign (trim_start (sign_text neg ++ map digit_char ds ++ rest))
  = (neg, map digit_char ds ++ rest).
Proof.
  intros Hds Hne. destruct ds as [|d ds]; [contradiction|].
  destruct (digit_first d (map digit_char ds ++ rest) (Forall_inv Hds))
    as (Htrim & Hsign & _).
  destruct neg; simpl sign_text; cbn [app map].
  - reflexivity.
  - now rewrite Htrim, Hsign.
Qed.

(** [parseInt] reads the decimal integer in front of the text. *)
Lemma parse_int_prefix neg ws ds rest :
  forallb is_whitespace ws = true ->
  Forall is_digit ds -> ds <> [] -> halts rest ->
  hd 0 ds <> 0 \/ no_x rest ->
  parse_int_string
    (string_of_list_ascii (ws ++ sign_text neg ++ map digit_char ds ++ rest))
  = int (signed neg (value_of 10 ds)).
Proof.
  intros Hws Hds Hne Hrest Hx. unfold parse_int_string.
  rewrite list_ascii_of_string_of_list_ascii, trim_start_whitespace by assumption.
  rewrite read_sign_text by assumption. cbv beta iota.
  rewrite read_radix_decimal by assumption. cbv beta iota.
  rewrite span_digits_prefix by assumption. cbn [fst].
  destruct ds; [contradiction | reflexivity].
Qed.

(** *** Whole part of a printed number *)

Lemma pow10_split a b : 0 <= a -> 0 <= b -> 10 ^ (a + b) = 10 ^ a * 10 ^ b.
Proof. intros. now apply Z.pow_add_r. Qed.

Lemma pow10_le a b : a <= b -> 10 ^ a <= 10 ^ b.
Proof. intros. apply Z.pow_le_mono_r; lia. Qed.

Lemma value_of_firstn ds i :
  Forall is_digit ds -> (i <= length ds)%nat ->
  value_of 10 (firstn i ds) = value_of 10 ds / 10 ^ Z.of_nat (length ds - i).
Proof.
  intros Hds Hi.
  rewrite <- (firstn_skipn i ds) in Hds. apply Forall_app in Hds as [_ Hskip].
  apply value_of_bound in Hskip. rewrite length_skipn in Hskip.
  rewrite <- (firstn_skipn i ds) at 2. rewrite value_of_app, length_skipn.
  apply Z.div_unique with (r := value_of 10 (skipn i ds)); lia.
Qed.

(** [10^-6 <= m * 10^e < 10^21] on the digits of [m]. *)
Lemma plain_position m e k j :
  1 <= m -> plain m e -> 1 <= k -> 0 <= j ->
  10 ^ (k + j - 1) <= m < 10 ^ (k + j) ->
  -6 < k + j + e <= 21.
Proof.
  intros Hm [Hlow Hhigh] Hk Hj [Hml Hmh].
  rewrite Z.abs_eq in Hlow, Hhigh by lia.
  split.
  - destruct (Z.lt_ge_cases (-6) (k + j + e)) as [|Hn]; [assumption|exfalso].
    rewrite Z.max_l in Hlow by lia. rewrite Z.max_r in Hlow by lia.
    change (6 + 0) with 6 in Hlow.
    assert (H1 : 10 ^ (k + j) * 10 ^ 6 <= 10 ^ (- e)).
    { rewrite <- pow10_split by lia. apply pow10_le. lia. }
    nia.
  - destruct (Z.le_gt_cases (k + j + e) 21) as [|Hn]; [assumption|exfalso].
    destruct (Z.le_gt_cases 0 e) as [He | He].
    + rewrite Z.max_l in Hhigh by lia. rewrite (Z.max_r (- e)) in Hhigh by lia.
      change (21 + 0) with 21 in Hhigh.
      assert (H1 : 10 ^ 21 <= 10 ^ (k + j - 1) * 10 ^ e).
      { rewrite <- pow10_split by lia. apply pow10_le. lia. }
      pose proof (Z.pow_pos_nonneg 10 e). nia.
    + rewrite Z.max_r in Hhigh by lia. rewrite (Z.max_l (- e)) in Hhigh by lia.
      rewrite Z.pow_0_r in Hhigh.
      assert (H1 : 10 ^ (21 + - e) <= 10 ^ (k + j - 1)) by (apply pow10_le; lia).
      lia.
Qed.

Lemma unsigned_integer_part m e :
  1 <= m -> plain m e ->
  exists ds rest,
    unsigned_to_string m e = map digit_char ds ++ rest
    /\ Forall is_digit ds /\ ds <> [] /\ halts rest /\ no_x rest
    /\ value_of 10 ds = truncate m e.
Proof.
  intros Hm Hplain.
  destruct (unsigned_layout m e Hm) as (ds & j & Hds & Hne & Hv & Hlow & Hstr).
  pose proof (value_of_bound ds Hds) as Hb. cbv zeta in Hstr.
  set (v := value_of 10 ds) in *.
  set (k := Z.of_nat (length ds)) in *.
  set (n := k + Z.of_nat j + e) in *.
  assert (Hk : 1 <= k) by (destruct ds; [contradiction | unfold k; simpl; lia]).
  assert (Hn : -6 < n <= 21).
  { apply (plain_position m e k (Z.of_nat j)); try assumption; try lia.
    split; [assumption|].
    rewrite Hv, pow10_split by lia.
    pose proof (Z.pow_pos_nonneg 10 (Z.of_nat j)). nia. }
  assert (Hquot : e < 0 -> truncate m e = m / 10 ^ (- e)).
  { intros He. unfold truncate.
    destruct (Z.leb_spec 0 e); [lia|].
    apply Z.quot_div_nonneg; [lia | apply Z.pow_pos_nonneg; lia]. }
  destruct (Z.leb_spec k n) as [Hkn | Hkn].
  - (* whole number *)
    replace (n <=? 21) with true in Hstr by (symmetry; apply Z.leb_le; lia).
    cbn [andb] in Hstr.
    exists (ds ++ repeat 0 (Z.to_nat (n - k))), [].
    rewrite app_nil_r. split; [exact Hstr|].
    split. { apply Forall_app. split; [exact Hds | apply zero_digits]. }
    split. { destruct ds; [contradiction | discriminate]. }
    split; [exact I|]. split; [exact I|].
    rewrite value_of_pad, Z2Nat.id by lia. fold v.
    destruct (Z.le_gt_cases 0 e) as [He | He].
    + unfold truncate. destruct (Z.leb_spec 0 e); [|lia].
      rewrite Hv. replace (n - k) with (Z.of_nat j + e) by lia.
      rewrite pow10_split by lia. lia.
    + rewrite (Hquot He), Hv.
      replace (Z.of_nat j) with ((n - k) + - e) by lia.
      rewrite pow10_split, Z.mul_assoc by lia.
      rewrite Z.div_mul; [reflexivity|].
      pose proof (Z.pow_pos_nonneg 10 (- e)). lia.
  - cbn [andb] in Hstr.
    assert (He : e < 0) by lia.
    destruct (Z.ltb_spec 0 n) as [Hpos | Hnonpos].
    + (* a point inside the digits *)
      replace (n <=? 21) with true in Hstr by (symmetry; apply Z.leb_le; lia).
      cbn [andb] in Hstr.
      exists (firstn (Z.to_nat n) ds), ("."%char :: map digit_char (skipn (Z.to_nat n) ds)).
      split; [exact Hstr|].
      split. { rewrite <- (firstn_skipn (Z.to_nat n) ds) in Hds.
               now apply Forall_app in Hds. }
      split. { intros E. apply (f_equal (@length Z)) in E.
               rewrite length_firstn in E. simpl in E. lia. }
      split; [reflexivity|]. split; [split; reflexivity|].
      rewrite value_of_firstn by (assumption || lia). fold v.
      rewrite (Hquot He), Hv.
      replace (Z.of_nat (length ds - Z.to_nat n)) with (k - n) by lia.
      replace (- e) with ((k - n) + Z.of_nat j) by lia.
      rewrite pow10_split by lia.
      rewrite Z.div_mul_cancel_r; [reflexivity| |].
      * pose proof (Z.pow_pos_nonneg 10 (k - n)). lia.
      * pose proof (Z.pow_pos_nonneg 10 (Z.of_nat j)). lia.
    + (* a fraction below one *)
      cbn [andb] in Hstr.
      replace ((-6 <? n) && (n <=? 0)) with true in Hstr
        by (symmetry; apply andb_true_intro; split;
            [apply Z.ltb_lt | apply Z.leb_le]; lia).
      exists [0], ("."%char :: map digit_char (repeat 0 (Z.to_nat (- n)) ++ ds)).
      split; [exact Hstr|].
      split; [repeat constructor; lia|]. split; [discriminate|].
      split; [reflexivity|]. split; [split; reflexivity|].
      rewrite (Hquot He). symmetry. apply Z.div_small.
      split; [lia|].
      assert (10 ^ (k + Z.of_nat j) <= 10 ^ (- e)) by (apply pow10_le; lia).
      rewrite pow10_split in * by lia.
      pose proof (Z.pow_pos_nonneg 10 (Z.of_nat j)). nia.
Qed.

Lemma plain_opp m e : plain (- m) e <-> plain m e.
Proof. unfold plain. now rewrite Z.abs_opp. Qed.

Lemma plain_nonzero m e : plain m e -> m <> 0.
Proof.
  intros [Hlow _] ->. simpl in Hlow.
  assert (0 < 10 ^ Z.max (- e) 0) by (apply Z.pow_pos_nonneg; lia). lia.
Qed.

Lemma truncate_opp m e : truncate (- m) e = - truncate m e.
Proof.
  unfold truncate. destruct (Z.leb_spec 0 e); [lia|]. apply Z.quot_opp_l.
  assert (0 < 10 ^ (- e)) by (apply Z.pow_pos_nonneg; lia). lia.
Qed.

(** A number printed without an exponent is read by [parseInt] as its
    whole part. *)
Lemma parseInt_truncates m e :
  plain m e -> parseInt (Num (Finite m e)) = int (truncate m e).
Proof.
  intros Hplain. pose proof (plain_nonzero m e Hplain) as Hnz.
  unfold parseInt, to_string, number_to_string.
  destruct (Z.eqb_spec m 0) as [|_]; [contradiction|].
  destruct (Z.ltb_spec m 0) as [Hneg | Hpos].
  - destruct (unsigned_integer_part (- m) e) as (ds & rest & -> & Hds & Hne & Hh & Hx & Hval);
      [lia | now apply plain_opp |].
    pose proof (parse_int_prefix true [] ds rest eq_refl Hds Hne Hh (or_intror Hx)) as Hp.
    cbn [app sign_text signed] in Hp.
    rewrite Hp, Hval, truncate_opp. f_equal. lia.
  - destruct (unsigned_integer_part m e) as (ds & rest & -> & Hds & Hne & Hh & Hx & Hval);
      [lia | assumption |].
    pose proof (parse_int_prefix false [] ds rest eq_refl Hds Hne Hh (or_intror Hx)) as Hp.
    cbn [app sign_text signed] in Hp.
    now rewrite Hp, Hval.
Qed.

(** *** Reading a printed number back *)

Lemma read_exponent_part n : read_exponent (exponent_part n) = n - 1.
Proof.
  unfold exponent_part, read_exponent.
  change (Ascii.eqb "e" "e" || Ascii.eqb "e" "E") with true. cbv iota.
  destruct (digits_nonneg (Z.abs (n - 1))) as (ds & -> & Hds & Hval & Hne); [lia|].
  destruct (Z.leb_spec 0 (n - 1)).
  - change (read_sign ("+"%char :: map digit_char ds)) with (false, map digit_char ds).
    cbv beta iota. rewrite span_digits_all by assumption. cbn [fst].
    destruct ds; [contradiction|]. cbn [signed]. lia.
  - change (read_sign ("-"%char :: map digit_char ds)) with (true, map digit_char ds).
    cbv beta iota. rewrite span_digits_all by assumption. cbn [fst].
    destruct ds; [contradiction|]. cbn [signed]. lia.
Qed.

Lemma exponent_text_halts tail : exponent_text tail -> halts tail.
Proof. intros [-> | [n ->]]; reflexivity. Qed.

(** [parseFloat] on a decimal literal: whole part, fraction, exponent. *)
Lemma parse_float_shape neg ip fp tail :
  Forall is_digit ip -> ip <> [] -> Forall is_digit fp -> exponent_text tail ->
  parse_float_string
    (string_of_list_ascii
       (sign_text neg ++ map digit_char ip ++ fraction_text fp ++ tail))
  = Finite (signed neg (value_of 10 (ip ++ fp)))
           (read_exponent tail - Z.of_nat (length fp)).
Proof.
  intros Hip Hne Hfp Htail. unfold parse_float_string.
  rewrite list_ascii_of_string_of_list_ascii.
  rewrite read_sign_text by assumption. cbv beta iota.
  pose proof (exponent_text_halts tail Htail) as Hhalt.
  assert (Hinf : starts_with (list_ascii_of_string "Infinity")
                   (map digit_char ip ++ fraction_text fp ++ tail) = false).
  { destruct ip as [|d ip]; [contradiction|].
    apply (digit_first d _ (Forall_inv Hip)). }
  rewrite Hinf.
  rewrite span_digits_prefix; [|assumption|].
  2:{ destruct fp; [exact Hhalt | reflexivity]. }
  cbv beta iota.
  destruct fp as [|f fp].
  - cbn [fraction_text app length]. rewrite app_nil_r.
    assert (Hl1 : match tail with
                  | c :: l1' =>
                      if Ascii.eqb c "." then
                        let '(fp, l2) := span_digits 10 l1' in
                        match ip, fp with
                        | [], [] => ([], tail)
                        | _, _ => (fp, l2)
                        end
                      else ([], tail)
                  | [] => ([], tail)
                  end = (@nil Z, tail)).
    { destruct Htail as [-> | [n ->]]; reflexivity. }
    rewrite Hl1. cbv beta iota. rewrite !app_nil_r.
    destruct ip; [contradiction|]. reflexivity.
  - cbn [fraction_text app].
    change (Ascii.eqb "." ".") with true. cbv iota.
    change (digit_char f :: map digit_char fp) with (map digit_char (f :: fp)).
    rewrite span_digits_prefix by assumption.
    destruct ip as [|i ip]; [contradiction|]. reflexivity.
Qed.

Lemma signed_mul s v c : signed s (v * c) = signed s v * c.
Proof. destruct s; simpl; lia. Qed.

Lemma same_scaled s v j e :
  0 <= j ->
  same_number (Finite (signed s v) (e + j)) (Finite (signed s (v * 10 ^ j)) e).
Proof.
  intros Hj. unfold same_number.
  rewrite Z.min_r by lia. rewrite signed_mul.
  replace (e + j - e) with j by lia. rewrite Z.sub_diag, Z.pow_0_r. lia.
Qed.

Lemma same_whole s v i j e :
  i = j + e -> 0 <= i -> 0 <= j ->
  same_number (Finite (signed s (v * 10 ^ i)) 0) (Finite (signed s (v * 10 ^ j)) e).
Proof.
  intros -> Hi Hj. unfold same_number. rewrite !signed_mul.
  destruct (Z.le_gt_cases 0 e).
  - rewrite Z.min_l by lia. rewrite !Z.sub_0_r, Z.pow_0_r, pow10_split by lia. lia.
  - rewrite Z.min_r by lia. rewrite Z.sub_diag, Z.pow_0_r.
    replace j with ((j + e) + (0 - e)) at 2 by lia.
    rewrite (pow10_split (j + e) (0 - e)) by lia. lia.
Qed.

(** What [parseFloat] reads from the text of a number is that number. *)
Lemma parse_float_unsigned neg m e :
  1 <= m ->
  same_number
    (parse_float_string
       (string_of_list_ascii (sign_text neg ++ unsigned_to_string m e)))
    (Finite (signed neg m) e).
Proof.
  intros Hm.
  destruct (unsigned_layout m e Hm) as (ds & j & Hds & Hne & Hv & Hlow & Hstr).
  cbv zeta in Hstr.
  set (v := value_of 10 ds) in *.
  set (k := Z.of_nat (length ds)) in *.
  set (n := k + Z.of_nat j + e) in *.
  assert (Hk : 1 <= k) by (destruct ds; [contradiction | unfold k; simpl; lia]).
  assert (Hshape : forall ip fp tail,
             Forall is_digit ip -> ip <> [] -> Forall is_digit fp ->
             exponent_text tail ->
             unsigned_to_string m e = map digit_char ip ++ fraction_text fp ++ tail ->
             value_of 10 (ip ++ fp) = v ->
             read_exponent tail - Z.of_nat (length fp) = e + Z.of_nat j ->
             same_number
               (parse_float_string
                  (string_of_list_ascii (sign_text neg ++ unsigned_to_string m e)))
               (Finite (signed neg m) e)).
  { intros ip fp tail Hip Hipne Hfp Htail -> Hval Hexp.
    rewrite parse_float_shape, Hval, Hexp, Hv by assumption.
    apply same_scaled. lia. }
  assert (Hexp : unsigned_to_string m e
                 = match ds with
                   | [d] => digit_char d :: exponent_part n
                   | d :: ds' =>
                       digit_char d :: "."%char :: map digit_char ds' ++ exponent_part n
                   | [] => []
                   end ->
                 same_number
                   (parse_float_string
                      (string_of_list_ascii (sign_text neg ++ unsigned_to_string m e)))
                   (Finite (signed neg m) e)).
  { intros Hstr'. destruct ds as [|d [|d' ds']]; [contradiction| |].
    - apply (Hshape [d] [] (exponent_part n)); try assumption.
      + constructor.
      + right. now exists n.
      + reflexivity.
      + rewrite read_exponent_part. unfold n, k. simpl length. lia.
    - apply (Hshape [d] (d' :: ds') (exponent_part n)).
      + constructor; [exact (Forall_inv Hds) | constructor].
      + discriminate.
      + exact (Forall_inv_tail Hds).
      + right. now exists n.
      + exact Hstr'.
      + reflexivity.
      + rewrite read_exponent_part. unfold n, k. cbn [length].
        rewrite !Nat2Z.inj_succ. lia. }
  destruct (Z.leb_spec n 21) as [Hn21 | Hn21].
  2:{ (* 10^21 and more *)
      apply Hexp. rewrite Hstr, !andb_false_r.
      replace (n <=? 0) with false by (symmetry; apply Z.leb_gt; lia).
      now rewrite andb_false_r. }
  rewrite !andb_true_r in Hstr.
  destruct (Z.leb_spec k n) as [Hkn | Hkn].
  - (* whole number *)
    rewrite Hstr.
    pose proof (parse_float_shape neg (ds ++ repeat 0 (Z.to_nat (n - k))) [] []) as Hp.
    cbn [fraction_text app length] in Hp. rewrite !app_nil_r in Hp.
    rewrite Hp; [| |destruct ds; [contradiction | discriminate]|constructor|now left].
    2:{ apply Forall_app. split; [exact Hds | apply zero_digits]. }
    rewrite value_of_pad, Z2Nat.id, Hv by lia. fold v.
    change (read_exponent [] - Z.of_nat 0) with 0.
    apply same_whole; lia.
  - destruct (Z.ltb_spec 0 n) as [Hpos | Hnonpos].
    + (* a point inside the digits *)
      assert (Hfp : skipn (Z.to_nat n) ds <> []).
      { intros E. apply (f_equal (@length Z)) in E.
        rewrite length_skipn in E. simpl in E. lia. }
      apply (Hshape (firstn (Z.to_nat n) ds) (skipn (Z.to_nat n) ds) []).
      * rewrite <- (firstn_skipn (Z.to_nat n) ds) in Hds.
        now apply Forall_app in Hds.
      * intros E. apply (f_equal (@length Z)) in E.
        rewrite length_firstn in E. simpl in E. lia.
      * rewrite <- (firstn_skipn (Z.to_nat n) ds) in Hds.
        now apply Forall_app in Hds.
      * now left.
      * rewrite Hstr, app_nil_r. unfold fraction_text.
        destruct (skipn (Z.to_nat n) ds); [contradiction | reflexivity].
      * now rewrite firstn_skipn.
      * rewrite length_skipn. change (read_exponent []) with 0. lia.
    + destruct (Z.ltb_spec (-6) n) as [Hn6 | Hn6].
      * (* a fraction below one *)
        replace (n <=? 0) with true in Hstr by (symmetry; apply Z.leb_le; lia).
        cbn [andb] in Hstr.
        apply (Hshape [0] (repeat 0 (Z.to_nat (- n)) ++ ds) []).
        -- repeat constructor; lia.
        -- discriminate.
        -- apply Forall_app. split; [apply zero_digits | exact Hds].
        -- now left.
        -- rewrite Hstr, app_nil_r. unfold fraction_text.
           destruct (repeat 0 (Z.to_nat (- n)) ++ ds) eqn:E; [|reflexivity].
           apply app_eq_nil in E as [_ ->]. contradiction.
        -- change ([0] ++ repeat 0 (Z.to_nat (- n)) ++ ds)
             with (repeat 0 (S (Z.to_nat (- n))) ++ ds).
           apply value_of_lead.
        -- rewrite length_app, repeat_length. change (read_exponent []) with 0. lia.
      * (* below 10^-6 *)
        apply Hexp. exact Hstr.
Qed.

(** [parseFloat(String(x))] is [x]. *)
Lemma parseFloat_number x : same_number (parseFloat (Num x)) x.
Proof.
  destruct x as [|[]|m e]; try exact I; try reflexivity.
  unfold parseFloat, to_string, number_to_string.
  destruct (Z.eqb_spec m 0) as [-> | Hnz]; [reflexivity|].
  destruct (Z.ltb_spec m 0) as [Hneg | Hpos].
  - pose proof (parse_float_unsigned true (- m) e) as Hp.
    cbn [sign_text app signed] in Hp. rewrite Z.opp_involutive in Hp.
    apply Hp. lia.
  - apply (parse_float_unsigned false m e). lia.
Qed.

End Decimal.

(** ** The in-memory store is a Record Store *)

Lemma assign_ids_fields next xs : map fields (assign_ids next xs) = xs.
Proof.
  revert next. induction xs as [|x xs IH]; intros next; simpl; [reflexivity|].
  now rewrite IH.
Qed.

#[export] Instance MemStorage_IStorage : IStorage MemStorage := {|
  getAllSalesData := mem_getAll;
  clearSalesData := mem_clear;
  createMultipleSalesData := mem_createMultiple;
  getAll_clear := fun _ => eq_refl;
  createMultiple_fields := fun xs st => assign_ids_fields (currentId st) xs;
  getAll_createMultiple := fun _ _ => eq_refl
|}.

(** ** Values read from a row *)

Section Cells.

Lemma parse_int_string_cases s :
  parse_int_string s = NaN \/ exists z, parse_int_string s = int z.
Proof.
  unfold parse_int_string.
  destruct (read_sign _) as [neg l].
  destruct (read_radix l) as [radix l'].
  destruct (fst (span_digits radix l')); eauto.
Qed.

Lemma parseInt_cases v : parseInt v = NaN \/ exists z, parseInt v = int z.
Proof. apply parse_int_string_cases. Qed.

Lemma to_integer_int z : to_integer (int z) = Some z.
Proof. unfold to_integer, int. simpl. rewrite Z.pow_0_r. f_equal. lia. Qed.

Lemma add_int a b : add (int a) (int b) = int (a + b).
Proof.
  unfold add, int. change (Z.min 0 0) with 0. change (0 - 0) with 0.
  rewrite Z.pow_0_r. f_equal. lia.
Qed.

Lemma truthy_int z : truthy (Num (int z)) = negb (z =? 0).
Proof. reflexivity. Qed.

Lemma or_falsy a b : truthy a = false -> or a b = b.
Proof. unfold or. now intros ->. Qed.

Lemma or_truthy a b : truthy a = true -> or a b = a.
Proof. unfold or. now intros ->. Qed.


Lemma either_falsy (rowData : Row) key1 key2 d :
  truthy (get rowData key1) = false -> truthy (get rowData key2) = false ->
  either rowData key1 key2 d = Str d.
Proof. intros H1 H2. unfold either. now rewrite (or_falsy _ _ H1), (or_falsy _ _ H2). Qed.

Lemma either_first (rowData : Row) key1 key2 d :
  truthy (get rowData key1) = true -> either rowData key1 key2 d = get rowData key1.
Proof.
  intros H1. unfold either. rewrite (or_truthy _ _ H1). now apply or_truthy.
Qed.



Lemma get_delete_ne (rowData : Row) key key' :
  key <> key' -> get (delete key rowData) key' = get rowData key'.
Proof. intros Hne. unfold get. now rewrite lookup_delete_ne. Qed.


End Cells.

(** ** The schema validation *)

Section Schema.

Lemma as_text_Some v s : as_text v = Some s <-> v = Str s.
Proof. destruct v; simpl; split; intros E; congruence. Qed.

Lemma as_number_Some v x : as_number v = Some x <-> v = Num x /\ x <> NaN.
Proof.
  destruct v as [| | |[]|]; simpl; split; try intros [E N]; try intros E;
    try congruence; try (injection E as <-; split; [reflexivity | discriminate]).
Qed.

Lemma to_integer_parseInt v z :
  to_integer (parseInt v) = Some z <-> parseInt v = int z.
Proof.
  split.
  - destruct (parseInt_cases v) as [-> | [z' ->]]; [discriminate|].
    rewrite to_integer_int. congruence.
  - intros ->. apply to_integer_int.
Qed.

Lemma schema_parse_Some c r :
  insertSalesDataSchema_parse c = Some r <->
  c_state c = Str (state r) /\ c_city c = Str (city r)
  /\ (c_latitude c = Num (latitude r) /\ latitude r <> NaN)
  /\ (c_longitude c = Num (longitude r) /\ longitude r <> NaN)
  /\ to_integer (c_sales2022 c) = Some (sales2022 r)
  /\ to_integer (c_sales2023 c) = Some (sales2023 r)
  /\ to_integer (c_sales2024 c) = Some (sales2024 r)
  /\ to_integer (c_sales2025 c) = Some (sales2025 r)
  /\ to_integer (c_total c) = Some (total r).
Proof.
  unfold insertSalesDataSchema_parse.
  rewrite <- !as_text_Some, <- !as_number_Some.
  split.
  - intros Hr.
    repeat (apply bind_Some in Hr as (? & ? & Hr)).
    injection Hr as <-. simpl. tauto.
  - intros (-> & -> & -> & -> & -> & -> & -> & -> & ->). simpl.
    now destruct r.
Qed.

End Schema.

(** ** The row normaliser *)

Section Normalizer.

Variable env : Env.

(** The total the route stores, given what [parseInt] made of the cell. *)
Lemma stored_total supplied (a z : Z) :
  (supplied = NaN \/ exists t, supplied = int t) ->
  to_integer (if truthy (Num supplied) then supplied else int a) = Some z <->
  (if truthy (Num supplied) then supplied else int a) = int z.
Proof.
  intros [-> | [t ->]]; [|rewrite truthy_int; destruct (t =? 0)];
    cbn [truthy negb]; rewrite to_integer_int; unfold int; split; congruence.
Qed.

(** What line 114 and the validation ask of a row, field by field. *)
Lemma normalizeRow_Some rowData r :
  normalizeRow env rowData = Some r <->
  either rowData "State" "state" "" = Str (state r)
  /\ state r <> ""
  /\ either rowData "City" "city" "" = Str (city r)
  /\ city r <> ""
  /\ resolveCoordinates env rowData (Str (state r)) (Str (city r))
     = (Num (latitude r), Num (longitude r))
  /\ (latitude r <> NaN /\ is_zero (latitude r) = false)
  /\ (longitude r <> NaN /\ is_zero (longitude r) = false)
  /\ parseInt (cell_or rowData "2022" "0") = int (sales2022 r)
  /\ parseInt (cell_or rowData "2023" "0") = int (sales2023 r)
  /\ parseInt (cell_or rowData "2024" "0") = int (sales2024 r)
  /\ parseInt (cell_or rowData "2025" "0") = int (sales2025 r)
  /\ (let supplied := parseInt (either rowData "Total" "total" "0") in
      if truthy (Num supplied) then supplied
      else int (sales2022 r + sales2023 r + sales2024 r + sales2025 r))
     = int (total r).
Proof.
  unfold normalizeRow, buildCandidate. split.
  - intros H. apply bind_Some in H as (c & Hc & Hr).
    destruct (resolveCoordinates _ _ _ _) as [la lo] eqn:Hco.
    destruct (negb _ || _ || _ || _) eqn:Hg; [discriminate|].
    injection Hc as <-.
    apply schema_parse_Some in Hr.
    cbn [c_state c_city c_latitude c_longitude
         c_sales2022 c_sales2023 c_sales2024 c_sales2025 c_total] in Hr.
    destruct Hr as (Hst & Hci & [Hla ?] & [Hlo ?] & H22 & H23 & H24 & H25 & Ht).
    apply to_integer_parseInt in H22, H23, H24, H25.
    repeat (apply orb_false_elim in Hg as [Hg ?]).
    rewrite Hst, Hci in *. subst la lo.
    rewrite H22, H23, H24, H25, !add_int in Ht.
    apply stored_total in Ht; [|apply parseInt_cases].
    repeat split; try assumption.
    + intros E. rewrite E in Hg. discriminate.
    + intros E. rewrite E in *. discriminate.
  - intros (Hst & Hs & Hci & Hc & Hco & [? Hla] & [? Hlo]
            & H22 & H23 & H24 & H25 & Ht).
    rewrite Hst, Hci, Hco. cbn [truthy strict_eq_zero].
    rewrite Hla, Hlo.
    destruct (String.eqb_spec (state r) ""); [contradiction|].
    destruct (String.eqb_spec (city r) ""); [contradiction|].
    cbn [negb orb mbind option_bind]. apply schema_parse_Some.
    cbn [c_state c_city c_latitude c_longitude
         c_sales2022 c_sales2023 c_sales2024 c_sales2025 c_total].
    rewrite H22, H23, H24, H25, !add_int, !to_integer_int.
    repeat split; try assumption; try reflexivity.
    apply stored_total; [apply parseInt_cases | exact Ht].
Qed.


Lemma either_delete (rowData : Row) key key1 key2 d :
  key <> key1 -> key <> key2 ->
  either (delete key rowData) key1 key2 d = either rowData key1 key2 d.
Proof. intros H1 H2. unfold either. now rewrite !get_delete_ne. Qed.

Lemma cell_or_delete_ne (rowData : Row) key key' d :
  key <> key' -> cell_or (delete key rowData) key' d = cell_or rowData key' d.
Proof. intros Hne. unfold cell_or. now rewrite get_delete_ne. Qed.



End Normalizer.

(** ** Acceptance of a row *)

Section Acceptance.

Variable env : Env.

Lemma normalizeRow_guard rowData :
  truthy (either rowData "State" "state" "") = false
  \/ truthy (either rowData "City" "city" "") = false
  \/ (let c := resolveCoordinates env rowData (either rowData "State" "state" "")
                 (either rowData "City" "city" "") in
      strict_eq_zero (fst c) = true \/ strict_eq_zero (snd c) = true) ->
  normalizeRow env rowData = None.
Proof.
  intros Hg. unfold normalizeRow, buildCandidate.
  destruct (resolveCoordinates _ _ _ _) as [la lo]. cbn [fst snd] in Hg.
  replace (negb (truthy (either rowData "State" "state" ""))
           || negb (truthy (either rowData "City" "city" ""))
           || strict_eq_zero la || strict_eq_zero lo) with true; [reflexivity|].
  symmetry. destruct Hg as [-> | [-> | [-> | ->]]]; cbn [negb orb];
    rewrite ?orb_true_r; reflexivity.
Qed.



End Acceptance.

(** ** Properties of the row normaliser *)







(** C7 (as amended).  A row whose state, or whose city, is missing or
    empty under both header casings is rejected whatever its other
    fields hold.  Nothing is trimmed: the test is the truthiness of the
    cell, and an accepted row stores the text of the cell as it is. *)
Theorem C7_missing_state_or_city_rejected (env : Env) (rowData : Row) :
  ((truthy (get rowData "State") = false /\ truthy (get rowData "state") = false)
   \/ (truthy (get rowData "City") = false /\ truthy (get rowData "city") = false) ->
   normalizeRow env rowData = None)
  /\ (forall r, normalizeRow env rowData = Some r ->
       either rowData "State" "state" "" = Str (state r)
       /\ either rowData "City" "city" "" = Str (city r)).
Proof.
  split.
  - intros [[H1 H2] | [H1 H2]]; apply normalizeRow_guard;
      rewrite (either_falsy _ _ _ _ H1 H2); auto.
  - intros r Hr. apply normalizeRow_Some in Hr. tauto.
Qed.

Lemma C7_witness :
  (truthy (get empty_state "State") = false
   /\ truthy (get empty_state "state") = false)
  /\ normalizeRow no_geocoding empty_state = None.
Proof.
  assert (Hmissing : truthy (get empty_state "State") = false
                     /\ truthy (get empty_state "state") = false)
    by (split; reflexivity).
  split; [exact Hmissing|].
  apply (proj1 (C7_missing_state_or_city_rejected no_geocoding empty_state)).
  left. exact Hmissing.
Defined.

(** C7 as stated fails: a state of two spaces is empty after trimming,
    and the row is accepted with it. *)
Lemma C7_counterexample :
  blank "  " = true
  /\ get blank_state "State" = Str "  "
  /\ normalizeRow no_geocoding blank_state
     = Some {| state := "  "; city := "Bengaluru";
               latitude := Finite 1297 (-2); longitude := Finite 7759 (-2);
               sales2022 := 100; sales2023 := 0; sales2024 := 0;
               sales2025 := 150; total := 250 |}.
Proof. repeat split; vm_compute; reflexivity. Qed.

(** C8 (as amended).  When no key is configured, the request throws, or
    the answer is not [OK] or has no result, the coordinates are those
    of the row's own [Latitude]/[Longitude] columns read with
    [parseFloat], a missing, empty or zero cell giving 0.  The function
    is total: no exception leaves it. *)
Theorem C8_geocoding_fallback (env : Env) (rowData : Row) (state city : value) :
  unresolved env state city ->
  resolveCoordinates env rowData state city
  = (Num (parseFloat (either rowData "Latitude" "latitude" "0")),
     Num (parseFloat (either rowData "Longitude" "longitude" "0")))
  /\ (truthy (get rowData "Latitude") = false ->
      truthy (get rowData "latitude") = false ->
      fst (resolveCoordinates env rowData state city) = Num (int 0))
  /\ (truthy (get rowData "Longitude") = false ->
      truthy (get rowData "longitude") = false ->
      snd (resolveCoordinates env rowData state city) = Num (int 0)).
Proof.
  intros Hu.
  assert (He : resolveCoordinates env rowData state city = excelCoordinates rowData).
  { unfold resolveCoordinates.
    destruct (truthy (apiKey env) && truthy state && truthy city) eqn:Hk;
      [|reflexivity].
    destruct Hu as [Hkey | [-> | (status & results & -> & Hs)]].
    - rewrite Hkey in Hk. discriminate.
    - reflexivity.
    - destruct (String.eqb_spec status "OK") as [-> | _]; [|reflexivity].
      destruct Hs as [Hs | ->]; [contradiction | reflexivity]. }
  rewrite He. unfold excelCoordinates. cbn [fst snd].
  split; [reflexivity|].
  split; intros H1 H2; now rewrite (either_falsy _ _ _ _ H1 H2).
Qed.

Lemma C8_witness :
  unresolved zero_results (Str "Karnataka") (Str "Bengaluru")
  /\ resolveCoordinates zero_results no_coordinates (Str "Karnataka") (Str "Bengaluru")
     = (Num (int 0), Num (int 0)).
Proof.
  assert (Hu : unresolved zero_results (Str "Karnataka") (Str "Bengaluru")).
  { right. right. exists "ZERO_RESULTS", []. split; [reflexivity | now right]. }
  split; [exact Hu|].
  exact (proj1 (C8_geocoding_fallback zero_results no_coordinates _ _ Hu)).
Defined.

(** C8 as stated fails in its last part: the unparsable latitude ["abc"]
    is read as NaN, which is not 0 and which line 114 lets through. *)
Lemma C8_counterexample :
  unresolved no_geocoding (Str "Karnataka") (Str "Bengaluru")
  /\ get unparsable_latitude "Latitude" = Str "abc"
  /\ resolveCoordinates no_geocoding unparsable_latitude
       (Str "Karnataka") (Str "Bengaluru")
     = (Num NaN, Num (Finite 7759 (-2)))
  /\ strict_eq_zero (Num NaN) = false.
Proof. split; [left; reflexivity|]. repeat split; vm_compute; reflexivity. Qed.

(** ** The routes and the store *)

Section Store.

Context {S : Type} `{IStorage S}.
Variable env : Env.

(** The loop collects the accepted rows in encounter order. *)
Lemma collectRows_omap rows acc :
  collectRows env rows acc = acc ++ omap (normalizeRow env) rows.
Proof.
  revert acc. induction rows as [|row rows IH]; intros acc; simpl.
  - now rewrite app_nil_r.
  - destruct (normalizeRow env row) as [r|]; rewrite IH; [|reflexivity].
    now rewrite <- app_assoc.
Qed.

Lemma omap_all_rejected rows :
  Forall (fun row => normalizeRow env row = None) rows ->
  omap (normalizeRow env) rows = [].
Proof. induction 1 as [|row rows Hrow _ IH]; simpl; [|rewrite Hrow]; auto. Qed.

Lemma upload_single_passes file :
  In (mimetype file) allowedTypes -> size file <= fileSize ->
  upload_single (Some file) = inr (Some file).
Proof.
  intros Hm Hs. unfold upload_single, fileFilter.
  replace (existsb (String.eqb (mimetype file)) allowedTypes) with true.
  - destruct (Z.ltb_spec fileSize (size file)); [lia | reflexivity].
  - symmetry. apply existsb_exists. exists (mimetype file).
    split; [exact Hm | apply String.eqb_refl].
Qed.

Lemma upload_single_refuses file :
  ~ In (mimetype file) allowedTypes \/ fileSize < size file ->
  upload_single (Some file)
  = inl (if existsb (String.eqb (mimetype file)) allowedTypes
         then "File too large"
         else "Invalid file type. Please upload an Excel file.").
Proof.
  intros Hbad. unfold upload_single, fileFilter.
  destruct (existsb (String.eqb (mimetype file)) allowedTypes) eqn:Hm;
    [|reflexivity].
  destruct Hbad as [Hnot | Hsize].
  - exfalso. apply Hnot. apply existsb_exists in Hm as (t & Ht & Heq).
    apply String.eqb_eq in Heq. now subst t.
  - destruct (Z.ltb_spec fileSize (size file)); [reflexivity | lia].
Qed.

(** A workbook with an accepted row replaces the contents of the store. *)
Lemma uploadExcel_replaces file sheets st :
  buffer file = Workbook sheets ->
  omap (normalizeRow env) (hd [] sheets) <> [] ->
  exists message data st',
    uploadExcel env (Some file) st
    = (Response 200
         (Imported message (length (omap (normalizeRow env) (hd [] sheets))) data),
       st')
    /\ map fields data = omap (normalizeRow env) (hd [] sheets)
    /\ getAllSalesData st' = data.
Proof.
  intros Hbuf Hacc. unfold uploadExcel. rewrite Hbuf, collectRows_omap.
  cbn [app].
  set (accepted := omap (normalizeRow env) (hd [] sheets)) in *.
  replace (length accepted =? 0)%nat with false
    by (destruct accepted; [contradiction | reflexivity]).
  pose proof (createMultiple_fields accepted (clearSalesData st)) as Hfields.
  pose proof (getAll_createMultiple accepted (clearSalesData st)) as Hall.
  destruct (createMultipleSalesData accepted (clearSalesData st))
    as [insertedData st'].
  cbn [fst snd] in Hfields, Hall.
  rewrite getAll_clear in Hall.
  eexists _, insertedData, st'. repeat split; try assumption.
  now rewrite <- Hfields, length_map.
Qed.

Lemma uploadExcel_located file st :
  Forall (fun item : SalesData => located item) (getAllSalesData st) ->
  Forall (fun item : SalesData => located item)
         (getAllSalesData (snd (uploadExcel env file st))).
Proof.
  intros Hst.
  destruct file as [file|]; [|exact Hst].
  destruct (buffer file) as [message | sheets] eqn:Hbuf.
  { unfold uploadExcel. now rewrite Hbuf. }
  destruct (omap (normalizeRow env) (hd [] sheets)) as [|r rs] eqn:Hacc.
  - unfold uploadExcel. rewrite Hbuf, collectRows_omap, Hacc. exact Hst.
  - destruct (uploadExcel_replaces file sheets st Hbuf)
      as (message & data & st' & Hup & Hfields & Hall); [now rewrite Hacc|].
    rewrite Hup. cbn [snd]. rewrite Hall.
    apply List.Forall_forall. intros item Hin.
    assert (Hr : In (fields item) (omap (normalizeRow env) (hd [] sheets)))
      by (rewrite <- Hfields; now apply in_map).
    apply list_elem_of_In, list_elem_of_omap in Hr as (row & _ & Hrow).
    apply normalizeRow_Some in Hrow. unfold located. tauto.
Qed.

Lemma registerRoutes_located req st :
  Forall (fun item : SalesData => located item) (getAllSalesData st) ->
  Forall (fun item : SalesData => located item)
         (getAllSalesData (snd (registerRoutes env req st))).
Proof.
  intros Hst. destruct req as [|part| |address| |]; cbn [registerRoutes].
  - exact Hst.
  - unfold postUploadExcel. destruct (upload_single part); [exact Hst|].
    now apply uploadExcel_located.
  - exact Hst.
  - unfold postGeocode. destruct (negb _); [exact Hst|].
    destruct (fetchJson _ _ _); exact Hst.
  - exact Hst.
  - cbn [postClearSalesData snd]. rewrite getAll_clear. constructor.
Qed.

Lemma run_located reqs : forall st,
  Forall (fun item : SalesData => located item) (getAllSalesData st) ->
  Forall (fun item : SalesData => located item) (getAllSalesData (run env reqs st)).
Proof.
  induction reqs as [|req reqs IH]; intros st Hst; simpl; [exact Hst|].
  apply IH. now apply registerRoutes_located.
Qed.

End Store.

(** ** Properties of the upload route and the store *)

(** C2.  An accepted record has a latitude and a longitude other than
    zero; a row whose resolved latitude or longitude is 0 is rejected;
    and whatever requests the server handles, starting from a store
    whose records all have that property (the empty one, say), every
    stored record has it. *)
Theorem C2_coordinates_nonzero :
  (forall env rowData r, normalizeRow env rowData = Some r -> located r)
  /\ (forall env rowData,
       let coordinates :=
         resolveCoordinates env rowData (either rowData "State" "state" "")
           (either rowData "City" "city" "") in
       strict_eq_zero (fst coordinates) = true
       \/ strict_eq_zero (snd coordinates) = true ->
       normalizeRow env rowData = None)
  /\ (forall (S : Type) (storage : IStorage S) env reqs (st : S),
       Forall (fun item : SalesData => located item) (getAllSalesData st) ->
       Forall (fun item : SalesData => located item)
              (getAllSalesData (run env reqs st))).
Proof.
  split; [|split].
  - intros env rowData r Hr. apply normalizeRow_Some in Hr.
    unfold located. tauto.
  - intros env rowData coordinates Hzero. apply normalizeRow_guard. auto.
  - intros S storage env reqs st. apply run_located.
Qed.

Lemma C2_witness :
  located bengaluru_record
  /\ normalizeRow no_geocoding no_coordinates = None
  /\ Forall (fun item : SalesData => located item)
       (getAllSalesData
          (run no_geocoding
             [PostUploadExcel (Some sales_file); GetAnalytics;
              PostUploadExcel (Some invalid_file)]
             mem_empty)).
Proof.
  destruct C2_coordinates_nonzero as (Haccepted & Hzero & Hstore).
  split; [|split].
  - apply (Haccepted no_geocoding bengaluru). vm_compute. reflexivity.
  - apply (Hzero no_geocoding no_coordinates). left. vm_compute. reflexivity.
  - apply (Hstore MemStorage _ no_geocoding). constructor.
Defined.

(** C3.  When the workbook is read and none of the rows of its first
    sheet is accepted, the route answers 400 with the "No valid data"
    message and the store is the one it was: nothing is cleared. *)
Theorem C3_no_valid_row_leaves_store
    (S : Type) (storage : IStorage S) (env : Env)
    (file : File) (sheets : list (list Row)) (st : S) :
  buffer file = Workbook sheets ->
  Forall (fun row => normalizeRow env row = None) (hd [] sheets) ->
  uploadExcel env (Some file) st
  = (Response 400
       (Message "No valid data found in the Excel file. Please check the format and required columns."),
     st)
  /\ (In (mimetype file) allowedTypes -> size file <= fileSize ->
      postUploadExcel env (Some file) st = uploadExcel env (Some file) st).
Proof.
  intros Hbuf Hnone. split.
  - unfold uploadExcel.
    now rewrite Hbuf, collectRows_omap, omap_all_rejected.
  - intros Hm Hs. unfold postUploadExcel.
    now rewrite upload_single_passes.
Qed.

Lemma C3_witness :
  buffer invalid_file = Workbook [[empty_state; no_coordinates]]
  /\ Forall (fun row => normalizeRow no_geocoding row = None)
            [empty_state; no_coordinates]
  /\ uploadExcel no_geocoding (Some invalid_file) old_store
     = (Response 400
          (Message "No valid data found in the Excel file. Please check the format and required columns."),
        old_store).
Proof.
  assert (Hnone : Forall (fun row => normalizeRow no_geocoding row = None)
                         [empty_state; no_coordinates])
    by (repeat constructor; vm_compute; reflexivity).
  split; [reflexivity|]. split; [exact Hnone|].
  exact (proj1 (C3_no_valid_row_leaves_store MemStorage _ no_geocoding
                  invalid_file _ old_store eq_refl Hnone)).
Defined.

(** C4.  When N > 0 rows of the first sheet are accepted, the route
    answers with count N and the N inserted records, the store then
    holds exactly these records (none of the earlier ones), and
    uploading the same file again leaves the same N records. *)
Theorem C4_upload_replaces_store
    (S : Type) (storage : IStorage S) (env : Env)
    (file : File) (sheets : list (list Row)) (st : S) :
  buffer file = Workbook sheets ->
  let accepted := omap (normalizeRow env) (hd [] sheets) in
  accepted <> [] ->
  exists message data st',
    uploadExcel env (Some file) st
    = (Response 200 (Imported message (length accepted) data), st')
    /\ map fields data = accepted
    /\ getAllSalesData st' = data
    /\ exists message' data' st'',
        uploadExcel env (Some file) st'
        = (Response 200 (Imported message' (length accepted) data'), st'')
        /\ map fields (getAllSalesData st'') = accepted.
Proof.
  intros Hbuf accepted Hacc.
  destruct (uploadExcel_replaces env file sheets st Hbuf Hacc)
    as (message & data & st' & Hup & Hfields & Hall).
  destruct (uploadExcel_replaces env file sheets st' Hbuf Hacc)
    as (message' & data' & st'' & Hup' & Hfields' & Hall').
  exists message, data, st'. repeat split; try assumption.
  exists message', data', st''. split; [assumption|].
  now rewrite Hall'.
Qed.

Lemma C4_witness :
  buffer sales_file = Workbook [[empty_state; bengaluru; no_coordinates]]
  /\ omap (normalizeRow no_geocoding) [empty_state; bengaluru; no_coordinates]
     = [bengaluru_record]
  /\ exists message data st',
      uploadExcel no_geocoding (Some sales_file) old_store
      = (Response 200 (Imported message 1 data), st')
      /\ map fields data = [bengaluru_record]
      /\ getAllSalesData st' = data.
Proof.
  assert (Hacc : omap (normalizeRow no_geocoding)
                      (hd [] [[empty_state; bengaluru; no_coordinates]])
                 = [bengaluru_record]) by (vm_compute; reflexivity).
  split; [reflexivity|]. split; [exact Hacc|].
  destruct (C4_upload_replaces_store MemStorage _ no_geocoding sales_file
              _ old_store eq_refl)
    as (message & data & st' & Hup & Hfields & Hall & _).
  - rewrite Hacc. discriminate.
  - rewrite Hacc in Hup, Hfields. simpl length in Hup. eauto 6.
Defined.

(** ** Binary64 division of integers

    The subtraction of two integers below 2^52 in magnitude is exact,
    their quotient is rounded to within half a unit of its last place,
    and so its comparison with [0.1] or [0.5] is that of the exact
    quotient with 1/10 or 1/2. *)

Module B64Facts.
Import SpecFloat B64.

(** *** Sizes and shifts *)

Lemma digits2_pos_size p : digits2_pos p = Pos.size p.
Proof. induction p; simpl; congruence. Qed.

Lemma size_bounds p : 2 ^ (Z.pos (Pos.size p) - 1) <= Z.pos p < 2 ^ Z.pos (Pos.size p).
Proof.
  induction p as [p IH | p IH |]; cbn [Pos.size].
  - rewrite Pos2Z.inj_succ. change (Z.pos p~1) with (2 * Z.pos p + 1).
    replace (Z.succ (Z.pos (Pos.size p)) - 1) with (Z.succ (Z.pos (Pos.size p) - 1)) by lia.
    rewrite !Z.pow_succ_r by lia.
    set (lo := 2 ^ (Z.pos (Pos.size p) - 1)) in *.
    set (hi := 2 ^ Z.pos (Pos.size p)) in *. clearbody lo hi. lia.
  - rewrite Pos2Z.inj_succ. change (Z.pos p~0) with (2 * Z.pos p).
    replace (Z.succ (Z.pos (Pos.size p)) - 1) with (Z.succ (Z.pos (Pos.size p) - 1)) by lia.
    rewrite !Z.pow_succ_r by lia.
    set (lo := 2 ^ (Z.pos (Pos.size p) - 1)) in *.
    set (hi := 2 ^ Z.pos (Pos.size p)) in *. clearbody lo hi. lia.
  - simpl. lia.
Qed.

Lemma size_unique p n : 2 ^ (n - 1) <= Z.pos p < 2 ^ n -> Z.pos (Pos.size p) = n.
Proof.
  intros [Hlo Hhi]. pose proof (size_bounds p) as [Hlo' Hhi'].
  destruct (Z.lt_trichotomy (Z.pos (Pos.size p)) n) as [Hlt | [Heq | Hgt]]; [|assumption|].
  - assert (2 ^ Z.pos (Pos.size p) <= 2 ^ (n - 1)) by (apply Z.pow_le_mono_r; lia). lia.
  - assert (0 < n) by (destruct (Z.le_gt_cases n 0) as [Hn|]; [|assumption];
      destruct (Z.eq_dec n 0) as [->|]; [simpl in Hhi; lia|];
      rewrite Z.pow_neg_r in Hhi by lia; lia).
    assert (2 ^ n <= 2 ^ (Z.pos (Pos.size p) - 1)) by (apply Z.pow_le_mono_r; lia). lia.
Qed.

Lemma iter_pos_iter {A} (f : A -> A) p x : iter_pos f p x = Pos.iter f x p.
Proof.
  revert x. induction p as [p IH | p IH |]; intros x; simpl.
  - rewrite !IH. rewrite <- Pos.iter_swap. rewrite <- Pos.iter_swap. reflexivity.
  - now rewrite !IH.
  - reflexivity.
Qed.

Lemma iter_xO m d : Z.pos (Pos.iter xO m d) = Z.pos m * 2 ^ Z.pos d.
Proof.
  induction d as [|d IH] using Pos.peano_ind.
  - simpl. lia.
  - rewrite Pos.iter_succ, Pos2Z.inj_succ, Z.pow_succ_r by lia.
    change (Z.pos (Pos.iter xO m d)~0) with (2 * Z.pos (Pos.iter xO m d)).
    rewrite IH. ring.
Qed.

(** *** Integers as binary64 numbers *)

Lemma normal_bounds m : normal m <-> 2 ^ 52 <= Z.pos m < 2 ^ 53.
Proof.
  unfold normal. split.
  - intros H. pose proof (size_bounds m) as B. rewrite H in B. exact B.
  - intros H. now apply size_unique.
Qed.

Lemma fexp_small e : -1021 <= e -> fexp prec emax e = e - 53.
Proof. intros H. unfold fexp, emin, prec, emax. lia. Qed.

Lemma round_exact_normal s m e :
  normal m -> -1074 <= e <= 971 ->
  binary_round_aux prec emax s (Z.pos m) e loc_Exact = S754_finite s m e.
Proof.
  intros Hm He.
  assert (Hshift : shr_fexp prec emax (Z.pos m) e loc_Exact
                   = ({| shr_m := Z.pos m; shr_r := false; shr_s := false |}, e)).
  { unfold shr_fexp. cbn [Zdigits2]. rewrite digits2_pos_size, Hm.
    rewrite fexp_small by lia.
    replace (53 + e - 53 - e) with 0 by lia. reflexivity. }
  unfold binary_round_aux. rewrite Hshift. cbn [shr_m loc_of_shr_record round_nearest_even].
  rewrite Hshift. cbn [shr_m].
  destruct (Z.leb_spec e (emax - prec)); [reflexivity|]. unfold emax, prec in *. lia.
Qed.

Lemma size_le_53 p : Z.pos p < 2 ^ 53 -> 1 <= Z.pos (Pos.size p) <= 53.
Proof.
  intros Hp. pose proof (size_bounds p) as [Hlo Hhi]. split; [lia|].
  destruct (Z.le_gt_cases (Z.pos (Pos.size p)) 53); [assumption|].
  assert (2 ^ 53 <= 2 ^ (Z.pos (Pos.size p) - 1)) by (apply Z.pow_le_mono_r; lia).
  lia.
Qed.

Lemma shl_value p k : 0 <= k -> Z.pos (shl p k) = Z.pos p * 2 ^ k.
Proof.
  intros Hk. destruct k as [|d|d]; cbn [shl]; [simpl; lia | apply iter_xO | lia].
Qed.

Lemma norm_m_value p :
  Z.pos p < 2 ^ 53 -> Z.pos (norm_m p) = Z.pos p * 2 ^ (- norm_e p).
Proof.
  intros Hp. pose proof (size_le_53 p Hp). unfold norm_m.
  apply shl_value. unfold norm_e. lia.
Qed.

Lemma norm_m_normal p : Z.pos p < 2 ^ 53 -> normal (norm_m p).
Proof.
  intros Hp. apply normal_bounds. rewrite norm_m_value by assumption.
  unfold norm_e. pose proof (size_bounds p) as [Hlo Hhi].
  assert (Hs : Z.pos (Pos.size p) <= 53).
  { destruct (Z.le_gt_cases (Z.pos (Pos.size p)) 53); [assumption|].
    assert (2 ^ 53 <= 2 ^ (Z.pos (Pos.size p) - 1)) by (apply Z.pow_le_mono_r; lia).
    lia. }
  set (k := Z.pos (Pos.size p)) in *.
  replace (2 ^ 52) with (2 ^ (k - 1) * 2 ^ (- (k - 53)))
    by (rewrite <- Z.pow_add_r by lia; f_equal; lia).
  replace (2 ^ 53) with (2 ^ k * 2 ^ (- (k - 53)))
    by (rewrite <- Z.pow_add_r by lia; f_equal; lia).
  assert (0 < 2 ^ (- (k - 53))) by (apply Z.pow_pos_nonneg; lia).
  split; [apply Z.mul_le_mono_nonneg_r | apply Z.mul_lt_mono_pos_r]; lia.
Qed.

Lemma of_Z_pos s p :
  Z.pos p < 2 ^ 53 ->
  binary_round prec emax s p 0 = S754_finite s (norm_m p) (norm_e p).
Proof.
  intros Hp. unfold binary_round.
  assert (Hal : shl_align p 0 (fexp prec emax (Z.pos (digits2_pos p) + 0))
                = (norm_m p, norm_e p)).
  { rewrite digits2_pos_size, fexp_small by lia.
    pose proof (size_le_53 p Hp) as Hs.
    unfold shl_align, norm_m, norm_e, shl.
    replace (Z.pos (Pos.size p) + 0 - 53 - 0) with (- (53 - Z.pos (Pos.size p))) by lia.
    replace (- (Z.pos (Pos.size p) - 53)) with (53 - Z.pos (Pos.size p)) by lia.
    destruct (53 - Z.pos (Pos.size p)) as [|d|d] eqn:Hd; cbn [Z.opp];
      try lia; f_equal; lia. }
  rewrite Hal. apply round_exact_normal.
  - now apply norm_m_normal.
  - unfold norm_e. pose proof (Pos2Z.is_pos (Pos.size p)).
    pose proof (size_bounds p) as [Hlo Hhi].
    assert (Hs : Z.pos (Pos.size p) <= 53).
    { destruct (Z.le_gt_cases (Z.pos (Pos.size p)) 53); [assumption|].
      assert (2 ^ 53 <= 2 ^ (Z.pos (Pos.size p) - 1)) by (apply Z.pow_le_mono_r; lia).
      lia. }
    lia.
Qed.

(** *** Exact subtraction *)

(** Shifting out zero bits is exact. *)
Lemma shr_zero_bits n : forall q,
  Pos.iter shr_1 {| shr_m := Z.pos (Pos.iter xO q n); shr_r := false; shr_s := false |} n
  = {| shr_m := Z.pos q; shr_r := false; shr_s := false |}.
Proof.
  induction n as [|n IH] using Pos.peano_ind; intros q.
  - reflexivity.
  - rewrite Pos.iter_succ, Pos.iter_succ_r, IH. reflexivity.
Qed.

Lemma size_shift q n : Z.pos (Pos.size (Pos.iter xO q n)) = Z.pos (Pos.size q) + Z.pos n.
Proof.
  induction n as [|n IH] using Pos.peano_ind.
  - simpl. lia.
  - rewrite Pos.iter_succ. cbn [Pos.size]. rewrite Pos2Z.inj_succ, IH. lia.
Qed.

Lemma shl_size p k : 0 <= k -> Z.pos (Pos.size (shl p k)) = Z.pos (Pos.size p) + k.
Proof.
  intros Hk. destruct k as [|d|d]; cbn [shl]; [lia | apply size_shift | lia].
Qed.

Lemma shl_shl p j k : 0 <= j -> 0 <= k -> shl (shl p j) k = shl p (j + k).
Proof.
  intros Hj Hk. apply Pos2Z.inj. rewrite !shl_value by lia.
  rewrite Z.pow_add_r by lia. ring.
Qed.

Lemma norm_m_shl p : Z.pos p < 2 ^ 53 -> norm_m p = shl p (- norm_e p).
Proof. reflexivity. Qed.

(** A mantissa with [k] zero bits at exponent [-k] rounds to the integer
    it stands for. *)
Lemma binary_round_shifted s p k :
  Z.pos p < 2 ^ 53 -> 0 <= k <= 1000 ->
  binary_round prec emax s (shl p k) (- k) = S754_finite s (norm_m p) (norm_e p).
Proof.
  intros Hp Hk. pose proof (size_le_53 p Hp) as Hs.
  unfold binary_round. rewrite digits2_pos_size, shl_size by lia.
  rewrite fexp_small by lia.
  unfold shl_align.
  replace (Z.pos (Pos.size p) + k + - k - 53 - - k) with (k - - norm_e p)
    by (unfold norm_e; lia).
  destruct (k - - norm_e p) as [|d|d] eqn:Hd.
  - (* already aligned *)
    assert (shl p k = norm_m p) as ->
      by (rewrite norm_m_shl by assumption; f_equal; lia).
    replace (- k) with (norm_e p) by lia.
    apply round_exact_normal; [now apply norm_m_normal | unfold norm_e; lia].
  - (* zero bits to shift out *)
    assert (Hsplit : shl p k = Pos.iter xO (norm_m p) d).
    { rewrite norm_m_shl by assumption.
      change (Pos.iter xO (shl p (- norm_e p)) d) with (shl (shl p (- norm_e p)) (Z.pos d)).
      rewrite shl_shl by (unfold norm_e; lia). f_equal. lia. }
    unfold binary_round_aux, shr_fexp. cbn [Zdigits2 shr_record_of_loc].
    rewrite digits2_pos_size, shl_size by lia.
    rewrite fexp_small by lia.
    replace (Z.pos (Pos.size p) + k + - k - 53 - - k) with (Z.pos d)
      by (unfold norm_e in Hd; lia).
    cbn [shr]. rewrite iter_pos_iter, Hsplit, shr_zero_bits.
    cbn [shr_m loc_of_shr_record round_nearest_even shr_record_of_loc Zdigits2].
    rewrite digits2_pos_size.
    pose proof (norm_m_normal p Hp) as Hn. unfold normal in Hn. rewrite Hn.
    rewrite fexp_small by lia.
    replace (53 + (- k + Z.pos d) - 53 - (- k + Z.pos d)) with 0 by lia.
    cbn [shr shr_m].
    replace (- k + Z.pos d) with (norm_e p) by lia.
    destruct (Z.leb_spec (norm_e p) (emax - prec)); [reflexivity|].
    unfold norm_e, emax, prec in *. lia.
  - (* bits to add *)
    assert (Pos.iter xO (shl p k) d = norm_m p) as ->.
    { rewrite norm_m_shl by assumption.
      change (Pos.iter xO (shl p k) d) with (shl (shl p k) (Z.pos d)).
      rewrite shl_shl by lia. f_equal. lia. }
    replace (Z.pos (Pos.size p) + k + - k - 53) with (norm_e p)
      by (unfold norm_e; lia).
    apply round_exact_normal; [now apply norm_m_normal | unfold norm_e; lia].
Qed.

Lemma of_Z_fl z : Z.abs z < 2 ^ 53 -> of_Z z = fl z.
Proof.
  intros Hz. destruct z as [|p|p]; cbn [of_Z binary_normalize fl];
    [reflexivity | |]; now apply of_Z_pos.
Qed.

Lemma normalize_shifted d k :
  Z.abs d < 2 ^ 53 -> 0 <= k <= 1000 ->
  binary_normalize prec emax (d * 2 ^ k) (- k) false = fl d.
Proof.
  intros Hd Hk. destruct d as [|p|p].
  - reflexivity.
  - rewrite <- shl_value by lia. cbn [binary_normalize fl].
    now apply binary_round_shifted.
  - rewrite <- Pos2Z.opp_pos, Z.mul_opp_l.
    rewrite <- shl_value by lia. cbn [Z.opp binary_normalize fl].
    now apply binary_round_shifted.
Qed.

Lemma shl_align_fst m e ez : ez <= e -> fst (shl_align m e ez) = shl m (e - ez).
Proof.
  intros H. unfold shl_align, shl.
  replace (ez - e) with (- (e - ez)) by lia.
  destruct (e - ez) as [|d|d] eqn:Hd; [reflexivity | reflexivity | lia].
Qed.

Lemma aligned_value s p ez :
  Z.pos p < 2 ^ 53 -> ez <= norm_e p ->
  cond_Zopp s (Z.pos (fst (shl_align (norm_m p) (norm_e p) ez)))
  = (if s then Z.neg p else Z.pos p) * 2 ^ (- ez).
Proof.
  intros Hp Hez. pose proof (size_le_53 p Hp) as Hs.
  rewrite shl_align_fst, shl_value, norm_m_value by (unfold norm_e in *; lia).
  replace (- ez) with (- norm_e p + (norm_e p - ez)) by lia.
  rewrite Z.pow_add_r by (unfold norm_e in *; lia).
  destruct s; cbn [cond_Zopp]; [|ring].
  rewrite <- Pos2Z.opp_pos. ring.
Qed.

Lemma SFsub_fl a b :
  Z.abs a < 2 ^ 53 -> Z.abs b < 2 ^ 53 -> Z.abs (a - b) < 2 ^ 53 ->
  SFsub prec emax (fl a) (fl b) = fl (a - b).
Proof.
  intros Ha Hb Hab.
  assert (Hfin : forall (sa : bool) (pa : positive) (sb : bool) (pb : positive),
    Z.pos pa < 2 ^ 53 -> Z.pos pb < 2 ^ 53 ->
    Z.abs ((if sa then Z.neg pa else Z.pos pa) - (if sb then Z.neg pb else Z.pos pb)) < 2 ^ 53 ->
    SFsub prec emax (S754_finite sa (norm_m pa) (norm_e pa))
                    (S754_finite sb (norm_m pb) (norm_e pb))
    = fl ((if sa then Z.neg pa else Z.pos pa) - (if sb then Z.neg pb else Z.pos pb))).
  { intros sa pa sb pb Hpa Hpb Hd. cbn [SFsub].
    pose proof (size_le_53 pa Hpa). pose proof (size_le_53 pb Hpb).
    set (ez := Z.min (norm_e pa) (norm_e pb)).
    assert (Hez : ez <= norm_e pa /\ ez <= norm_e pb /\ -52 <= ez <= 0)
      by (unfold ez, norm_e; lia).
    rewrite !aligned_value by lia.
    rewrite <- Z.mul_sub_distr_r.
    replace ez with (- - ez) at 2 by lia.
    apply normalize_shifted; lia. }
  destruct a as [|pa|pa], b as [|pb|pb]; try reflexivity.
  - apply (Hfin false pa false pb); assumption.
  - apply (Hfin false pa true pb); assumption.
  - apply (Hfin true pa false pb); assumption.
  - apply (Hfin true pa true pb); assumption.
Qed.

Lemma SFadd_fl a b :
  Z.abs a < 2 ^ 53 -> Z.abs b < 2 ^ 53 -> Z.abs (a + b) < 2 ^ 53 ->
  SFadd prec emax (fl a) (fl b) = fl (a + b).
Proof.
  intros Ha Hb Hab.
  assert (Hfin : forall (sa : bool) (pa : positive) (sb : bool) (pb : positive),
    Z.pos pa < 2 ^ 53 -> Z.pos pb < 2 ^ 53 ->
    Z.abs ((if sa then Z.neg pa else Z.pos pa) + (if sb then Z.neg pb else Z.pos pb)) < 2 ^ 53 ->
    SFadd prec emax (S754_finite sa (norm_m pa) (norm_e pa))
                    (S754_finite sb (norm_m pb) (norm_e pb))
    = fl ((if sa then Z.neg pa else Z.pos pa) + (if sb then Z.neg pb else Z.pos pb))).
  { intros sa pa sb pb Hpa Hpb Hd. cbn [SFadd].
    pose proof (size_le_53 pa Hpa). pose proof (size_le_53 pb Hpb).
    set (ez := Z.min (norm_e pa) (norm_e pb)).
    assert (Hez : ez <= norm_e pa /\ ez <= norm_e pb /\ -52 <= ez <= 0)
      by (unfold ez, norm_e; lia).
    rewrite !aligned_value by lia.
    rewrite <- Z.mul_add_distr_r.
    replace ez with (- - ez) at 2 by lia.
    apply normalize_shifted; lia. }
  destruct a as [|pa|pa], b as [|pb|pb]; try reflexivity.
  - apply (Hfin false pa false pb); assumption.
  - apply (Hfin false pa true pb); assumption.
  - apply (Hfin true pa false pb); assumption.
  - apply (Hfin true pa true pb); assumption.
Qed.

(** *** Rounding a quotient *)

Lemma new_location_spec m r : 0 <= r < m -> location_spec m r (new_location m r).
Proof.
  intros Hr. unfold new_location, new_location_even, new_location_odd.
  destruct (Z.even m) eqn:Hev; destruct (Z.eqb_spec r 0) as [-> | Hnz];
    try reflexivity; cbn [location_spec].
  - destruct (Z.compare_spec (2 * r) m); lia.
  - assert (Hodd : Z.odd m = true) by (rewrite <- Z.negb_even, Hev; reflexivity).
    apply Z.odd_spec in Hodd as [k Hk].
    destruct (Z.compare_spec (2 * r + 1) m); lia.
Qed.

Lemma loc_of_record_of_loc m l : loc_of_shr_record (shr_record_of_loc m l) = l.
Proof. destruct l as [|[]]; reflexivity. Qed.

Lemma shr_record_of_loc_m m l : shr_m (shr_record_of_loc m l) = m.
Proof. destruct l as [|[]]; reflexivity. Qed.

(** Rounding to nearest even of [q + r/m]: down when the remainder is at
    most one half, up when it is at least one half. *)
Lemma round_nearest_even_spec m q r l :
  0 < m -> location_spec m r l ->
  (round_nearest_even q l = q /\ 0 <= 2 * r <= m)
  \/ (round_nearest_even q l = q + 1 /\ m <= 2 * r).
Proof.
  intros Hm Hl. destruct l as [|[]]; cbn [location_spec round_nearest_even] in *.
  - left. lia.
  - destruct (Z.even q); [left | right]; lia.
  - left. lia.
  - right. lia.
Qed.

Lemma normal_size_53 q : 2 ^ 52 <= Z.pos q < 2 ^ 53 -> Z.pos (Pos.size q) = 53.
Proof. apply (size_unique q 53). Qed.

Lemma normal_size_54 q : 2 ^ 53 <= Z.pos q < 2 ^ 54 -> Z.pos (Pos.size q) = 54.
Proof. apply (size_unique q 54). Qed.

(** No shift for a 53-bit mantissa, one bit for a 54-bit one. *)
Lemma shr_fexp_53 q e l :
  2 ^ 52 <= Z.pos q < 2 ^ 53 -> -1074 <= e ->
  shr_fexp prec emax (Z.pos q) e l = (shr_record_of_loc (Z.pos q) l, e).
Proof.
  intros Hq He. unfold shr_fexp. cbn [Zdigits2].
  rewrite digits2_pos_size, (normal_size_53 q Hq), fexp_small by lia.
  replace (53 + e - 53 - e) with 0 by lia. reflexivity.
Qed.

Lemma shr_fexp_54 q e l :
  2 ^ 53 <= Z.pos q < 2 ^ 54 -> -1074 <= e ->
  shr_fexp prec emax (Z.pos q) e l = (shr_1 (shr_record_of_loc (Z.pos q) l), e + 1).
Proof.
  intros Hq He. unfold shr_fexp. cbn [Zdigits2].
  rewrite digits2_pos_size, (normal_size_54 q Hq), fexp_small by lia.
  replace (54 + e - 53 - e) with 1 by lia. reflexivity.
Qed.

(** The second pass of [binary_round_aux]: a rounded mantissa in
    [2^52, 2^53] is kept, 2^53 itself becoming 2^52 one exponent up. *)
Lemma second_pass s M e :
  2 ^ 52 <= M <= 2 ^ 53 -> -1074 <= e <= 900 ->
  exists (M' : positive) (j : Z),
    (j = 0 \/ j = 1) /\ normal M' /\ Z.pos M' * 2 ^ j = M
    /\ (let '(mrs, e') := shr_fexp prec emax M e loc_Exact in
        match shr_m mrs with
        | 0 => S754_zero s
        | Z.pos m => if e' <=? emax - prec then S754_finite s m e' else S754_infinity s
        | Z.neg _ => S754_nan
        end) = S754_finite s M' (e + j).
Proof.
  intros HM He. destruct M as [|q|q]; try lia.
  destruct (Z.eq_dec (Z.pos q) (2 ^ 53)) as [Heq | Hne].
  - exists (Z.to_pos (2 ^ 52)), 1. split; [auto|]. split; [reflexivity|].
    split; [rewrite Heq; reflexivity|].
    rewrite shr_fexp_54 by lia. injection Heq as ->. cbn [shr_record_of_loc shr_1 shr_m].
    destruct (Z.leb_spec (e + 1) (emax - prec)); [reflexivity|].
    unfold emax, prec in *. lia.
  - exists q, 0. split; [auto|]. split; [apply normal_bounds; lia|].
    split; [simpl; lia|].
    rewrite shr_fexp_53 by lia. cbn [shr_record_of_loc shr_m].
    replace (e + 0) with e by lia.
    destruct (Z.leb_spec e (emax - prec)); [reflexivity|].
    unfold emax, prec in *. lia.
Qed.

(** One bit shifted out of [q + r/m]: the half [q/2], with a location
    that speaks of the remainder [m (q mod 2) + r] over [2 m]. *)
Lemma shr_1_spec m q r l :
  0 < q -> 0 < m -> 0 <= r < m -> location_spec m r l ->
  let mrs := shr_1 (shr_record_of_loc q l) in
  exists h b,
    q = 2 * h + b /\ (b = 0 \/ b = 1) /\ shr_m mrs = h
    /\ location_spec (2 * m) (m * b + r) (loc_of_shr_record mrs).
Proof.
  intros Hq Hm Hr Hl.
  destruct q as [|[q|q|]|q]; try lia;
    [exists (Z.pos q), 1 | exists (Z.pos q), 0 | exists 0, 1];
    destruct l as [|[]]; cbn [location_spec] in Hl;
    cbn [shr_record_of_loc shr_1 orb shr_m loc_of_shr_record location_spec];
    repeat split; try lia; auto.
Qed.

(** Rounding [q + r/m], for [q] of 53 or 54 bits, to a 53-bit mantissa:
    the result is within half a unit of its last place. *)
Lemma binary_round_aux_spec s (q : positive) e m r l :
  2 ^ 52 <= Z.pos q < 2 ^ 54 -> -1074 <= e <= 800 ->
  0 < m -> 0 <= r < m -> location_spec m r l ->
  exists (M : positive) (J : Z),
    0 <= J <= 2 /\ normal M
    /\ binary_round_aux prec emax s (Z.pos q) e l = S754_finite s M (e + J)
    /\ - (m * 2 ^ J) <= 2 * m * (Z.pos M * 2 ^ J) - 2 * (m * Z.pos q + r) <= m * 2 ^ J.
Proof.
  intros Hq He Hm Hr Hl. unfold binary_round_aux.
  destruct (Z.lt_ge_cases (Z.pos q) (2 ^ 53)) as [H53 | H54].
  - rewrite shr_fexp_53 by lia. cbv beta iota.
    rewrite loc_of_record_of_loc, shr_record_of_loc_m.
    destruct (round_nearest_even_spec m (Z.pos q) r l Hm Hl) as [[HM Hlow] | [HM Hup]];
      rewrite HM;
      [destruct (second_pass s (Z.pos q) e) as (M & j & Hj & Hn & Hv & Hres)
      |destruct (second_pass s (Z.pos q + 1) e) as (M & j & Hj & Hn & Hv & Hres)];
      try lia; exists M, j; (split; [lia|]); (split; [exact Hn|]);
      (split; [exact Hres|]); rewrite Hv;
      destruct Hj as [-> | ->]; cbn [Z.pow Z.pow_pos Pos.iter]; lia.
  - rewrite shr_fexp_54 by lia.
    destruct (shr_1_spec m (Z.pos q) r l) as (h & b & Hqb & Hb & Hh & Hl2);
      try lia; try assumption.
    cbv beta iota. cbv zeta in Hh, Hl2. rewrite Hh.
    assert (H2m : 0 < 2 * m) by lia.
    destruct (round_nearest_even_spec (2 * m) h (m * b + r) _ H2m Hl2)
      as [[HM Hlow] | [HM Hup]]; rewrite HM;
      [destruct (second_pass s h (e + 1)) as (M & j & Hj & Hn & Hv & Hres)
      |destruct (second_pass s (h + 1) (e + 1)) as (M & j & Hj & Hn & Hv & Hres)];
      try lia; exists M, (1 + j); (split; [lia|]); (split; [exact Hn|]);
      (split; [replace (e + (1 + j)) with (e + 1 + j) by lia; exact Hres|]);
      replace (Z.pos M * 2 ^ (1 + j)) with (2 * (Z.pos M * 2 ^ j))
        by (rewrite Z.pow_add_r by lia; ring);
      rewrite Hv, Hqb;
      destruct Hb as [-> | ->]; destruct Hj as [-> | ->];
      cbn [Z.pow Z.pow_pos Pos.iter]; lia.
Qed.

(** Division of two normalised numbers: the quotient is a normalised
    mantissa [M] at exponent [ex - ey - 53 + J], within half a unit of
    the last place of the exact quotient. *)
Lemma SFdiv_normal sx mx ex sy my ey :
  normal mx -> normal my -> -400 <= ex <= 400 -> -400 <= ey <= 400 ->
  exists (M : positive) (J : Z),
    0 <= J <= 2 /\ normal M
    /\ SFdiv prec emax (S754_finite sx mx ex) (S754_finite sy my ey)
       = S754_finite (xorb sx sy) M (ex - ey - 53 + J)
    /\ - (Z.pos my * 2 ^ J)
       <= 2 * Z.pos my * (Z.pos M * 2 ^ J) - 2 * (Z.pos mx * 2 ^ 53)
       <= Z.pos my * 2 ^ J.
Proof.
  intros Hx Hy Hex Hey.
  pose proof (proj1 (normal_bounds mx) Hx) as Bx.
  pose proof (proj1 (normal_bounds my) Hy) as By.
  assert (Hcore : SFdiv_core_binary prec emax (Z.pos mx) ex (Z.pos my) ey
                  = (let '(q, r) := Z.div_eucl (Z.pos mx * 2 ^ 53) (Z.pos my) in
                     (q, ex - ey - 53, new_location (Z.pos my) r))).
  { unfold SFdiv_core_binary. cbn [Zdigits2].
    rewrite (digits2_pos_size mx), (digits2_pos_size my).
    unfold normal in Hx, Hy. rewrite Hx, Hy.
    rewrite fexp_small by lia.
    replace (Z.min (53 + ex - (53 + ey) - 53) (ex - ey)) with (ex - ey - 53) by lia.
    replace (ex - ey - (ex - ey - 53)) with 53 by lia.
    cbv beta iota zeta.
    rewrite Z.shiftl_mul_pow2 by lia. reflexivity. }
  cbn [SFdiv]. rewrite Hcore. clear Hcore.
  pose proof (Z_div_mod (Z.pos mx * 2 ^ 53) (Z.pos my) ltac:(lia)) as Hdiv.
  destruct (Z.div_eucl (Z.pos mx * 2 ^ 53) (Z.pos my)) as [q r].
  destruct Hdiv as [Hqr Hr].
  assert (Hq : 2 ^ 52 <= q < 2 ^ 54).
  { split.
    - destruct (Z.le_gt_cases (2 ^ 52) q) as [|Hlt]; [assumption|]. exfalso.
      assert (Z.pos my * q + r < Z.pos my * 2 ^ 52) by nia. nia.
    - destruct (Z.lt_ge_cases q (2 ^ 54)) as [|Hge]; [assumption|]. exfalso.
      assert (Z.pos my * 2 ^ 54 <= Z.pos my * q) by nia. nia. }
  destruct q as [|q|q]; try lia.
  destruct (binary_round_aux_spec (xorb sx sy) q (ex - ey - 53) (Z.pos my) r
              (new_location (Z.pos my) r))
    as (M & J & HJ & Hn & Hres & Hbound); try lia.
  { apply new_location_spec. lia. }
  exists M, J. split; [exact HJ|]. split; [exact Hn|]. split; [exact Hres|].
  rewrite Hqr. exact Hbound.
Qed.

(** *** Comparison with a threshold *)

(** The arithmetic behind the comparison of a rounded quotient [M P / C]
    of [d / s] with a threshold [T / K] next to [1 / w]. *)
Section Threshold.

Variables T K w : Z.
Hypothesis HK : 0 < K.
Hypothesis Hw : 0 < w.
Hypothesis H1 : K < w * (2 ^ 53 - 1).
Hypothesis H2 : 2 * K < w * (2 * T + 1).
Hypothesis H3 : w * 2 ^ 52 <= K.

Variables d s M P C : Z.
Hypothesis Hd : 0 < d.
Hypothesis Hs : 0 < s.
Hypothesis Hsmall : s * (w * (2 * T + 1) - 2 * K) < 2 * K.
Hypothesis HM : 2 ^ 52 <= M < 2 ^ 53.
Hypothesis HP : 0 < P.
Hypothesis HC : 0 < C.
Hypothesis Hbound : - (s * P) <= 2 * s * (M * P) - 2 * (d * C) <= s * P.

Lemma above_when_exponent_above : 2 * C <= P * K -> s < w * d.
Proof.
  intros Hc.
  assert (E1 : s * P * (2 ^ 53 - 1) <= 2 * (d * C)) by nia.
  assert (E2 : 2 * (d * C) <= d * (P * K)) by nia.
  assert (E3 : s * (2 ^ 53 - 1) <= d * K) by nia.
  nia.
Qed.

Lemma above_when_mantissa_above : C = P * K -> T < M -> s < w * d.
Proof.
  intros Hc HT.
  assert (E1 : s * P * (2 * T + 1) <= 2 * (d * C)) by nia.
  assert (E3 : s * (2 * T + 1) <= 2 * (d * K)) by nia.
  nia.
Qed.

Lemma below_when_exponent_below : 2 * (P * K) <= C -> w * d <= s.
Proof.
  intros Hc.
  assert (E1 : 2 * (d * C) <= s * P * (2 ^ 54 - 1)) by nia.
  assert (E2 : 4 * (d * (P * K)) <= 2 * (d * C)) by nia.
  assert (E3 : 4 * (d * K) <= s * (2 ^ 54 - 1)) by nia.
  nia.
Qed.

Lemma below_when_mantissa_below : C = P * K -> M <= T -> w * d <= s.
Proof.
  intros Hc HT.
  assert (E1 : 2 * (d * C) <= s * P * (2 * T + 1)) by nia.
  assert (E3 : 2 * (d * K) <= s * (2 * T + 1)) by nia.
  nia.
Qed.

End Threshold.

Lemma SFltb_finite T Et M E :
  SFltb (S754_finite false T Et) (S754_finite false M E) = true
  <-> Et < E \/ (Et = E /\ Z.pos T < Z.pos M).
Proof.
  unfold SFltb. cbn [SFcompare].
  destruct (Z.compare_spec Et E) as [-> | Hlt | Hgt].
  - change (Pos.compare_cont Eq T M) with (Pos.compare T M).
    destruct (Pos.compare_spec T M) as [-> | H | H]; split; intros H'; try discriminate;
      try reflexivity; lia.
  - split; [left; assumption | reflexivity].
  - split; [discriminate | lia].
Qed.

Section Quotient.

(** A threshold [T * 2^(-t)] next to [1 / w]. *)
Variables (T : positive) (t w : Z).
Hypothesis Ht : 0 <= t <= 100.
Hypothesis Hw : 0 < w.
Hypothesis H1 : 2 ^ t < w * (2 ^ 53 - 1).
Hypothesis H2 : 2 * 2 ^ t < w * (2 * Z.pos T + 1).
Hypothesis H3 : w * 2 ^ 52 <= 2 ^ t.

Lemma SFltb_quotient_pos (sd ss : bool) (pd ps : positive) :
  xorb sd ss = false ->
  Z.pos pd < 2 ^ 53 -> Z.pos ps < 2 ^ 53 ->
  Z.pos ps * (w * (2 * Z.pos T + 1) - 2 * 2 ^ t) < 2 * 2 ^ t ->
  SFltb (S754_finite false T (- t))
        (SFdiv prec emax (S754_finite sd (norm_m pd) (norm_e pd))
                         (S754_finite ss (norm_m ps) (norm_e ps)))
  = (Z.pos ps <? w * Z.pos pd).
Proof.
  intros Hsign Hd Hs Hsmall.
  pose proof (size_le_53 pd Hd) as Sd. pose proof (size_le_53 ps Hs) as Ss.
  destruct (SFdiv_normal sd (norm_m pd) (norm_e pd) ss (norm_m ps) (norm_e ps))
    as (M & J & HJ & HM & -> & Hbound);
    try (now apply norm_m_normal); try (unfold norm_e; lia).
  rewrite Hsign.
  apply normal_bounds in HM.
  rewrite !norm_m_value in Hbound by assumption.
  set (a := - norm_e pd) in *. set (b := - norm_e ps) in *.
  assert (Ha : 0 <= a <= 52) by (unfold a, norm_e; lia).
  assert (Hb : 0 <= b <= 52) by (unfold b, norm_e; lia).
  set (c := a + 53 - b).
  replace (norm_e pd - norm_e ps - 53 + J) with (J - c) by (unfold c, a, b; lia).
  (* the bound, freed of the common factor 2^b *)
  assert (Hbound' : - (Z.pos ps * 2 ^ J)
                    <= 2 * Z.pos ps * (Z.pos M * 2 ^ J) - 2 * (Z.pos pd * 2 ^ c)
                    <= Z.pos ps * 2 ^ J).
  { assert (Hc : 2 ^ a * 2 ^ 53 = 2 ^ c * 2 ^ b).
    { rewrite <- !Z.pow_add_r by lia. f_equal. unfold c. lia. }
    assert (Hpb : 0 < 2 ^ b) by (apply Z.pow_pos_nonneg; lia).
    replace (Z.pos pd * 2 ^ a * 2 ^ 53) with (Z.pos pd * 2 ^ c * 2 ^ b) in Hbound
      by (rewrite <- !Z.mul_assoc; f_equal; symmetry; exact Hc).
    split; apply (Z.mul_le_mono_pos_r _ _ (2 ^ b) Hpb); [destruct Hbound as [Hl _] | destruct Hbound as [_ Hu]];
      [etransitivity; [|etransitivity; [exact Hl|]] | etransitivity; [|etransitivity; [exact Hu|]]];
      apply Z.eq_le_incl; ring. }
  clear Hbound.
  assert (HP : 0 < 2 ^ J) by (apply Z.pow_pos_nonneg; lia).
  assert (HC : 0 < 2 ^ c) by (apply Z.pow_pos_nonneg; unfold c; lia).
  assert (HK : 0 < 2 ^ t) by (apply Z.pow_pos_nonneg; lia).
  assert (HJt : 2 ^ (J + t) = 2 ^ J * 2 ^ t) by (apply Z.pow_add_r; lia).
  destruct (Z.ltb_spec (Z.pos ps) (w * Z.pos pd)) as [Hyes | Hno].
  - (* the quotient is above 1/w *)
    apply SFltb_finite.
    destruct (Z.lt_trichotomy c (J + t)) as [Hlt | [Heq | Hgt]].
    + left. lia.
    + right. split; [lia|].
      destruct (Z.lt_ge_cases (Z.pos T) (Z.pos M)) as [|HTM]; [assumption|]. exfalso.
      assert (w * Z.pos pd <= Z.pos ps); [|lia].
      apply below_when_mantissa_below
        with (T := Z.pos T) (K := 2 ^ t) (M := Z.pos M) (P := 2 ^ J) (C := 2 ^ c);
        try assumption; try lia.
      rewrite Heq. exact HJt.
    + exfalso.
      assert (w * Z.pos pd <= Z.pos ps); [|lia].
      apply below_when_exponent_below
        with (K := 2 ^ t) (M := Z.pos M) (P := 2 ^ J) (C := 2 ^ c);
        try assumption; try lia.
      rewrite <- HJt, <- (Z.pow_succ_r 2 (J + t)) by lia.
      apply Z.pow_le_mono_r; lia.
  - (* the quotient is at most 1/w *)
    apply not_true_is_false. intros Habove. apply SFltb_finite in Habove.
    assert (Z.pos ps < w * Z.pos pd); [|lia].
    destruct Habove as [Hlt | [Heq HTM]].
    + apply above_when_exponent_above
        with (K := 2 ^ t) (M := Z.pos M) (P := 2 ^ J) (C := 2 ^ c);
        try assumption; try lia.
      rewrite <- HJt, <- (Z.pow_succ_r 2 c) by (unfold c; lia).
      apply Z.pow_le_mono_r; lia.
    + apply above_when_mantissa_above
        with (T := Z.pos T) (K := 2 ^ t) (M := Z.pos M) (P := 2 ^ J) (C := 2 ^ c);
        try assumption; try lia.
      replace c with (J + t) by lia. exact HJt.
Qed.

Lemma SFltb_quotient_neg (sd ss : bool) (pd ps : positive) :
  xorb sd ss = true ->
  Z.pos pd < 2 ^ 53 -> Z.pos ps < 2 ^ 53 ->
  SFltb (S754_finite false T (- t))
        (SFdiv prec emax (S754_finite sd (norm_m pd) (norm_e pd))
                         (S754_finite ss (norm_m ps) (norm_e ps)))
  = false.
Proof.
  intros Hsign Hd Hs.
  pose proof (size_le_53 pd Hd) as Sd. pose proof (size_le_53 ps Hs) as Ss.
  destruct (SFdiv_normal sd (norm_m pd) (norm_e pd) ss (norm_m ps) (norm_e ps))
    as (M & J & HJ & HM & -> & Hbound);
    try (now apply norm_m_normal); try (unfold norm_e; lia).
  now rewrite Hsign.
Qed.

(** The comparison of the rounded quotient of two integers with the
    threshold is the comparison of the exact quotient with [1 / w]. *)
Lemma SFltb_quotient (d s : Z) :
  Z.abs d < 2 ^ 53 -> Z.abs s < 2 ^ 53 -> s <> 0 ->
  Z.abs s * (w * (2 * Z.pos T + 1) - 2 * 2 ^ t) < 2 * 2 ^ t ->
  SFltb (S754_finite false T (- t)) (SFdiv prec emax (fl d) (fl s))
  = (if 0 <? s then s <? w * d else w * d <? s).
Proof.
  intros Hd Hs Hnz Hsmall.
  destruct s as [|ps|ps]; [contradiction| |]; destruct d as [|pd|pd];
    cbn [fl Z.ltb Z.compare Z.abs] in *.
  - cbn [SFdiv]. symmetry. apply Z.ltb_ge. lia.
  - now apply SFltb_quotient_pos.
  - rewrite SFltb_quotient_neg by (assumption || reflexivity).
    symmetry. apply Z.ltb_ge. lia.
  - cbn [SFdiv]. symmetry. apply Z.ltb_ge. lia.
  - rewrite SFltb_quotient_neg by (assumption || reflexivity).
    symmetry. apply Z.ltb_ge. lia.
  - rewrite SFltb_quotient_pos by (assumption || reflexivity).
    destruct (Z.ltb_spec (Z.pos ps) (w * Z.pos pd));
      destruct (Z.ltb_spec (w * Z.neg pd) (Z.neg ps)); try reflexivity; lia.
Qed.

End Quotient.

Lemma ratio_fl s22 s25 :
  Z.abs s22 < 2 ^ 52 -> Z.abs s25 < 2 ^ 52 ->
  ratio s22 s25 = SFdiv prec emax (fl (s25 - s22)) (fl s22).
Proof.
  intros H22 H25. unfold ratio.
  rewrite !of_Z_fl, SFsub_fl by lia. reflexivity.
Qed.

Lemma SFltb_tenth s22 s25 :
  Z.abs s22 < 2 ^ 52 -> Z.abs s25 < 2 ^ 52 -> s22 <> 0 ->
  SFltb tenth (ratio s22 s25)
  = (if 0 <? s22 then s22 <? 10 * (s25 - s22) else 10 * (s25 - s22) <? s22).
Proof.
  intros H22 H25 Hnz. rewrite ratio_fl by assumption.
  apply (SFltb_quotient 7205759403792794 56 10); try lia.
Qed.

Lemma SFltb_half s22 s25 :
  Z.abs s22 < 2 ^ 52 -> Z.abs s25 < 2 ^ 52 -> s22 <> 0 ->
  SFltb half (ratio s22 s25)
  = (if 0 <? s22 then s22 <? 2 * (s25 - s22) else 2 * (s25 - s22) <? s22).
Proof.
  intros H22 H25 Hnz. rewrite ratio_fl by assumption.
  apply (SFltb_quotient 4503599627370496 53 2); try lia.
Qed.

End B64Facts.

(** ** The analytics route *)

Section Analytics.

Lemma Qgtb_true a b : Qgtb a b = true <-> (b < a)%Q.
Proof.
  unfold Qgtb. rewrite negb_true_iff, <- not_true_iff_false, Qle_bool_iff.
  split; [apply Qnot_le_lt | apply Qlt_not_le].
Qed.

(** A ratio above 0.1 (0.5) is a rate above 10 (50) per cent. *)
Lemma Qgtb_percent (q : Q) (n : Z) :
  Qgtb (q * 100) (inject_Z n) = Qgtb q (n # 100).
Proof.
  apply eq_true_iff_eq. rewrite !Qgtb_true.
  unfold Qlt, Qmult, inject_Z. cbn [Qnum Qden].
  rewrite !Pos2Z.inj_mul. lia.
Qed.

Lemma Qgtb_equiv a b b' : (b == b')%Q -> Qgtb a b = Qgtb a b'.
Proof.
  intros Hb. apply eq_true_iff_eq. rewrite !Qgtb_true. now rewrite Hb.
Qed.

Lemma isGrowthMarket_counted item : isGrowthMarket item = growthCounted 10 item.
Proof.
  unfold isGrowthMarket, growthCounted, growthRate.
  destruct (sales2022 item =? 0); [reflexivity|].
  change 10%Q with (inject_Z 10). rewrite Qgtb_percent.
  now apply Qgtb_equiv.
Qed.

Lemma isEmergingMarket_counted item : isEmergingMarket item = growthCounted 50 item.
Proof.
  unfold isEmergingMarket, growthCounted, growthRate.
  destruct (sales2022 item =? 0); [reflexivity|].
  change 50%Q with (inject_Z 50). rewrite Qgtb_percent.
  now apply Qgtb_equiv.
Qed.

Lemma filter_pointwise {A} (f g : A -> bool) l :
  (forall x, f x = g x) -> List.filter f l = List.filter g l.
Proof.
  intros Hfg. induction l as [|x l IH]; simpl; [reflexivity|].
  now rewrite Hfg, IH.
Qed.

Lemma filter_length_mono {A} (f g : A -> bool) l :
  (forall x, f x = true -> g x = true) ->
  (length (List.filter f l) <= length (List.filter g l))%nat.
Proof.
  intros Hfg. induction l as [|x l IH]; simpl; [lia|].
  destruct (f x) eqn:Hf.
  - rewrite (Hfg x Hf). simpl. lia.
  - destruct (g x); simpl; lia.
Qed.

Lemma growthMarkets_summarize data :
  growthMarkets (summarize data) = length (List.filter isGrowthMarket data).
Proof. now destruct data. Qed.

Lemma emergingMarkets_summarize data :
  emergingMarkets (summarize data) = length (List.filter isEmergingMarket data).
Proof. now destruct data. Qed.

Lemma emerging_is_growth item :
  isEmergingMarket item = true -> isGrowthMarket item = true.
Proof.
  unfold isEmergingMarket, isGrowthMarket.
  destruct (sales2022 item =? 0); [auto|].
  rewrite !Qgtb_true. intros Hhalf.
  apply Qlt_trans with (5 # 10)%Q; [reflexivity | exact Hhalf].
Qed.

(** The literals are the binary64 numbers nearest to 1/10 and 1/2. *)
Lemma B64_literals :
  B64.tenth = SpecFloat.SFdiv B64.prec B64.emax (B64.of_Z 1) (B64.of_Z 10)
  /\ B64.half = SpecFloat.SFdiv B64.prec B64.emax (B64.of_Z 1) (B64.of_Z 2).
Proof. split; vm_compute; reflexivity. Qed.

(** Whatever the rounding of the quotient, a binary64 number above
    [0.5] is above [0.1]. *)
Lemma B64_half_above_tenth x :
  SpecFloat.SFltb B64.half x = true -> SpecFloat.SFltb B64.tenth x = true.
Proof.
  unfold SpecFloat.SFltb, B64.half, B64.tenth.
  destruct x as [s | s | | s m e]; cbn [SpecFloat.SFcompare];
    try (intros; assumption).
  destruct s; [intros; assumption|].
  destruct (Z.compare_spec (-53) e) as [<- | Hlt | Hgt]; intros Hhalf.
  - reflexivity.
  - destruct (Z.compare_spec (-56) e); [lia | reflexivity | lia].
  - discriminate Hhalf.
Qed.

Lemma B64_emerging_is_growth item :
  B64.isEmergingMarket item = true -> B64.isGrowthMarket item = true.
Proof.
  unfold B64.isEmergingMarket, B64.isGrowthMarket, B64.counted.
  destruct (sales2022 item =? 0); [auto|]. apply B64_half_above_tenth.
Qed.

(** The exact comparison of the quotient of two integers with [1 / w]. *)
Lemma Qgtb_quotient d s (w : positive) :
  s <> 0 ->
  Qgtb (inject_Z d / inject_Z s) (1 # w)
  = (if 0 <? s then s <? Z.pos w * d else Z.pos w * d <? s).
Proof.
  intros Hs. apply eq_true_iff_eq. rewrite Qgtb_true.
  unfold Qlt, Qdiv, Qmult, Qinv, inject_Z.
  destruct s as [|p|p]; [contradiction| |]; cbn [Qnum Qden Z.ltb Z.compare].
  - rewrite Z.ltb_lt. rewrite Pos2Z.inj_mul. lia.
  - rewrite Z.ltb_lt. rewrite Pos2Z.inj_mul. lia.
Qed.

(** For figures that binary64 numbers hold exactly, the filters on
    binary64 numbers are the filters on exact quotients. *)
Lemma B64_isGrowthMarket item :
  exact_figures item -> B64.isGrowthMarket item = isGrowthMarket item.
Proof.
  intros [H22 H25].
  unfold B64.isGrowthMarket, B64.counted, isGrowthMarket, ratio.
  destruct (Z.eqb_spec (sales2022 item) 0) as [|Hnz]; [reflexivity|].
  rewrite B64Facts.SFltb_tenth, Qgtb_quotient by assumption. reflexivity.
Qed.

Lemma B64_isEmergingMarket item :
  exact_figures item -> B64.isEmergingMarket item = isEmergingMarket item.
Proof.
  intros [H22 H25].
  unfold B64.isEmergingMarket, B64.counted, isEmergingMarket, ratio.
  destruct (Z.eqb_spec (sales2022 item) 0) as [|Hnz]; [reflexivity|].
  rewrite B64Facts.SFltb_half, (Qgtb_equiv _ (5 # 10) (1 # 2)), Qgtb_quotient
    by (assumption || reflexivity).
  reflexivity.
Qed.

Lemma filter_agree {A} (f g : A -> bool) (P : A -> Prop) l :
  (forall x, P x -> f x = g x) -> Forall P l -> List.filter f l = List.filter g l.
Proof.
  intros Hfg Hl. induction Hl as [|x l Hx _ IH]; simpl; [reflexivity|].
  now rewrite (Hfg x Hx), IH.
Qed.

(** The example of the specification: from 100 to 150 the growth is
    exactly 50 per cent, a growth market and not an emerging one. *)
Example bengaluru_growth :
  isGrowthMarket {| id := 1; fields := bengaluru_record |} = true
  /\ isEmergingMarket {| id := 1; fields := bengaluru_record |} = false.
Proof. split; reflexivity. Qed.

End Analytics.

(** ** Properties of the analytics route *)

(** C1 (as amended).  [growthMarkets] is the number of records that
    either have no sales in 2022 and some in 2025, or have sales in 2022
    and a growth rate above 10 per cent; [emergingMarkets] is the same
    count with 50 per cent.  A record with [sales2022 = 0] has growth
    rate 0 and is counted in both when [sales2025 > 0], in neither
    otherwise.  For figures below 2^52 in magnitude these are the counts
    of the two filters on binary64 numbers. *)
Theorem C1_market_counts (data : list SalesData) :
  growthMarkets (summarize data) = length (List.filter (growthCounted 10) data)
  /\ emergingMarkets (summarize data) = length (List.filter (growthCounted 50) data)
  /\ (forall item : SalesData,
      sales2022 item = 0 ->
      growthRate item = 0%Q
      /\ isGrowthMarket item = (0 <? sales2025 item)
      /\ isEmergingMarket item = (0 <? sales2025 item))
  /\ (Forall exact_figures data ->
      growthMarkets (summarize data) = length (List.filter B64.isGrowthMarket data)
      /\ emergingMarkets (summarize data)
         = length (List.filter B64.isEmergingMarket data)).
Proof.
  split; [|split; [|split]].
  - rewrite growthMarkets_summarize.
    f_equal. apply filter_pointwise, isGrowthMarket_counted.
  - rewrite emergingMarkets_summarize.
    f_equal. apply filter_pointwise, isEmergingMarket_counted.
  - intros item Hzero.
    unfold growthRate, isGrowthMarket, isEmergingMarket.
    rewrite Hzero. auto.
  - intros Hdata.
    rewrite growthMarkets_summarize, emergingMarkets_summarize.
    split; f_equal; symmetry.
    + apply (filter_agree _ _ exact_figures); [apply B64_isGrowthMarket | exact Hdata].
    + apply (filter_agree _ _ exact_figures); [apply B64_isEmergingMarket | exact Hdata].
Qed.

Lemma C1_witness :
  sales2022 zero_base = 0
  /\ isGrowthMarket zero_base = (0 <? sales2025 zero_base)
  /\ Forall exact_figures [zero_base; old_record]
  /\ growthMarkets (summarize [zero_base; old_record])
     = length (List.filter B64.isGrowthMarket [zero_base; old_record]).
Proof.
  destruct (C1_market_counts [zero_base; old_record]) as (_ & _ & Hzero & Hb64).
  assert (Hexact : Forall exact_figures [zero_base; old_record])
    by (repeat constructor; simpl; lia).
  split; [reflexivity|].
  split; [apply (Hzero zero_base); reflexivity|].
  split; [exact Hexact|].
  exact (proj1 (Hb64 Hexact)).
Defined.

(** C1 as stated fails: the record with [sales2022 = 0] and
    [sales2025 = 5] has the zero-guarded growth rate 0, which exceeds
    neither 10 nor 50, and is counted in both figures. *)
Lemma C1_counterexample :
  growthRate zero_base = 0%Q
  /\ length (List.filter (growthExceeds 10) [zero_base]) = 0%nat
  /\ growthMarkets (summarize [zero_base]) = 1%nat
  /\ length (List.filter (growthExceeds 50) [zero_base]) = 0%nat
  /\ emergingMarkets (summarize [zero_base]) = 1%nat.
Proof. repeat split. Qed.

(** C10.  No record set has more emerging markets than growth markets:
    a record counted as emerging (ratio above 0.5, or no sales in 2022
    and some in 2025) is counted as growth (ratio above 0.1, or the
    same zero-base case).  The same holds of the two filters on binary64
    numbers, whatever the figures and the rounding of the quotient. *)
Theorem C10_emerging_le_growth (data : list SalesData) :
  (emergingMarkets (summarize data) <= growthMarkets (summarize data))%nat
  /\ (forall item : SalesData,
      isEmergingMarket item = true -> isGrowthMarket item = true)
  /\ (length (List.filter B64.isEmergingMarket data)
      <= length (List.filter B64.isGrowthMarket data))%nat
  /\ (forall item : SalesData,
      B64.isEmergingMarket item = true -> B64.isGrowthMarket item = true).
Proof.
  split; [|split; [exact emerging_is_growth|split]].
  - rewrite growthMarkets_summarize, emergingMarkets_summarize.
    apply filter_length_mono, emerging_is_growth.
  - apply filter_length_mono, B64_emerging_is_growth.
  - exact B64_emerging_is_growth.
Qed.

Lemma C10_witness :
  isEmergingMarket zero_base = true /\ isGrowthMarket zero_base = true.
Proof.
  split; [reflexivity|].
  apply (C10_emerging_le_growth [zero_base]). reflexivity.
Defined.

(** * Further properties of the routes *)

Section Figures.

Variable env : Env.

Lemma int_inj a b : int a = int b -> a = b.
Proof. unfold int. congruence. Qed.

Lemma year_cell rowData r key field :
  In (key, field) yearColumns -> normalizeRow env rowData = Some r ->
  parseInt (cell_or rowData key "0") = int (field r).
Proof.
  intros Hkey Hr. apply normalizeRow_Some in Hr.
  unfold yearColumns in Hkey. simpl in Hkey.
  destruct Hkey as [E | [E | [E | [E | []]]]]; injection E as <- <-; tauto.
Qed.

Lemma year_cell_truthy rowData r key field cell z :
  In (key, field) yearColumns -> normalizeRow env rowData = Some r ->
  get rowData key = cell -> truthy cell = true -> parseInt cell = int z ->
  field r = z.
Proof.
  intros Hkey Hr Hcell Ht Hz.
  pose proof (year_cell rowData r key field Hkey Hr) as Hread.
  unfold cell_or in Hread. rewrite Hcell, (or_truthy _ _ Ht), Hz in Hread.
  symmetry. now apply int_inj.
Qed.

Lemma list_ascii_of_string_app a b :
  list_ascii_of_string (a +:+ b) = list_ascii_of_string a ++ list_ascii_of_string b.
Proof. induction a as [|c a IH]; simpl; [|rewrite IH]; reflexivity. Qed.

Lemma digits_lead ds :
  Forall is_digit ds -> ds <> [] ->
  10 ^ (Z.of_nat (length ds) - 1) <= value_of 10 ds ->
  hd 0 ds <> 0.
Proof.
  intros Hds Hne Hlow. destruct ds as [|d ds].
  - contradiction.
  - simpl. intros ->. rewrite value_of_cons in Hlow.
    pose proof (value_of_bound ds (Forall_inv_tail Hds)).
    cbn [length] in Hlow. rewrite Nat2Z.inj_succ in Hlow.
    replace (Z.succ (Z.of_nat (length ds)) - 1) with (Z.of_nat (length ds)) in Hlow by lia.
    lia.
Qed.

(** The text of a non-zero integer below 10^21: a sign and its digits. *)
Lemma integer_text n :
  n <> 0 -> Z.abs n < 10 ^ 21 ->
  exists ds,
    list_ascii_of_string (number_to_string (int n))
    = sign_text (n <? 0) ++ map digit_char ds
    /\ Forall is_digit ds /\ ds <> [] /\ hd 0 ds <> 0
    /\ signed (n <? 0) (value_of 10 ds) = n.
Proof.
  intros Hnz Hn. unfold number_to_string, int.
  destruct (Z.eqb_spec n 0) as [|_]; [contradiction|].
  destruct (Z.ltb_spec n 0) as [Hneg | Hpos].
  - destruct (digits_spec (- n)) as (ds & Heq & Hds & Hval & Hlen & Hlow); [lia|].
    exists ds. rewrite list_ascii_of_string_of_list_ascii, unsigned_to_string_int, Heq by lia.
    assert (Hne : ds <> []) by (intros ->; simpl in Hlen; lia).
    repeat split; try assumption.
    + apply digits_lead; [assumption | assumption | now rewrite Hval].
    + cbn [signed]. lia.
  - destruct (digits_spec n) as (ds & Heq & Hds & Hval & Hlen & Hlow); [lia|].
    exists ds. rewrite list_ascii_of_string_of_list_ascii, unsigned_to_string_int, Heq by lia.
    assert (Hne : ds <> []) by (intros ->; simpl in Hlen; lia).
    repeat split; try assumption.
    apply digits_lead; [assumption | assumption | now rewrite Hval].
Qed.

(** [parseInt] reads the integer in front of a text and drops the rest. *)
Lemma parseInt_text ws n rest :
  blank ws = true -> n <> 0 -> Z.abs n < 10 ^ 21 -> no_digit_first rest ->
  parseInt (Str (ws +:+ number_to_string (int n) +:+ rest)) = int n.
Proof.
  intros Hws Hnz Hn Hrest.
  destruct (integer_text n Hnz Hn) as (ds & Htext & Hds & Hne & Hlead & Hval).
  unfold parseInt, to_string.
  rewrite <- (string_of_list_ascii_of_string (ws +:+ _ +:+ rest)).
  rewrite !list_ascii_of_string_app, Htext, <- app_assoc.
  rewrite parse_int_prefix; try assumption.
  - now rewrite Hval.
  - destruct rest; [exact I | exact Hrest].
  - now left.
Qed.

End Figures.

Section Exponent.

Lemma position_plain m e k j :
  1 <= m -> 1 <= k -> 0 <= j ->
  10 ^ (k + j - 1) <= m < 10 ^ (k + j) ->
  -6 < k + j + e <= 21 -> plain m e.
Proof.
  intros Hm Hk Hj [Hml Hmh] [Hlow Hhigh]. unfold plain.
  rewrite Z.abs_eq by lia.
  destruct (Z.le_gt_cases 0 e) as [He | He].
  - rewrite (Z.max_r (- e)), (Z.max_l e) by lia.
    rewrite Z.pow_0_r, Z.add_0_r.
    pose proof (Z.pow_pos_nonneg 10 (6 + e)).
    pose proof (Z.pow_pos_nonneg 10 e).
    assert (10 ^ (k + j) * 10 ^ e <= 10 ^ 21).
    { rewrite <- pow10_split by lia. apply pow10_le. lia. }
    split; nia.
  - rewrite (Z.max_l (- e)), (Z.max_r e) by lia.
    rewrite Z.add_0_r, Z.pow_0_r.
    assert (10 ^ (- e) <= 10 ^ (k + j - 1) * 10 ^ 6).
    { rewrite <- pow10_split by lia. apply pow10_le. lia. }
    assert (10 ^ (k + j) <= 10 ^ (21 + - e)) by (apply pow10_le; lia).
    split; nia.
Qed.

Lemma unsigned_single_digit m e :
  1 <= m -> ~ plain m e ->
  exists d rest,
    1 <= d <= 9 /\ halts rest /\ no_x rest
    /\ unsigned_to_string m e = map digit_char [d] ++ rest.
Proof.
  intros Hm Hnot.
  destruct (unsigned_layout m e Hm) as (ds & j & Hds & Hne & Hv & Hlow & Hstr).
  pose proof (value_of_bound ds Hds) as Hb. cbv zeta in Hstr.
  set (v := value_of 10 ds) in *.
  set (k := Z.of_nat (length ds)) in *.
  set (n := k + Z.of_nat j + e) in *.
  assert (Hk : 1 <= k) by (destruct ds; [contradiction | unfold k; simpl; lia]).
  pose proof (Z.pow_pos_nonneg 10 (Z.of_nat j)) as Hpj.
  assert (Hvlow : 10 ^ (k - 1) <= v).
  { replace (k + Z.of_nat j - 1) with ((k - 1) + Z.of_nat j) in Hlow by lia.
    rewrite pow10_split in Hlow by lia. nia. }
  assert (Hn : n <= -6 \/ 21 < n).
  { destruct (Z.le_gt_cases n (-6)); [now left|].
    destruct (Z.le_gt_cases n 21); [|now right].
    exfalso. apply Hnot.
    apply (position_plain m e k (Z.of_nat j)); try lia.
    split; [assumption|]. rewrite Hv, pow10_split by lia. nia. }
  assert (Hlayout : unsigned_to_string m e
                    = match ds with
                      | [d] => digit_char d :: exponent_part n
                      | d :: ds' =>
                          digit_char d :: "."%char :: map digit_char ds' ++ exponent_part n
                      | [] => []
                      end).
  { rewrite Hstr.
    replace ((k <=? n) && (n <=? 21)) with false.
    2:{ symmetry. apply andb_false_iff. rewrite Z.leb_gt, Z.leb_gt. lia. }
    replace ((0 <? n) && (n <=? 21)) with false.
    2:{ symmetry. apply andb_false_iff. rewrite Z.ltb_ge, Z.leb_gt. lia. }
    replace ((-6 <? n) && (n <=? 0)) with false; [reflexivity|].
    symmetry. apply andb_false_iff. rewrite Z.ltb_ge, Z.leb_gt. lia. }
  pose proof (digits_lead ds Hds Hne Hvlow) as Hlead.
  destruct ds as [|d ds']; [contradiction|].
  pose proof (Forall_inv Hds) as Hd. unfold is_digit in Hd. simpl in Hlead.
  destruct ds' as [|d' ds'].
  - exists d, (exponent_part n). rewrite Hlayout.
    repeat split; try reflexivity; lia.
  - exists d, ("."%char :: map digit_char (d' :: ds') ++ exponent_part n).
    rewrite Hlayout. repeat split; try reflexivity; lia.
Qed.

(** Printed with an exponent, a number is read by [parseInt] as its
    first digit. *)
Lemma parseInt_single_digit m e :
  m <> 0 -> ~ plain m e ->
  exists d, 1 <= d <= 9 /\ parseInt (Num (Finite m e)) = int (Z.sgn m * d).
Proof.
  intros Hnz Hnot. unfold parseInt, to_string, number_to_string.
  destruct (Z.eqb_spec m 0) as [|_]; [contradiction|].
  destruct (Z.ltb_spec m 0) as [Hneg | Hpos].
  - destruct (unsigned_single_digit (- m) e) as (d & rest & Hd & Hh & Hx & ->);
      [lia | now rewrite plain_opp |].
    exists d. split; [exact Hd|].
    assert (Hdigit : Forall is_digit [d])
      by (repeat constructor; unfold is_digit; lia).
    assert (Hne : [d] <> []) by discriminate.
    pose proof (parse_int_prefix true [] [d] rest eq_refl Hdigit Hne Hh (or_intror Hx))
      as Hp.
    cbn [app sign_text signed] in Hp. rewrite Hp.
    unfold value_of. simpl. f_equal. rewrite Z.sgn_neg by lia. lia.
  - destruct (unsigned_single_digit m e) as (d & rest & Hd & Hh & Hx & ->);
      [lia | assumption |].
    exists d. split; [exact Hd|].
    assert (Hdigit : Forall is_digit [d])
      by (repeat constructor; unfold is_digit; lia).
    assert (Hne : [d] <> []) by discriminate.
    pose proof (parse_int_prefix false [] [d] rest eq_refl Hdigit Hne Hh (or_intror Hx))
      as Hp.
    cbn [app sign_text signed] in Hp. rewrite Hp.
    unfold value_of. simpl. f_equal. rewrite Z.sgn_pos by lia. lia.
Qed.

End Exponent.

Lemma resolveCoordinates_unresolved env rowData state city :
  unresolved env state city ->
  resolveCoordinates env rowData state city = excelCoordinates rowData.
Proof.
  intros Hu. unfold resolveCoordinates.
  destruct (truthy (apiKey env) && truthy state && truthy city) eqn:Hk;
    [|reflexivity].
  destruct Hu as [Hkey | [-> | (status & results & -> & Hs)]].
  - rewrite Hkey in Hk. discriminate.
  - reflexivity.
  - destruct (String.eqb_spec status "OK") as [-> | _]; [|reflexivity].
    destruct Hs as [Hs | ->]; [contradiction | reflexivity].
Qed.

(** ** How the cells of a row are read *)

(** X1.  A yearly figure given as a number with a fraction is stored as
    its whole part, rounded toward zero, not to the nearest integer:
    [parseInt] reads the text of the number up to the decimal point.
    This holds of the numbers printed without an exponent, from 10^-6
    up to 10^21 in magnitude. *)
Theorem X1_fractional_figure_truncated :
  (forall m e, plain m e -> parseInt (Num (Finite m e)) = int (truncate m e))
  /\ (forall env rowData r key field m e,
       In (key, field) yearColumns ->
       normalizeRow env rowData = Some r ->
       get rowData key = Num (Finite m e) -> plain m e ->
       field r = truncate m e).
Proof.
  split; [exact parseInt_truncates|].
  intros env rowData r key field m e Hkey Hr Hcell Hplain.
  apply (year_cell_truthy env rowData r key field (Num (Finite m e)));
    try assumption.
  - cbn [truthy is_zero]. pose proof (plain_nonzero m e Hplain).
    now destruct (Z.eqb_spec m 0).
  - now apply parseInt_truncates.
Qed.

Lemma X1_witness :
  plain 1005 (-1)
  /\ exists r,
      normalizeRow no_geocoding fractional = Some r
      /\ sales2022 r = truncate 1005 (-1)
      /\ truncate 1005 (-1) = 100
      /\ truncate (-79) (-1) = -7.
Proof.
  assert (Hplain : plain 1005 (-1)) by (split; [discriminate | reflexivity]).
  split; [exact Hplain|].
  eexists. split; [vm_compute; reflexivity|].
  split; [|split; reflexivity].
  apply (proj2 X1_fractional_figure_truncated no_geocoding fractional _
           "2022" sales2022 1005 (-1)).
  - left. reflexivity.
  - vm_compute. reflexivity.
  - reflexivity.
  - exact Hplain.
Defined.

(** X2.  A yearly figure given as text is read up to the first
    character that is not a decimal digit: ASCII white space in front
    (space, tab, line feed, vertical tab, form feed, carriage return)
    is skipped, and whatever follows the leading integer (a thousands
    separator, a fraction, a unit) is dropped without an error.  The
    integer is below 2^53 in magnitude, where the figure read is exact. *)
Theorem X2_text_figure_prefix :
  (forall ws n rest,
      blank ws = true -> n <> 0 -> Z.abs n < 2 ^ 53 -> no_digit_first rest ->
      parseInt (Str (ws +:+ number_to_string (int n) +:+ rest)) = int n)
  /\ (forall env rowData r key field ws n rest,
       In (key, field) yearColumns ->
       normalizeRow env rowData = Some r ->
       get rowData key = Str (ws +:+ number_to_string (int n) +:+ rest) ->
       blank ws = true -> n <> 0 -> Z.abs n < 2 ^ 53 -> no_digit_first rest ->
       field r = n).
Proof.
  assert (Hbound : forall n, Z.abs n < 2 ^ 53 -> Z.abs n < 10 ^ 21).
  { intros n Hn. assert (2 ^ 53 < 10 ^ 21) by reflexivity. lia. }
  split.
  - intros ws n rest Hws Hnz Hn Hrest. apply parseInt_text; auto.
  - intros env rowData r key field ws n rest Hkey Hr Hcell Hws Hnz Hn Hrest.
    pose proof (parseInt_text ws n rest Hws Hnz (Hbound n Hn) Hrest) as Hread.
    apply (year_cell_truthy env rowData r key field _ n Hkey Hr Hcell);
      [|exact Hread].
    cbn [truthy].
    destruct (String.eqb_spec (ws +:+ number_to_string (int n) +:+ rest) "") as [E|];
      [|reflexivity].
    rewrite E in Hread. discriminate Hread.
Qed.

Lemma X2_witness :
  get grouped "2022" = Str ("" +:+ number_to_string (int 1) +:+ ",200")
  /\ exists r, normalizeRow no_geocoding grouped = Some r /\ sales2022 r = 1.
Proof.
  split; [reflexivity|].
  eexists. split; [vm_compute; reflexivity|].
  apply (proj2 X2_text_figure_prefix no_geocoding grouped _
           "2022" sales2022 "" 1 ",200").
  - left. reflexivity.
  - vm_compute. reflexivity.
  - reflexivity.
  - reflexivity.
  - discriminate.
  - reflexivity.
  - reflexivity.
Defined.

(** X3.  A yearly figure so large (10^21 and more) or so small (below
    10^-6) that its text has an exponent is read by [parseInt] as the
    first digit of that text: the figure stored for an accepted row is
    a single digit with the sign of the cell. *)
Theorem X3_exponent_figure_is_one_digit :
  (forall m e,
      m <> 0 -> ~ plain m e ->
      exists d, 1 <= d <= 9 /\ parseInt (Num (Finite m e)) = int (Z.sgn m * d))
  /\ (forall env rowData r key field m e,
       In (key, field) yearColumns ->
       normalizeRow env rowData = Some r ->
       get rowData key = Num (Finite m e) -> m <> 0 -> ~ plain m e ->
       exists d, 1 <= d <= 9 /\ field r = Z.sgn m * d).
Proof.
  split; [exact parseInt_single_digit|].
  intros env rowData r key field m e Hkey Hr Hcell Hnz Hnot.
  destruct (parseInt_single_digit m e Hnz Hnot) as (d & Hd & Hread).
  exists d. split; [exact Hd|].
  apply (year_cell_truthy env rowData r key field _ _ Hkey Hr Hcell);
    [|exact Hread].
  cbn [truthy is_zero]. now destruct (Z.eqb_spec m 0).
Qed.

Lemma X3_witness :
  ~ plain 25 20
  /\ exists r,
      normalizeRow no_geocoding huge = Some r
      /\ exists d, 1 <= d <= 9 /\ sales2022 r = Z.sgn 25 * d.
Proof.
  assert (Hnot : ~ plain 25 20).
  { intros [_ H]. vm_compute in H. discriminate H. }
  split; [exact Hnot|].
  eexists. split; [vm_compute; reflexivity|].
  apply (proj2 X3_exponent_figure_is_one_digit no_geocoding huge _
           "2022" sales2022 25 20).
  - left. reflexivity.
  - vm_compute. reflexivity.
  - reflexivity.
  - discriminate.
  - exact Hnot.
Defined.

(** X4.  [parseFloat] of the text of a number is that number, so when
    the coordinates come from the row (no key, or geocoding gave
    nothing) a [Latitude] or [Longitude] cell that holds a number is
    stored with the value it has. *)
Theorem X4_numeric_coordinates_kept :
  (forall x, same_number (parseFloat (Num x)) x)
  /\ (forall env rowData r,
       normalizeRow env rowData = Some r ->
       unresolved env (Str (state r)) (Str (city r)) ->
       (forall x, get rowData "Latitude" = Num x -> truthy (Num x) = true ->
                  same_number (latitude r) x)
       /\ (forall y, get rowData "Longitude" = Num y -> truthy (Num y) = true ->
                     same_number (longitude r) y)).
Proof.
  split; [exact parseFloat_number|].
  intros env rowData r Hr Hu.
  apply normalizeRow_Some in Hr as (_ & _ & _ & _ & Hco & _).
  rewrite (resolveCoordinates_unresolved _ _ _ _ Hu) in Hco.
  unfold excelCoordinates in Hco. injection Hco as Hla Hlo.
  split.
  - intros x Hcell Ht. rewrite <- Hla, either_first, Hcell by (now rewrite Hcell).
    apply parseFloat_number.
  - intros y Hcell Ht. rewrite <- Hlo, either_first, Hcell by (now rewrite Hcell).
    apply parseFloat_number.
Qed.

Lemma X4_witness :
  normalizeRow no_geocoding bengaluru = Some bengaluru_record
  /\ unresolved no_geocoding (Str "Karnataka") (Str "Bengaluru")
  /\ same_number (latitude bengaluru_record) (Finite 1297 (-2))
  /\ same_number (longitude bengaluru_record) (Finite 7759 (-2)).
Proof.
  assert (Hr : normalizeRow no_geocoding bengaluru = Some bengaluru_record)
    by (vm_compute; reflexivity).
  assert (Hu : unresolved no_geocoding (Str "Karnataka") (Str "Bengaluru"))
    by (left; reflexivity).
  split; [exact Hr|]. split; [exact Hu|].
  destruct (proj2 X4_numeric_coordinates_kept no_geocoding bengaluru
              bengaluru_record Hr Hu) as [Hla Hlo].
  split; [apply Hla | apply Hlo]; reflexivity.
Defined.



(** ** Which cells of a row are read *)

Section Columns.

Variable env : Env.

(** The row is read through these nine expressions only. *)
Lemma normalizeRow_reads rowData rowData' :
  either rowData "State" "state" "" = either rowData' "State" "state" "" ->
  either rowData "City" "city" "" = either rowData' "City" "city" "" ->
  either rowData "Latitude" "latitude" "0" = either rowData' "Latitude" "latitude" "0" ->
  either rowData "Longitude" "longitude" "0" = either rowData' "Longitude" "longitude" "0" ->
  cell_or rowData "2022" "0" = cell_or rowData' "2022" "0" ->
  cell_or rowData "2023" "0" = cell_or rowData' "2023" "0" ->
  cell_or rowData "2024" "0" = cell_or rowData' "2024" "0" ->
  cell_or rowData "2025" "0" = cell_or rowData' "2025" "0" ->
  either rowData "Total" "total" "0" = either rowData' "Total" "total" "0" ->
  normalizeRow env rowData = normalizeRow env rowData'.
Proof.
  intros H1 H2 H3 H4 H5 H6 H7 H8 H9.
  unfold normalizeRow, buildCandidate, resolveCoordinates, excelCoordinates.
  now rewrite H1, H2, H3, H4, H5, H6, H7, H8, H9.
Qed.

Lemma get_insert_ne (rowData : Row) key key' v :
  key <> key' -> get (<[key := v]> rowData) key' = get rowData key'.
Proof. intros Hne. unfold get. now rewrite lookup_insert_ne. Qed.

Lemma either_insert (rowData : Row) key v key1 key2 d :
  key <> key1 -> key <> key2 ->
  either (<[key := v]> rowData) key1 key2 d = either rowData key1 key2 d.
Proof. intros H1 H2. unfold either. now rewrite !get_insert_ne. Qed.

Lemma cell_or_insert (rowData : Row) key v key' d :
  key <> key' -> cell_or (<[key := v]> rowData) key' d = cell_or rowData key' d.
Proof. intros Hne. unfold cell_or. now rewrite get_insert_ne. Qed.

(** The second spelling is not looked at when the first has a value. *)
Lemma either_shadowed (rowData : Row) key1 key2 v d :
  key1 <> key2 -> truthy (get rowData key1) = true ->
  either (<[key2 := v]> rowData) key1 key2 d = either rowData key1 key2 d.
Proof.
  intros Hne Ht. rewrite !either_first; [now apply get_insert_ne | assumption |].
  rewrite get_insert_ne by congruence. assumption.
Qed.

(** With an answer of the service, the coordinates are its first result. *)
Lemma resolveCoordinates_geocoded rowData st ci location more :
  truthy (apiKey env) = true -> st <> "" -> ci <> "" ->
  fetchGeocode env (to_string (apiKey env)) (ci +:+ ", " +:+ st +:+ ", India")
  = GeocodeData "OK" (location :: more) ->
  resolveCoordinates env rowData (Str st) (Str ci) = location.
Proof.
  intros Hkey Hst Hci Hfetch. unfold resolveCoordinates. rewrite Hkey.
  cbn [truthy]. destruct (String.eqb_spec st ""); [contradiction|].
  destruct (String.eqb_spec ci ""); [contradiction|].
  cbn [negb andb]. unfold address. cbn [to_string]. rewrite Hfetch.
  reflexivity.
Qed.

End Columns.

(** X5.  When the geocoding service answers [OK] for the address
    "city, state, India", its first result decides: the record stores
    that latitude and longitude and the row's own coordinate columns
    have no say; and if that latitude or longitude is 0 the row is
    skipped although its own columns may hold coordinates. *)
Theorem X5_geocoded_coordinates_win :
  (forall env rowData r la lo more,
      normalizeRow env rowData = Some r ->
      truthy (apiKey env) = true ->
      fetchGeocode env (to_string (apiKey env))
        (city r +:+ ", " +:+ state r +:+ ", India")
      = GeocodeData "OK" ((la, lo) :: more) ->
      la = Num (latitude r) /\ lo = Num (longitude r)
      /\ forall key v, In key coordinateColumns ->
           normalizeRow env (<[key := v]> rowData) = Some r)
  /\ (forall env rowData st ci la lo more,
       either rowData "State" "state" "" = Str st ->
       either rowData "City" "city" "" = Str ci ->
       truthy (apiKey env) = true ->
       fetchGeocode env (to_string (apiKey env)) (ci +:+ ", " +:+ st +:+ ", India")
       = GeocodeData "OK" ((la, lo) :: more) ->
       strict_eq_zero la = true \/ strict_eq_zero lo = true ->
       normalizeRow env rowData = None).
Proof.
  split.
  - intros env rowData r la lo more Hr Hkey Hfetch.
    pose proof Hr as Hfields.
    apply normalizeRow_Some in Hfields
      as (Hst & Hsne & Hci & Hcne & Hco & Hla & Hlo & H22 & H23 & H24 & H25 & Ht).
    rewrite (resolveCoordinates_geocoded env rowData _ _ (la, lo) more) in Hco
      by assumption.
    injection Hco as -> ->. split; [reflexivity|]. split; [reflexivity|].
    intros key v Hin. apply normalizeRow_Some.
    assert (Hother : forall key1 key2 d,
               ~ In key1 coordinateColumns -> ~ In key2 coordinateColumns ->
               either (<[key := v]> rowData) key1 key2 d = either rowData key1 key2 d).
    { intros key1 key2 d H1 H2. apply either_insert; congruence. }
    assert (Hcell : forall key' d,
               ~ In key' coordinateColumns ->
               cell_or (<[key := v]> rowData) key' d = cell_or rowData key' d).
    { intros key' d H1. apply cell_or_insert. congruence. }
    assert (Hnot : forall k, k <> "Latitude" -> k <> "latitude" -> k <> "Longitude"
                             -> k <> "longitude" -> ~ In k coordinateColumns).
    { intros k ? ? ? ? [<- | [<- | [<- | [<- | []]]]]; contradiction. }
    rewrite !Hother, !Hcell by (apply Hnot; discriminate).
    rewrite (resolveCoordinates_geocoded env _ _ _ (Num (latitude r), Num (longitude r)) more)
      by assumption.
    repeat split; try assumption; tauto.
  - intros env rowData st ci la lo more Hst Hci Hkey Hfetch Hzero.
    destruct (String.eqb_spec st "") as [-> | Hsne].
    { apply normalizeRow_guard. left. now rewrite Hst. }
    destruct (String.eqb_spec ci "") as [-> | Hcne].
    { apply normalizeRow_guard. right. left. now rewrite Hci. }
    apply normalizeRow_guard. right. right. rewrite Hst, Hci.
    now rewrite (resolveCoordinates_geocoded env rowData _ _ (la, lo) more).
Qed.

Lemma X5_witness :
  normalizeRow (geocoding (Num (Finite 1297 (-2))) (Num (Finite 7759 (-2)))) elsewhere
  = Some bengaluru_record
  /\ normalizeRow (geocoding (Num (int 0)) (Num (Finite 7759 (-2)))) bengaluru = None.
Proof.
  split.
  - destruct (proj1 X5_geocoded_coordinates_win
                (geocoding (Num (Finite 1297 (-2))) (Num (Finite 7759 (-2))))
                bengaluru bengaluru_record
                (Num (Finite 1297 (-2))) (Num (Finite 7759 (-2))) [])
      as (_ & _ & Hcolumns).
    + vm_compute. reflexivity.
    + reflexivity.
    + reflexivity.
    + apply (Hcolumns "Latitude" (Num (Finite 10 0))). left. reflexivity.
  - apply (proj2 X5_geocoded_coordinates_win
             (geocoding (Num (int 0)) (Num (Finite 7759 (-2))))
             bengaluru "Karnataka" "Bengaluru" (Num (int 0)) (Num (Finite 7759 (-2))) []).
    + vm_compute. reflexivity.
    + vm_compute. reflexivity.
    + reflexivity.
    + reflexivity.
    + left. reflexivity.
Defined.

(** X6.  The route reads fourteen headers and no other: a column under
    any other header, whatever it holds, changes nothing in what
    becomes of the row. *)
Theorem X6_other_columns_ignored (env : Env) (rowData : Row) (key : string) (v : value) :
  ~ In key columns ->
  normalizeRow env (<[key := v]> rowData) = normalizeRow env rowData
  /\ normalizeRow env (delete key rowData) = normalizeRow env rowData.
Proof.
  intros Hnot.
  assert (Hne : forall key', In key' columns -> key <> key')
    by (intros key' Hin ->; contradiction).
  split.
  - apply normalizeRow_reads;
      (apply either_insert || apply cell_or_insert);
      apply Hne; unfold columns; simpl; tauto.
  - apply normalizeRow_reads;
      (apply either_delete || apply cell_or_delete_ne);
      apply Hne; unfold columns; simpl; tauto.
Qed.

Lemma X6_witness :
  ~ In "Region" columns
  /\ normalizeRow no_geocoding with_region = Some bengaluru_record.
Proof.
  assert (Hnot : ~ In "Region" columns).
  { unfold columns. simpl. intros H.
    repeat (destruct H as [H | H]; [discriminate H|]). exact H. }
  split; [exact Hnot|].
  unfold with_region.
  rewrite (proj1 (X6_other_columns_ignored no_geocoding bengaluru "Region"
                    (Str "South") Hnot)).
  vm_compute. reflexivity.
Defined.

(** X7.  Of the two spellings of a header the capitalised one is read
    first: when its cell has a value (it is not missing, empty or zero),
    the cell under the lower-case spelling is not looked at. *)
Theorem X7_capitalised_header_first
    (env : Env) (rowData : Row) (upper lower : string) (v : value) :
  In (upper, lower) headerPairs ->
  truthy (get rowData upper) = true ->
  normalizeRow env (<[lower := v]> rowData) = normalizeRow env rowData.
Proof.
  intros Hpair Ht. unfold headerPairs in Hpair. simpl in Hpair.
  destruct Hpair as [E | [E | [E | [E | [E | []]]]]]; injection E as <- <-;
    apply normalizeRow_reads;
    try (apply either_shadowed; [discriminate | exact Ht]);
    try (apply either_insert; discriminate);
    apply cell_or_insert; discriminate.
Qed.

Lemma X7_witness :
  truthy (get bengaluru "State") = true
  /\ normalizeRow no_geocoding both_spellings = Some bengaluru_record.
Proof.
  assert (Ht : truthy (get bengaluru "State") = true) by reflexivity.
  split; [exact Ht|].
  unfold both_spellings.
  rewrite (X7_capitalised_header_first no_geocoding bengaluru "State" "state"
             (Str "Kerala") (or_introl eq_refl) Ht).
  vm_compute. reflexivity.
Defined.

(** ** The store under the requests *)

Section Requests.

Context {S : Type} `{IStorage S}.
Variable env : Env.

Lemma upload_single_inr part file :
  upload_single part = inr (Some file) ->
  part = Some file /\ In (mimetype file) allowedTypes /\ size file <= fileSize.
Proof.
  unfold upload_single, fileFilter. destruct part as [f|]; [|discriminate].
  destruct (existsb (String.eqb (mimetype f)) allowedTypes) eqn:Hm; [|discriminate].
  destruct (Z.ltb_spec fileSize (size f)); [discriminate|].
  intros E. injection E as <-. split; [reflexivity|]. split; [|assumption].
  apply existsb_exists in Hm as (t & Ht & Heq).
  apply String.eqb_eq in Heq. now subst t.
Qed.

(** What the handler of the upload route leaves in the store. *)
Lemma uploadExcel_cases file st :
  (snd (uploadExcel env file st) = st
   /\ exists message,
        fst (uploadExcel env file st) = Response 400 (Message message)
        \/ fst (uploadExcel env file st) = Response 500 (Message message))
  \/ exists f sheets message data,
       file = Some f /\ buffer f = Workbook sheets
       /\ fst (uploadExcel env file st)
          = Response 200 (Imported message (length data) data)
       /\ data <> []
       /\ map fields data = omap (normalizeRow env) (hd [] sheets)
       /\ getAllSalesData (snd (uploadExcel env file st)) = data.
Proof.
  destruct file as [f|]; [|left; split; [reflexivity | eexists; now left]].
  destruct (buffer f) as [message | sheets] eqn:Hbuf.
  { left. unfold uploadExcel. rewrite Hbuf.
    split; [reflexivity | eexists; now right]. }
  destruct (omap (normalizeRow env) (hd [] sheets)) as [|r rs] eqn:Hacc.
  - left. unfold uploadExcel. rewrite Hbuf, collectRows_omap, Hacc.
    split; [reflexivity | eexists; now left].
  - right.
    destruct (uploadExcel_replaces env f sheets st Hbuf)
      as (message & data & st' & Hup & Hfields & Hall); [now rewrite Hacc|].
    exists f, sheets, message, data. rewrite Hup. cbn [fst snd].
    assert (Hlen : length (omap (normalizeRow env) (hd [] sheets)) = length data)
      by (now rewrite <- Hfields, length_map).
    rewrite Hlen. repeat split; try assumption.
    intros ->. rewrite Hacc in Hfields. discriminate Hfields.
Qed.

Lemma registerRoutes_provenance req st item :
  In item (getAllSalesData (snd (registerRoutes env req st))) ->
  In item (getAllSalesData st) \/ uploaded_by env [req] item.
Proof.
  destruct req as [|part| |address| |]; cbn [registerRoutes]; try (now left).
  - unfold postUploadExcel.
    destruct (upload_single part) as [message | file] eqn:Hpart; [now left|].
    destruct (uploadExcel_cases file st)
      as [[-> _] | (f & sheets & message & data & -> & Hbuf & _ & _ & Hfields & ->)];
      [now left|].
    intros Hin. right.
    apply upload_single_inr in Hpart as (-> & Hm & Hs).
    assert (Hr : In (fields item) (omap (normalizeRow env) (hd [] sheets)))
      by (rewrite <- Hfields; now apply in_map).
    apply list_elem_of_In, list_elem_of_omap in Hr as (row & Hrow & Hnorm).
    exists f, sheets, row. apply list_elem_of_In in Hrow.
    repeat split; try assumption. now left.
  - unfold postGeocode. destruct (negb _); [now left|].
    destruct (fetchJson _ _ _); now left.
  - cbn [postClearSalesData snd]. rewrite getAll_clear. intros [].
Qed.

Lemma uploaded_by_more reqs reqs' item :
  (forall req, In req reqs -> In req reqs') ->
  uploaded_by env reqs item -> uploaded_by env reqs' item.
Proof.
  intros Hsub (file & sheets & row & Hin & Hrest).
  exists file, sheets, row. split; [now apply Hsub | exact Hrest].
Qed.

Lemma run_provenance reqs : forall st item,
  In item (getAllSalesData (run env reqs st)) ->
  In item (getAllSalesData st) \/ uploaded_by env reqs item.
Proof.
  induction reqs as [|req reqs IH]; intros st item Hin; [now left|].
  cbn [run] in Hin. apply IH in Hin as [Hin | Hup].
  - apply registerRoutes_provenance in Hin as [Hin | Hup]; [now left|].
    right. apply (uploaded_by_more [req]); [|exact Hup].
    intros req' [<- | []]. now left.
  - right. apply (uploaded_by_more reqs); [|exact Hup].
    intros req' Hreq. now right.
Qed.

End Requests.

(** X8.  A row that is skipped leaves no trace, and only the first
    sheet is read: the response and the store are those of the workbook
    without the skipped row and without the other sheets. *)
Theorem X8_skipped_rows_leave_no_trace
    (S : Type) (storage : IStorage S) (env : Env)
    (type : string) (bytes : Z) (rows1 rows2 : list Row) (skipped : Row)
    (others : list (list Row)) (st : S) :
  normalizeRow env skipped = None ->
  uploadExcel env
    (Some {| mimetype := type; size := bytes;
             buffer := Workbook ((rows1 ++ skipped :: rows2) :: others) |}) st
  = uploadExcel env
      (Some {| mimetype := type; size := bytes;
               buffer := Workbook [rows1 ++ rows2] |}) st.
Proof.
  intros Hskip. unfold uploadExcel. cbn [buffer hd].
  rewrite !collectRows_omap, !omap_app. cbn [omap list_omap].
  now rewrite Hskip.
Qed.

Lemma X8_witness :
  normalizeRow no_geocoding empty_state = None
  /\ uploadExcel no_geocoding (Some sales_file) old_store
     = uploadExcel no_geocoding
         (Some {| mimetype := xlsx; size := 4096;
                  buffer := Workbook [[bengaluru; no_coordinates]] |})
         old_store.
Proof.
  assert (Hskip : normalizeRow no_geocoding empty_state = None)
    by (vm_compute; reflexivity).
  split; [exact Hskip|].
  exact (X8_skipped_rows_leave_no_trace MemStorage _ no_geocoding xlsx 4096
           [] [bengaluru; no_coordinates] empty_state [] old_store Hskip).
Defined.

(** X9.  The store is written only by a clear and by an upload that
    passed the middleware, was read as a workbook and has an accepted
    row in its first sheet: any other request leaves the store as it
    was.  So does every request that ends in an error of the middleware
    or in a 400.  The routes themselves answer with 200, 400 or 500. *)
Theorem X9_store_written_only_by_clear_and_upload
    (S : Type) (storage : IStorage S) (env : Env) (req : Request) (st : S) :
  (~ writes env req -> snd (registerRoutes env req st) = st)
  /\ (forall message,
       fst (registerRoutes env req st) = NextError message ->
       snd (registerRoutes env req st) = st)
  /\ (forall body,
       fst (registerRoutes env req st) = Response 400 body ->
       snd (registerRoutes env req st) = st)
  /\ (forall status body,
       fst (registerRoutes env req st) = Response status body ->
       In status [200; 400; 500]).
Proof.
  destruct req as [|part| |address| |]; cbn [registerRoutes].
  - repeat split. intros status body E. injection E as <- _. now left.
  - unfold postUploadExcel.
    destruct (upload_single part) as [message | file] eqn:Hpart.
    { repeat split. discriminate. }
    destruct (uploadExcel_cases env file st)
      as [[Hst [message Hcode]]
         | (f & sheets & message & data & -> & Hbuf & Hup & Hne & Hfields & Hall)].
    + rewrite Hst. repeat split.
      intros status body E.
      destruct Hcode as [Hcode | Hcode]; rewrite Hcode in E;
        injection E as <- _; simpl; auto.
    + apply upload_single_inr in Hpart as (-> & Hm & Hs).
      rewrite Hup. cbn [fst]. split; [|split; [discriminate|split; [discriminate|]]].
      * intros Hnot. exfalso. apply Hnot. right. exists f, sheets.
        repeat split; try assumption.
        rewrite <- Hfields. intros E. apply map_eq_nil in E. contradiction.
      * intros status body E. injection E as <- _. now left.
  - repeat split. intros status body E. injection E as <- _. now left.
  - unfold postGeocode. destruct (negb _).
    { repeat split. intros status body E. injection E as <- _. simpl. auto. }
    destruct (fetchJson _ _ _); repeat split;
      intros status body E; injection E as <- _; simpl; auto.
  - repeat split. intros status body E. injection E as <- _. now left.
  - cbn [postClearSalesData fst snd].
    split; [intros Hnot; exfalso; apply Hnot; now left|].
    split; [discriminate|]. split; [discriminate|].
    intros status body E. injection E as <- _. now left.
Qed.

Lemma X9_witness :
  ~ writes no_geocoding (PostUploadExcel (Some text_file))
  /\ snd (registerRoutes no_geocoding (PostUploadExcel (Some text_file)) old_store)
     = old_store.
Proof.
  assert (Hnot : ~ writes no_geocoding (PostUploadExcel (Some text_file))).
  { intros [E | (file & sheets & E & Hm & _)]; [discriminate E|].
    injection E as <-. unfold allowedTypes in Hm. simpl in Hm.
    destruct Hm as [E | [E | [E | []]]]; discriminate E. }
  split; [exact Hnot|].
  exact (proj1 (X9_store_written_only_by_clear_and_upload MemStorage _ no_geocoding
                  (PostUploadExcel (Some text_file)) old_store) Hnot).
Defined.

(** X10.  Whatever requests the server handles, a record of the store
    was either there at the start or is the record of a row of the
    first sheet of a file that one of the requests uploaded, of an
    accepted type and within the size limit: no other route and no
    refused upload puts a record in the store. *)
Theorem X10_stored_records_come_from_uploads
    (S : Type) (storage : IStorage S) (env : Env) (reqs : list Request) (st : S) :
  Forall (fun item => In item (getAllSalesData st) \/ uploaded_by env reqs item)
         (getAllSalesData (run env reqs st)).
Proof.
  apply List.Forall_forall. intros item. apply run_provenance.
Qed.

(** X18.  A file whose MIME type is none of the three accepted ones, or
    whose size exceeds 10 MiB, is refused by the upload middleware with
    its error (for a wrong type, "Invalid file type. Please upload an
    Excel file.") before the route handler runs: whatever the buffer
    holds it is not read, no address is geocoded, and the store is
    untouched. *)
Theorem X18_refused_upload_is_not_parsed
    (S : Type) (storage : IStorage S) (env : Env) (file : File) (st : S) :
  ~ In (mimetype file) allowedTypes \/ fileSize < size file ->
  exists message,
    postUploadExcel env (Some file) st = (NextError message, st)
    /\ (~ In (mimetype file) allowedTypes ->
        message = "Invalid file type. Please upload an Excel file.")
    /\ forall env' content,
        postUploadExcel env'
          (Some {| mimetype := mimetype file; size := size file; buffer := content |})
          st
        = (NextError message, st).
Proof.
  intros Hbad.
  exists (if existsb (String.eqb (mimetype file)) allowedTypes
          then "File too large"
          else "Invalid file type. Please upload an Excel file.").
  unfold postUploadExcel. split; [|split].
  - now rewrite upload_single_refuses.
  - intros Hnot.
    destruct (existsb (String.eqb (mimetype file)) allowedTypes) eqn:Hm;
      [|reflexivity].
    exfalso. apply Hnot. apply existsb_exists in Hm as (t & Ht & Heq).
    apply String.eqb_eq in Heq. now subst t.
  - intros env' content. now rewrite upload_single_refuses.
Qed.

Lemma X18_witness :
  fileSize < size oversize_file
  /\ exists message,
      postUploadExcel no_geocoding (Some oversize_file) old_store
      = (NextError message, old_store).
Proof.
  assert (Hbig : fileSize < size oversize_file) by reflexivity.
  split; [exact Hbig|].
  destruct (X18_refused_upload_is_not_parsed MemStorage _ no_geocoding
              oversize_file old_store (or_intror Hbig))
    as (message & Hup & _).
  exists message. exact Hup.
Defined.

(** ** The figures of the analytics route *)

Section Counts.

Lemma summarize_counts data :
  totalMarkets (summarize data) = length data
  /\ totalSales2024 (summarize data)
     = fold_left (fun sum (item : SalesData) => sum + sales2024 item) data 0
  /\ activeMarkets (summarize data) = length (List.filter isActive data)
  /\ growthMarkets (summarize data) = length (List.filter isGrowthMarket data)
  /\ emergingMarkets (summarize data) = length (List.filter isEmergingMarket data).
Proof. destruct data; repeat split. Qed.

Lemma filter_length_le {A} (f : A -> bool) l :
  (length (List.filter f l) <= length l)%nat.
Proof. induction l as [|x l IH]; simpl; [lia|]. destruct (f x); simpl; lia. Qed.

Lemma filter_length_all {A} (f : A -> bool) l :
  length (List.filter f l) = length l <-> List.Forall (fun x => f x = true) l.
Proof.
  induction l as [|x l IH]; simpl.
  - split; [constructor | reflexivity].
  - pose proof (filter_length_le f l). destruct (f x) eqn:Hx; simpl.
    + split.
      * intros E. constructor; [exact Hx | apply IH; lia].
      * intros Hall. f_equal. apply IH. now apply List.Forall_inv_tail in Hall.
    + split; [lia|]. intros Hall. apply List.Forall_inv in Hall. congruence.
Qed.

Lemma filter_length_perm {A} (f : A -> bool) l l' :
  Permutation l l' -> length (List.filter f l) = length (List.filter f l').
Proof.
  induction 1 as [|x l l' _ IH|x y l|l l' l'' _ IH1 _ IH2]; simpl.
  - reflexivity.
  - destruct (f x); simpl; now rewrite IH.
  - destruct (f x), (f y); reflexivity.
  - now rewrite IH1.
Qed.

Lemma sum_from (g : SalesData -> Z) data : forall acc,
  fold_left (fun sum item => sum + g item) data acc
  = acc + fold_left (fun sum item => sum + g item) data 0.
Proof.
  induction data as [|x data IH]; intros acc; simpl; [lia|].
  rewrite IH, (IH (0 + g x)). lia.
Qed.

Lemma sum_perm (g : SalesData -> Z) l l' :
  Permutation l l' ->
  fold_left (fun sum item => sum + g item) l 0
  = fold_left (fun sum item => sum + g item) l' 0.
Proof.
  induction 1 as [|x l l' _ IH|x y l|l l' l'' _ IH1 _ IH2]; simpl.
  - reflexivity.
  - rewrite sum_from, (sum_from g l'), IH. reflexivity.
  - rewrite (sum_from g l (0 + g y + g x)), (sum_from g l (0 + g x + g y)). lia.
  - now rewrite IH1.
Qed.

Lemma magnitude2024_nonneg data : 0 <= magnitude2024 data.
Proof.
  induction data as [|x data IH]; [reflexivity|].
  cbn [magnitude2024 fold_right]. fold (magnitude2024 data). lia.
Qed.

Lemma magnitude2024_perm l l' :
  Permutation l l' -> magnitude2024 l = magnitude2024 l'.
Proof.
  induction 1 as [|x l l' _ IH|x y l|l l' l'' _ IH1 _ IH2].
  - reflexivity.
  - cbn [magnitude2024 fold_right]. fold (magnitude2024 l) (magnitude2024 l'). lia.
  - cbn [magnitude2024 fold_right]. lia.
  - congruence.
Qed.

(** While the magnitudes add up to less than 2^53, the binary64 sum is
    the sum of the integers. *)
Lemma sum_fl data : forall acc,
  Z.abs acc + magnitude2024 data < 2 ^ 53 ->
  fold_left (fun sum (item : SalesData) =>
               SpecFloat.SFadd B64.prec B64.emax sum (B64.of_Z (sales2024 item)))
            data (B64.fl acc)
  = B64.fl (fold_left (fun sum (item : SalesData) => sum + sales2024 item) data acc).
Proof.
  induction data as [|x data IH]; intros acc Hacc; [reflexivity|].
  cbn [fold_left].
  change (magnitude2024 (x :: data))
    with (Z.abs (sales2024 x) + magnitude2024 data) in Hacc.
  pose proof (magnitude2024_nonneg data) as Hm.
  rewrite (B64Facts.of_Z_fl (sales2024 x)), B64Facts.SFadd_fl by lia.
  apply IH. lia.
Qed.

Lemma totalSales2024_fl data :
  magnitude2024 data < 2 ^ 53 ->
  B64.totalSales2024 data = B64.fl (totalSales2024 (summarize data)).
Proof.
  intros Hm. destruct (summarize_counts data) as (_ & -> & _).
  unfold B64.totalSales2024. change (B64.of_Z 0) with (B64.fl 0).
  apply sum_fl. simpl Z.abs. lia.
Qed.

End Counts.

(** X12.  The counts of the analytics are counts of stored records:
    [totalMarkets] is their number, and [activeMarkets] and
    [growthMarkets] never exceed it; every market is active exactly when
    every stored total is positive. *)
Theorem X12_counts_are_bounded (data : list SalesData) :
  totalMarkets (summarize data) = length data
  /\ (activeMarkets (summarize data) <= totalMarkets (summarize data))%nat
  /\ (growthMarkets (summarize data) <= totalMarkets (summarize data))%nat
  /\ (activeMarkets (summarize data) = totalMarkets (summarize data)
      <-> List.Forall (fun item : SalesData => 0 < total item) data).
Proof.
  destruct (summarize_counts data) as (-> & _ & -> & -> & _).
  split; [reflexivity|]. split; [apply filter_length_le|].
  split; [apply filter_length_le|].
  rewrite filter_length_all. unfold isActive.
  split; apply List.Forall_impl; intros item; apply Z.ltb_lt.
Qed.

Lemma X12_witness :
  List.Forall (fun item : SalesData => 0 < total item) [zero_base; old_record]
  /\ activeMarkets (summarize [zero_base; old_record])
     = totalMarkets (summarize [zero_base; old_record]).
Proof.
  assert (Hall : List.Forall (fun item : SalesData => 0 < total item)
                   [zero_base; old_record])
    by (repeat constructor).
  split; [exact Hall|].
  apply (X12_counts_are_bounded [zero_base; old_record]). exact Hall.
Defined.

(** X13.  The counts of the analytics do not depend on the order in
    which the store returns its records, whether the growth filters are
    taken on exact quotients or on binary64 numbers.  Nor does the 2024
    sales total while the magnitudes of the 2024 sales add up to less
    than 2^53: the binary64 sum of line 181 is then the sum of the
    integers, in any order. *)
Theorem X13_metrics_ignore_order (data data' : list SalesData) :
  Permutation data data' ->
  totalMarkets (summarize data) = totalMarkets (summarize data')
  /\ activeMarkets (summarize data) = activeMarkets (summarize data')
  /\ growthMarkets (summarize data) = growthMarkets (summarize data')
  /\ emergingMarkets (summarize data) = emergingMarkets (summarize data')
  /\ length (List.filter B64.isGrowthMarket data)
     = length (List.filter B64.isGrowthMarket data')
  /\ length (List.filter B64.isEmergingMarket data)
     = length (List.filter B64.isEmergingMarket data')
  /\ (magnitude2024 data < 2 ^ 53 ->
      B64.totalSales2024 data = B64.fl (totalSales2024 (summarize data))
      /\ B64.totalSales2024 data' = B64.totalSales2024 data).
Proof.
  intros Hperm.
  destruct (summarize_counts data) as (Ht & Hs & Ha & Hg & He).
  destruct (summarize_counts data') as (Ht' & Hs' & Ha' & Hg' & He').
  rewrite Ht, Ht', Ha, Ha', Hg, Hg', He, He'.
  split; [now apply Permutation_length|].
  split; [now apply filter_length_perm|].
  split; [now apply filter_length_perm|].
  split; [now apply filter_length_perm|].
  split; [now apply filter_length_perm|].
  split; [now apply filter_length_perm|].
  intros Hm. split; [now apply totalSales2024_fl|].
  rewrite !totalSales2024_fl
    by (rewrite <- ?(magnitude2024_perm _ _ Hperm); exact Hm).
  f_equal. rewrite Hs, Hs'. symmetry. now apply (sum_perm sales2024).
Qed.

Lemma X13_witness :
  Permutation [zero_base; old_record] [old_record; zero_base]
  /\ magnitude2024 [zero_base; old_record] < 2 ^ 53
  /\ growthMarkets (summarize [zero_base; old_record])
     = growthMarkets (summarize [old_record; zero_base])
  /\ B64.totalSales2024 [old_record; zero_base]
     = B64.totalSales2024 [zero_base; old_record].
Proof.
  assert (Hperm : Permutation [zero_base; old_record] [old_record; zero_base])
    by apply perm_swap.
  assert (Hm : magnitude2024 [zero_base; old_record] < 2 ^ 53) by reflexivity.
  split; [exact Hperm|]. split; [exact Hm|].
  destruct (X13_metrics_ignore_order _ _ Hperm)
    as (_ & _ & Hgrowth & _ & _ & _ & Hsum).
  split; [exact Hgrowth | exact (proj2 (Hsum Hm))].
Defined.

(** ** The keys of the geocoding routes *)

Section Keys.

Lemma truthy_env_value o : truthy (env_value o) = false <-> unset o.
Proof.
  unfold unset. destruct o as [s|]; simpl.
  - destruct (String.eqb_spec s ""); simpl; split; intros E; try congruence.
    + right. congruence.
    + destruct E as [E | E]; congruence.
  - split; auto.
Qed.

Lemma truthy_env_value_Some key :
  key <> "" -> truthy (env_value (Some key)) = true.
Proof. intros Hne. simpl. now destruct (String.eqb_spec key ""). Qed.

Lemma apiKey_unset env :
  truthy (apiKey env) = false
  <-> unset (GOOGLE_MAP_API env) /\ unset (GOOGLE_GEOCODING_API env).
Proof.
  unfold apiKey, or. rewrite <- !truthy_env_value.
  destruct (truthy (env_value (GOOGLE_MAP_API env))) eqn:E.
  - rewrite E. split; [discriminate | intros [? _]; discriminate].
  - tauto.
Qed.

Lemma apiKey_set env key :
  key <> "" ->
  (GOOGLE_MAP_API env = Some key
   \/ (unset (GOOGLE_MAP_API env) /\ GOOGLE_GEOCODING_API env = Some key)) ->
  apiKey env = Str key.
Proof.
  intros Hne [E | [Hu E]]; unfold apiKey.
  - rewrite E. apply or_truthy. now apply truthy_env_value_Some.
  - rewrite or_falsy by (now apply truthy_env_value). now rewrite E.
Qed.

Lemma apiKey_cases env :
  (truthy (apiKey env) = false /\ unset (GOOGLE_MAP_API env)
   /\ unset (GOOGLE_GEOCODING_API env))
  \/ exists key,
       key <> "" /\ apiKey env = Str key
       /\ (GOOGLE_MAP_API env = Some key
           \/ (unset (GOOGLE_MAP_API env) /\ GOOGLE_GEOCODING_API env = Some key)).
Proof.
  destruct (truthy (apiKey env)) eqn:Ht.
  - right. unfold apiKey, or in *.
    destruct (truthy (env_value (GOOGLE_MAP_API env))) eqn:E1.
    + destruct (GOOGLE_MAP_API env) as [k|]; [|discriminate].
      exists k. simpl in E1. destruct (String.eqb_spec k ""); [discriminate|]. auto.
    + apply truthy_env_value in E1.
      destruct (GOOGLE_GEOCODING_API env) as [k|]; [|discriminate].
      exists k. simpl in Ht. destruct (String.eqb_spec k ""); [discriminate|]. auto.
  - left. split; [reflexivity|]. now apply apiKey_unset.
Qed.

End Keys.

(** X15.  The maps configuration route answers with the key that the
    upload route geocodes with: [GOOGLE_MAP_API] when it is set,
    otherwise [GOOGLE_GEOCODING_API], and null when neither is set (or
    both are empty).  It never answers with the browser key
    [VITE_GOOGLE_MAPS_API_KEY], and it leaves the store as it is. *)
Theorem X15_maps_config_key
    (S : Type) (storage : IStorage S) (env : Env) (st : S) :
  snd (getMapsConfig env st) = st
  /\ (fst (getMapsConfig env st) = Response 200 (MapsConfig None)
      <-> unset (GOOGLE_MAP_API env) /\ unset (GOOGLE_GEOCODING_API env))
  /\ (forall key,
       fst (getMapsConfig env st) = Response 200 (MapsConfig (Some key))
       <-> key <> ""
           /\ (GOOGLE_MAP_API env = Some key
               \/ (unset (GOOGLE_MAP_API env)
                   /\ GOOGLE_GEOCODING_API env = Some key)))
  /\ (forall key,
       fst (getMapsConfig env st) = Response 200 (MapsConfig (Some key)) ->
       truthy (apiKey env) = true /\ to_string (apiKey env) = key).
Proof.
  split; [reflexivity|]. unfold getMapsConfig. cbn [fst].
  destruct (apiKey_cases env) as [(Ht & H1 & H2) | (k & Hne & Hk & Hsrc)].
  - assert (Hnone : match apiKey env with
                    | Str key => if truthy (Str key) then Some key else None
                    | _ => None
                    end = None).
    { destruct (apiKey env) as [| | | |s]; try reflexivity. now rewrite Ht. }
    rewrite Hnone. split; [tauto|]. split.
    + intros key. split; [discriminate|].
      intros (Hne & [E | [_ E]]); exfalso.
      * destruct H1 as [H1 | H1]; congruence.
      * destruct H2 as [H2 | H2]; congruence.
    + discriminate.
  - rewrite Hk. rewrite (truthy_env_value_Some k Hne : truthy (Str k) = true).
    split.
    { split; [discriminate|]. intros [H1 H2]. exfalso.
      destruct Hsrc as [E | [_ E]].
      - destruct H1 as [H1 | H1]; congruence.
      - destruct H2 as [H2 | H2]; congruence. }
    split.
    + intros key. split.
      * intros E. injection E as <-. auto.
      * intros (Hkey0 & Hkey). f_equal. f_equal. f_equal.
        destruct Hsrc as [E | [Hu E]], Hkey as [E' | [Hu' E']]; try congruence.
        -- exfalso. rewrite E in Hu'.
           destruct Hu' as [Hu' | Hu']; [discriminate | now injection Hu'].
        -- exfalso. rewrite E' in Hu.
           destruct Hu as [Hu | Hu]; [discriminate|].
           injection Hu as ->. now destruct Hkey0.
    + intros key E. injection E as <-. split; reflexivity.
Qed.

Lemma X15_witness :
  fst (getMapsConfig browser_key_only mem_empty) = Response 200 (MapsConfig None)
  /\ unset (GOOGLE_MAP_API browser_key_only)
  /\ unset (GOOGLE_GEOCODING_API browser_key_only).
Proof.
  assert (E : fst (getMapsConfig browser_key_only mem_empty)
              = Response 200 (MapsConfig None)) by reflexivity.
  split; [exact E|].
  exact (proj1 (proj1 (proj2 (X15_maps_config_key MemStorage _
                                browser_key_only mem_empty))) E).
Defined.

(** X16.  The geocoding proxy refuses with "Google Maps API key not
    configured" exactly when none of the three variables is set;
    otherwise it asks the service with the first of them that is set
    and the text of the address, answers 200 with the body as the
    service gave it, and 500 "Geocoding failed" when the request throws.
    An address missing from the body is sent as the text [undefined];
    the store is never touched. *)
Theorem X16_geocode_proxy
    (S : Type) (storage : IStorage S) (env : Env) (address : value) (st : S) :
  snd (postGeocode env address st) = st
  /\ (fst (postGeocode env address st)
      = Response 500 (Message "Google Maps API key not configured")
      <-> unset (GOOGLE_MAP_API env) /\ unset (GOOGLE_GEOCODING_API env)
          /\ unset (VITE_GOOGLE_MAPS_API_KEY env))
  /\ (forall key,
       proxyKey env key ->
       fst (postGeocode env address st)
       = match fetchJson env key (to_string address) with
         | Some data => Response 200 (Raw data)
         | None => Response 500 (Message "Geocoding failed")
         end)
  /\ to_string Undefined = "undefined".
Proof.
  split.
  { unfold postGeocode. destruct (negb _); [reflexivity|].
    destruct (fetchJson _ _ _); reflexivity. }
  assert (Hset : forall key, proxyKey env key ->
            or (apiKey env) (env_value (VITE_GOOGLE_MAPS_API_KEY env)) = Str key).
  { intros key (Hne & [E | [[Hu E] | (H1 & H2 & E)]]).
    - rewrite (apiKey_set env key) by auto.
      apply or_truthy. now apply (truthy_env_value_Some key).
    - rewrite (apiKey_set env key) by auto.
      apply or_truthy. now apply (truthy_env_value_Some key).
    - rewrite or_falsy by (now apply apiKey_unset). now rewrite E. }
  split; [|split; [|reflexivity]].
  - unfold postGeocode.
    destruct (truthy (or (apiKey env) (env_value (VITE_GOOGLE_MAPS_API_KEY env))))
      eqn:Ht; cbn [negb fst].
    + split.
      * destruct (fetchJson _ _ _); discriminate.
      * intros (H1 & H2 & H3). exfalso.
        rewrite or_falsy in Ht by (now apply apiKey_unset).
        apply truthy_env_value in H3. congruence.
    + split; [intros _ | reflexivity].
      unfold or in Ht. destruct (truthy (apiKey env)) eqn:Hk; [congruence|].
      apply apiKey_unset in Hk as [H1 H2]. apply truthy_env_value in Ht. auto.
  - intros key Hkey. unfold postGeocode. rewrite (Hset key Hkey).
    destruct Hkey as [Hne _].
    rewrite (truthy_env_value_Some key Hne : truthy (Str key) = true).
    cbn [negb to_string]. destruct (fetchJson env key (to_string address)); reflexivity.
Qed.

Lemma X16_witness :
  proxyKey browser_key_only "vite-key"
  /\ fst (postGeocode browser_key_only Undefined mem_empty)
     = Response 200 (Raw "vite-key?undefined").
Proof.
  assert (Hkey : proxyKey browser_key_only "vite-key").
  { split; [discriminate|]. right. right.
    split; [now left|]. split; [now right | reflexivity]. }
  split; [exact Hkey|].
  exact (proj1 (proj2 (proj2 (X16_geocode_proxy MemStorage _ browser_key_only
                                Undefined mem_empty))) "vite-key" Hkey).
Defined.
